(** * DaaSTrustLayer: scoring engine, circuit breaker, score cache and TrustChain

    A shallow embedding of the compute core of the repository
    ([app/trust/engine_v3.py], [app/compute/sensors.py],
    [app/compute/pipeline.py], [app/compute/pipeline_v3.py],
    [app/compute/cache.py], [app/chain/trustchain.py]) together with the
    properties the specification states about it.

    Conventions.
    - Python [int] is [Z]; [bool] is [bool]; [str] is [string] (ASCII);
      a [float] that is only compared or divided is a rational [Q];
      [List[str]] is [list string]; [Optional[T]] is [option T].
    - A [Dict[str, Any]] is a [gmap string json]; a dictionary whose
      insertion order is observable is an association list.
    - [time.time()] and [datetime.now()] are explicit clock arguments.
    - A raised exception is a value of a sum type, never a missing case. *)

From Stdlib Require Import ZArith QArith Qround Lia Lqa Bool Ascii String List.
From stdpp Require Import pretty gmap strings list fin_maps.

Import ListNotations.
Local Open Scope string_scope.
Local Open Scope Z_scope.

(* ===================================================================== *)
(** * Python values                                                       *)
(* ===================================================================== *)

(** The JSON-native Python values: what [json.loads] returns and what
    [json.dumps] prints without calling [default].  The members of a nested
    object are kept in the key order [json.dumps(sort_keys=True)] prints
    them; a top-level dictionary is a [gmap string json]. *)
Unset Elimination Schemes.
Inductive json : Type :=
  | JNull
  | JBool (b : bool)
  | JInt (n : Z)
  | JFloat (q : Q)
  | JStr (s : string)
  | JList (l : list json)
  | JObj (members : list (string * json)).
Set Elimination Schemes.

(** Python truthiness of a string. *)
Definition str_truthy (s : string) : bool := negb (String.eqb s "").

(** [str.lower()] on ASCII text. *)
Definition lower_ascii (c : ascii) : ascii :=
  let n := nat_of_ascii c in
  if (65 <=? n)%nat && (n <=? 90)%nat then ascii_of_nat (n + 32) else c.

Fixpoint py_lower (s : string) : string :=
  match s with
  | EmptyString => EmptyString
  | String c s' => String (lower_ascii c) (py_lower s')
  end.

(** The slice [s[:n]]. *)
Definition py_prefix (n : nat) (s : string) : string := substring 0 n s.

(* ===================================================================== *)
(** * app/trust/engine_v3.py                                              *)
(* ===================================================================== *)

Module Engine.

Inductive TrustGrade := AAA | AA | A | BBB | BB | B | CCC | D.

Inductive Recommendation :=
  | PROCEED
  | PROCEED_WITH_CAUTION
  | MANUAL_REVIEW
  | ENHANCED_DUE_DILIGENCE
  | REJECT.

(** [RawSignals]: every fact known about an entity. *)
Record RawSignals := {
  target : string;
  (* WHOIS *)
  domain_age_days : Z;
  whois_org : string;
  whois_registrar : string;
  domain_expiry_years_ahead : Q;
  (* crt.sh *)
  ssl_valid : bool;
  ssl_cert_type : string;
  ssl_org : string;
  first_cert_days_ago : Z;
  total_certs_issued : Z;
  cert_issuer : string;
  (* VirusTotal *)
  vt_malicious_count : Z;
  vt_suspicious_count : Z;
  vt_clean_count : Z;
  vt_community_score : Z;
  vt_categories : list string;
  vt_queried : bool;
  (* Google Safe Browsing *)
  gsb_flagged : bool;
  gsb_queried : bool;
  (* DNS *)
  dns_has_spf : bool;
  dns_has_dmarc : bool;
  dns_has_dkim : bool;
  dns_has_dnssec : bool;
  dns_has_mx : bool;
  (* HTTP security headers *)
  http_has_hsts : bool;
  http_has_csp : bool;
  http_has_xframe : bool;
  http_has_xcontent_type : bool;
  http_has_referrer_policy : bool;
  http_has_permissions_policy : bool;
  http_status : Z;
  (* Knowledge graph *)
  has_wikipedia : bool;
  has_wikidata : bool;
  has_crunchbase : bool;
  wikidata_employee_count : Z;
  wikidata_founding_year : Z;
  wikidata_industry : string;
  (* Social presence *)
  social_twitter : bool;
  social_linkedin : bool;
  social_github : bool;
  social_facebook : bool;
  social_youtube : bool;
  social_instagram : bool;
  social_count : Z;
  (* Tranco ranking; 0 = not in the top 1M *)
  tranco_rank : Z;
  (* Web presence *)
  has_structured_data : bool;
  has_org_schema : bool;
  has_status_page : bool;
  has_api_docs : bool;
  has_changelog : bool;
  has_security_txt : bool;
  has_robots_txt : bool;
  (* Blocklists *)
  on_spam_blocklist : bool;
  on_fraud_blocklist : bool;
  on_sanctions_list : bool;
  (* Metadata *)
  sources_queried : list string;
  sources_responded : list string;
  collection_errors : list string;
  collection_time_ms : Q
}.

(** The dataclass defaults, [RawSignals(target=t)]. *)
Definition RawSignals_default (t : string) : RawSignals := {|
  target := t;
  domain_age_days := 0; whois_org := ""; whois_registrar := "";
  domain_expiry_years_ahead := 0%Q;
  ssl_valid := false; ssl_cert_type := ""; ssl_org := "";
  first_cert_days_ago := 0; total_certs_issued := 0; cert_issuer := "";
  vt_malicious_count := 0; vt_suspicious_count := 0; vt_clean_count := 0;
  vt_community_score := 0; vt_categories := []; vt_queried := false;
  gsb_flagged := false; gsb_queried := false;
  dns_has_spf := false; dns_has_dmarc := false; dns_has_dkim := false;
  dns_has_dnssec := false; dns_has_mx := false;
  http_has_hsts := false; http_has_csp := false; http_has_xframe := false;
  http_has_xcontent_type := false; http_has_referrer_policy := false;
  http_has_permissions_policy := false; http_status := 0;
  has_wikipedia := false; has_wikidata := false; has_crunchbase := false;
  wikidata_employee_count := 0; wikidata_founding_year := 0;
  wikidata_industry := "";
  social_twitter := false; social_linkedin := false; social_github := false;
  social_facebook := false; social_youtube := false;
  social_instagram := false; social_count := 0;
  tranco_rank := 0;
  has_structured_data := false; has_org_schema := false;
  has_status_page := false; has_api_docs := false; has_changelog := false;
  has_security_txt := false; has_robots_txt := false;
  on_spam_blocklist := false; on_fraud_blocklist := false;
  on_sanctions_list := false;
  sources_queried := []; sources_responded := []; collection_errors := [];
  collection_time_ms := 0%Q
|}.

Definition _EA_CAP : Z := 300.
Definition _SI_CAP : Z := 300.
Definition _RS_CAP : Z := 250.
Definition _OM_CAP : Z := 150.

(** The per-category [breakdown] dictionary, in insertion order. *)
Definition Breakdown := list (string * Z).

(** [breakdown[k] = v]. *)
Fixpoint dict_set (k : string) (v : Z) (d : Breakdown) : Breakdown :=
  match d with
  | [] => [(k, v)]
  | (k', v') :: d' =>
      if String.eqb k k' then (k, v) :: d' else (k', v') :: dict_set k v d'
  end.

(** [sum(breakdown.values())]. *)
Definition dict_sum (d : Breakdown) : Z :=
  fold_left (fun acc kv => acc + snd kv) d 0.

(** [min(max(raw, 0), cap)]. *)
Definition clamp (raw cap : Z) : Z := Z.min (Z.max raw 0) cap.

(** [if c: breakdown[k] = v]. *)
Definition add_if (c : bool) (k : string) (v : Z) (d : Breakdown) : Breakdown :=
  if c then dict_set k v d else d.

Definition score_existence_and_age (s : RawSignals) : Z * Breakdown :=
  let breakdown : Breakdown := [] in
  (* Domain age (WHOIS) *)
  let breakdown :=
    if domain_age_days s >? 3650 then dict_set "domain_age" 80 breakdown
    else if domain_age_days s >? 1825 then dict_set "domain_age" 60 breakdown
    else if domain_age_days s >? 730 then dict_set "domain_age" 40 breakdown
    else if domain_age_days s >? 365 then dict_set "domain_age" 25 breakdown
    else if domain_age_days s >? 90 then dict_set "domain_age" 10 breakdown
    else if (domain_age_days s >? 0) && (domain_age_days s <? 30)
         then dict_set "domain_age_penalty" (-50) breakdown
    else breakdown in
  (* SSL cert exists *)
  let breakdown := add_if (ssl_valid s) "ssl_exists" 15 breakdown in
  (* Certificate Transparency: first cert age *)
  let breakdown :=
    if first_cert_days_ago s >? 1825 then dict_set "first_cert_age" 30 breakdown
    else if first_cert_days_ago s >? 730 then dict_set "first_cert_age" 20 breakdown
    else if first_cert_days_ago s >? 365 then dict_set "first_cert_age" 10 breakdown
    else breakdown in
  (* Cert type *)
  let breakdown :=
    if String.eqb (ssl_cert_type s) "EV" then dict_set "cert_type" 25 breakdown
    else if String.eqb (ssl_cert_type s) "OV" then dict_set "cert_type" 10 breakdown
    else breakdown in
  (* Knowledge graph *)
  let breakdown := add_if (has_wikipedia s) "wikipedia" 50 breakdown in
  let breakdown := add_if (has_wikidata s) "wikidata" 30 breakdown in
  let breakdown := add_if (has_crunchbase s) "crunchbase" 20 breakdown in
  (* Cross-source consistency *)
  let breakdown :=
    add_if (str_truthy (whois_org s) && str_truthy (ssl_org s) &&
            String.eqb (py_prefix 8 (py_lower (whois_org s)))
                       (py_prefix 8 (py_lower (ssl_org s))))
           "org_consistency" 20 breakdown in
  (* Long-term domain commitment *)
  let breakdown :=
    if Qle_bool 3 (domain_expiry_years_ahead s)
    then dict_set "domain_commitment" 15 breakdown
    else if Qle_bool 1 (domain_expiry_years_ahead s)
    then dict_set "domain_commitment" 5 breakdown
    else breakdown in
  let raw := dict_sum breakdown in
  (clamp raw _EA_CAP, breakdown).

Definition score_security_and_integrity (s : RawSignals) : Z * Breakdown :=
  let breakdown : Breakdown := [] in
  (* VirusTotal *)
  let breakdown :=
    if vt_queried s then
      let flagged := vt_malicious_count s + vt_suspicious_count s in
      if flagged =? 0 then dict_set "vt_clean" 100 breakdown
      else if flagged <=? 2 then dict_set "vt_mostly_clean" 40 breakdown
      else if flagged <=? 5 then dict_set "vt_suspicious_penalty" (-50) breakdown
      else dict_set "vt_dangerous_penalty" (-200) breakdown
    else breakdown in
  (* Google Safe Browsing *)
  let breakdown :=
    if gsb_queried s then
      if negb (gsb_flagged s) then dict_set "gsb_clean" 30 breakdown
      else dict_set "gsb_flagged_penalty" (-200) breakdown
    else breakdown in
  (* DNS security *)
  let breakdown := add_if (dns_has_spf s) "spf" 25 breakdown in
  let breakdown := add_if (dns_has_dmarc s) "dmarc" 30 breakdown in
  let breakdown := add_if (dns_has_dkim s) "dkim" 15 breakdown in
  let breakdown := add_if (dns_has_dnssec s) "dnssec" 20 breakdown in
  (* HTTP headers *)
  let breakdown := add_if (http_has_hsts s) "hsts" 20 breakdown in
  let breakdown := add_if (http_has_csp s) "csp" 20 breakdown in
  let breakdown := add_if (http_has_xframe s) "xframe" 10 breakdown in
  let breakdown := add_if (http_has_xcontent_type s) "xcontent" 10 breakdown in
  let breakdown := add_if (http_has_referrer_policy s) "referrer_policy" 10 breakdown in
  let breakdown := add_if (http_has_permissions_policy s) "permissions_policy" 10 breakdown in
  let raw := dict_sum breakdown in
  (clamp raw _SI_CAP, breakdown).

Definition score_reputation_and_scale (s : RawSignals) : Z * Breakdown :=
  let breakdown : Breakdown := [] in
  (* Tranco rank *)
  let breakdown :=
    if tranco_rank s >? 0 then
      if tranco_rank s <=? 100 then dict_set "tranco" 100 breakdown
      else if tranco_rank s <=? 1000 then dict_set "tranco" 80 breakdown
      else if tranco_rank s <=? 10000 then dict_set "tranco" 60 breakdown
      else if tranco_rank s <=? 100000 then dict_set "tranco" 40 breakdown
      else if tranco_rank s <=? 500000 then dict_set "tranco" 20 breakdown
      else dict_set "tranco" 10 breakdown
    else breakdown in
  (* VirusTotal community score *)
  let breakdown :=
    add_if (vt_community_score s >? 0) "vt_community"
           (Z.min (vt_community_score s * 3) 30) breakdown in
  (* Social presence *)
  let breakdown := add_if (social_twitter s) "twitter" 10 breakdown in
  let breakdown := add_if (social_linkedin s) "linkedin" 15 breakdown in
  let breakdown := add_if (social_github s) "github" 15 breakdown in
  let breakdown := add_if (social_count s >=? 4) "social_breadth" 20 breakdown in
  let raw := dict_sum breakdown in
  (clamp raw _RS_CAP, breakdown).

Definition score_operational_maturity (s : RawSignals) : Z * Breakdown :=
  let breakdown : Breakdown := [] in
  let breakdown := add_if (has_structured_data s) "structured_data" 15 breakdown in
  let breakdown := add_if (has_org_schema s) "org_schema" 15 breakdown in
  let breakdown := add_if (has_status_page s) "status_page" 25 breakdown in
  let breakdown := add_if (has_api_docs s) "api_docs" 20 breakdown in
  let breakdown := add_if (has_changelog s) "changelog" 15 breakdown in
  let breakdown := add_if (has_security_txt s) "security_txt" 15 breakdown in
  let breakdown := add_if (total_certs_issued s >? 5) "cert_renewals" 15 breakdown in
  let breakdown := add_if (dns_has_mx s) "mx_records" 15 breakdown in
  let breakdown := add_if (has_robots_txt s) "robots_txt" 15 breakdown in
  let raw := dict_sum breakdown in
  (clamp raw _OM_CAP, breakdown).

(** ** Hard caps *)

(** The five guard conditions of [apply_hard_caps], as written. *)
Definition cond_sanctioned (s : RawSignals) : bool := on_sanctions_list s.
Definition cond_fraud (s : RawSignals) : bool := on_fraud_blocklist s.
Definition cond_gsb (s : RawSignals) : bool := gsb_queried s && gsb_flagged s.
Definition cond_vt_high (s : RawSignals) : bool :=
  vt_queried s && (vt_malicious_count s + vt_suspicious_count s >=? 6).
Definition cond_new_domain (s : RawSignals) : bool :=
  (domain_age_days s >? 0) && (domain_age_days s <? 30) && (tranco_rank s =? 0).

Definition apply_hard_caps (score : Z) (s : RawSignals) : Z * option string :=
  if cond_sanctioned s then (0, Some "SANCTIONED")
  else if cond_fraud s then (Z.min score 50, Some "FRAUD_BLOCKLISTED")
  else if cond_gsb s then (Z.min score 150, Some "GOOGLE_SAFE_BROWSING_FLAGGED")
  else if cond_vt_high s then (Z.min score 200, Some "VIRUSTOTAL_HIGH_FLAGS")
  else if cond_new_domain s then (Z.min score 100, Some "NEW_DOMAIN_NO_REPUTATION")
  else (score, None).

(** ** The result record and [compute_score] *)

Record TrustScoreResult := {
  res_target : string;
  res_score : Z;
  res_grade : TrustGrade;
  res_recommendation : Recommendation;
  res_existence_age : Z;
  res_security_integrity : Z;
  res_reputation_scale : Z;
  res_operational_maturity : Z;
  res_breakdown : list (string * Breakdown);
  res_confidence : Q;
  res_confidence_label : string;
  res_sources_used : Z;
  res_sources_total : Z;
  res_cap_applied : option string;
  res_engine_version : string
}.

(** [raw_score = int(ea + si + rs + om)]: the composite before overrides. *)
Definition raw_score (s : RawSignals) : Z :=
  fst (score_existence_and_age s) + fst (score_security_and_integrity s)
  + fst (score_reputation_and_scale s) + fst (score_operational_maturity s).

Definition grade_of (final_score : Z) : TrustGrade :=
  if final_score >=? 850 then AAA
  else if final_score >=? 750 then AA
  else if final_score >=? 650 then A
  else if final_score >=? 550 then BBB
  else if final_score >=? 450 then BB
  else if final_score >=? 350 then B
  else if final_score >=? 200 then CCC
  else D.

Definition recommendation_of (final_score : Z) : Recommendation :=
  if final_score >=? 650 then PROCEED
  else if final_score >=? 450 then PROCEED_WITH_CAUTION
  else if final_score >=? 350 then MANUAL_REVIEW
  else if final_score >=? 200 then ENHANCED_DUE_DILIGENCE
  else REJECT.

(** [total_sources = 9], the constant of [compute_score]. *)
Definition total_sources : Z := 9.

Definition compute_score (signals : RawSignals) : TrustScoreResult :=
  let '(ea, ea_bd) := score_existence_and_age signals in
  let '(si, si_bd) := score_security_and_integrity signals in
  let '(rs, rs_bd) := score_reputation_and_scale signals in
  let '(om, om_bd) := score_operational_maturity signals in
  let raw_score := ea + si + rs + om in
  let '(final_score, cap) := apply_hard_caps raw_score signals in
  let grade := grade_of final_score in
  let rec := recommendation_of final_score in
  let responded := Z.of_nat (length (sources_responded signals)) in
  let confidence : Q :=
    if total_sources >? 0
    then (inject_Z responded / inject_Z total_sources)%Q else 0%Q in
  let conf_label :=
    if Qle_bool (8 # 10) confidence then "high"
    else if Qle_bool (5 # 10) confidence then "moderate"
    else "low" in
  {| res_target := target signals;
     res_score := final_score;
     res_grade := grade;
     res_recommendation := rec;
     res_existence_age := ea;
     res_security_integrity := si;
     res_reputation_scale := rs;
     res_operational_maturity := om;
     res_breakdown := [("existence_age", ea_bd); ("security_integrity", si_bd);
                       ("reputation_scale", rs_bd); ("operational_maturity", om_bd)];
     res_confidence := confidence;
     res_confidence_label := conf_label;
     res_sources_used := responded;
     res_sources_total := total_sources;
     res_cap_applied := cap;
     res_engine_version := "3.0.0" |}.

End Engine.

(* ===================================================================== *)
(** * app/chain/trustchain.py                                             *)
(* ===================================================================== *)

Module TrustChain.

(** [GENESIS_HASH = "0" * 64]. *)
Definition GENESIS_HASH : string :=
  "0000000000000000000000000000000000000000000000000000000000000000".

Inductive Sensor :=
  | TRANCO | CRTSH | VIRUSTOTAL | DNS | HTTP_HEADERS | WHOIS
  | KNOWLEDGE_GRAPH | WEB_PRESENCE | SOCIAL | SAFE_BROWSING | SCORE.

(** [Sensor.value]. *)
Definition Sensor_value (s : Sensor) : string :=
  match s with
  | TRANCO => "tranco"
  | CRTSH => "crtsh"
  | VIRUSTOTAL => "virustotal"
  | DNS => "dns"
  | HTTP_HEADERS => "http_headers"
  | WHOIS => "whois"
  | KNOWLEDGE_GRAPH => "knowledge_graph"
  | WEB_PRESENCE => "web_presence"
  | SOCIAL => "social"
  | SAFE_BROWSING => "google_safe_browsing"
  | SCORE => "score_computed"
  end.

(** The [Block] dataclass. *)
Record Block := {
  entity_id : string;
  sensor : string;
  block_index : Z;
  observed_at : string;
  observed_at_unix : Q;
  signals : gmap string json;
  prev_hash : string;
  block_hash : string;
  delta : gmap string json;
  collection_time_ms : Q;
  sensor_version : string;
  node_id : string
}.

(** Field assignments [b.f = v]. *)
Definition set_observed (iso : string) (unix : Q) (b : Block) : Block :=
  {| entity_id := entity_id b; sensor := sensor b; block_index := block_index b;
     observed_at := iso; observed_at_unix := unix;
     signals := signals b; prev_hash := prev_hash b; block_hash := block_hash b;
     delta := delta b; collection_time_ms := collection_time_ms b;
     sensor_version := sensor_version b; node_id := node_id b |}.

Definition set_observed_at_unix (unix : Q) (b : Block) : Block :=
  set_observed (observed_at b) unix b.

Definition set_node_id (n : string) (b : Block) : Block :=
  {| entity_id := entity_id b; sensor := sensor b; block_index := block_index b;
     observed_at := observed_at b; observed_at_unix := observed_at_unix b;
     signals := signals b; prev_hash := prev_hash b; block_hash := block_hash b;
     delta := delta b; collection_time_ms := collection_time_ms b;
     sensor_version := sensor_version b; node_id := n |}.

Definition set_block_hash (h : string) (b : Block) : Block :=
  {| entity_id := entity_id b; sensor := sensor b; block_index := block_index b;
     observed_at := observed_at b; observed_at_unix := observed_at_unix b;
     signals := signals b; prev_hash := prev_hash b; block_hash := h;
     delta := delta b; collection_time_ms := collection_time_ms b;
     sensor_version := sensor_version b; node_id := node_id b |}.

Definition set_signals (sg : gmap string json) (b : Block) : Block :=
  {| entity_id := entity_id b; sensor := sensor b; block_index := block_index b;
     observed_at := observed_at b; observed_at_unix := observed_at_unix b;
     signals := sg; prev_hash := prev_hash b; block_hash := block_hash b;
     delta := delta b; collection_time_ms := collection_time_ms b;
     sensor_version := sensor_version b; node_id := node_id b |}.

Definition set_delta (d : gmap string json) (b : Block) : Block :=
  {| entity_id := entity_id b; sensor := sensor b; block_index := block_index b;
     observed_at := observed_at b; observed_at_unix := observed_at_unix b;
     signals := signals b; prev_hash := prev_hash b; block_hash := block_hash b;
     delta := d; collection_time_ms := collection_time_ms b;
     sensor_version := sensor_version b; node_id := node_id b |}.

Definition set_collection_time_ms (t : Q) (b : Block) : Block :=
  {| entity_id := entity_id b; sensor := sensor b; block_index := block_index b;
     observed_at := observed_at b; observed_at_unix := observed_at_unix b;
     signals := signals b; prev_hash := prev_hash b; block_hash := block_hash b;
     delta := delta b; collection_time_ms := t;
     sensor_version := sensor_version b; node_id := node_id b |}.

Definition set_sensor_version (v : string) (b : Block) : Block :=
  {| entity_id := entity_id b; sensor := sensor b; block_index := block_index b;
     observed_at := observed_at b; observed_at_unix := observed_at_unix b;
     signals := signals b; prev_hash := prev_hash b; block_hash := block_hash b;
     delta := delta b; collection_time_ms := collection_time_ms b;
     sensor_version := v; node_id := node_id b |}.

(** The dictionary [compute_hash] serialises: exactly these six keys. *)
Record HashedContent := {
  hc_entity_id : string;
  hc_sensor : string;
  hc_block_index : Z;
  hc_observed_at : string;
  hc_signals : gmap string json;
  hc_prev_hash : string
}.

Definition hashed_content (b : Block) : HashedContent :=
  {| hc_entity_id := entity_id b;
     hc_sensor := sensor b;
     hc_block_index := block_index b;
     hc_observed_at := observed_at b;
     hc_signals := signals b;
     hc_prev_hash := prev_hash b |}.

(** A reading of [datetime.now(timezone.utc)]: [isoformat()] and
    [timestamp()]. *)
Record Clock := { iso : string; unix : Q }.

(** The Redis database of [TrustChainStore], one component per key family:
    [chain:{e}:head], [chain:{e}:latest:{sensor}], [block:{hash}],
    [chain:{e}:blocks] and [chain:entities].  A stored block is the
    dictionary [json.loads] returns for it, read back as a [Block].  The
    seven-day expiry of the [block:{hash}] keys is left out: no block
    expires here. *)
Record Head := { head_hash : string; head_index : Z; head_updated_at : string }.

Record Store := {
  heads : gmap string Head;
  latest : gmap (string * string) (gmap string json);
  blocks : gmap string Block;
  block_lists : gmap string (list string);
  entities : gset string
}.

Definition empty_store : Store :=
  {| heads := ∅; latest := ∅; blocks := ∅; block_lists := ∅; entities := ∅ |}.

(** Redis [LRANGE key start stop] on the list [l]. *)
Definition lrange {X : Type} (l : list X) (start stop : Z) : list X :=
  let len := Z.of_nat (length l) in
  let start := if start <? 0 then len + start else start in
  let stop := if stop <? 0 then len + stop else stop in
  let start := if start <? 0 then 0 else start in
  if (start >? stop) || (start >=? len) then []
  else
    let stop := if stop >=? len then len - 1 else stop in
    take (Z.to_nat (stop - start + 1)) (drop (Z.to_nat start) l).

(** [blocks.sort(key=lambda b: b.get("block_index", 0))]: the stable sort. *)
Fixpoint insert_by_index (b : Block) (l : list Block) : list Block :=
  match l with
  | [] => [b]
  | x :: l' =>
      if block_index b <=? block_index x then b :: x :: l'
      else x :: insert_by_index b l'
  end.

Definition sort_by_index (l : list Block) : list Block :=
  foldr insert_by_index [] l.

(** One entry of the [breaks] list of [verify_chain]. *)
Inductive Break :=
  | HashMismatch (index : Z) (expected_hash stored_hash : string)
  | ChainBreak (index : Z) (expected_prev actual_prev : string).

(** The dictionary [verify_chain] returns. *)
Inductive VerifyResult :=
  | NoBlocks
  | Checked (verified : bool) (blocks_checked : nat) (breaks : list Break)
            (chain_head : string).

Definition breaks_of (r : VerifyResult) : list Break :=
  match r with
  | NoBlocks => []
  | Checked _ _ brs _ => brs
  end.

Definition verified_of (r : VerifyResult) : bool :=
  match r with
  | NoBlocks => true
  | Checked v _ _ _ => v
  end.

(** One [create_block] call: its arguments and the clock reading the new
    block's [__post_init__] takes. *)
Record CreateOp := {
  op_entity : string;
  op_sensor : string;
  op_signals : gmap string json;
  op_time_ms : Q;
  op_now : Clock
}.

Section WithDigest.

(** [digest c] is
    [hashlib.sha256(json.dumps(c, sort_keys=True, default=str).encode()).hexdigest()]. *)
Variable digest : HashedContent -> string.

(** [compute_delta] (lines 143 to 178) fills the [delta] field of a new
    block and nothing else. *)
Variable compute_delta : gmap string json -> gmap string json -> gmap string json.

(** [os.environ.get("M2A_NODE_ID", "node-0")]. *)
Variable env_node_id : string.

Definition compute_hash (b : Block) : string := digest (hashed_content b).

Definition verify (b : Block) : bool :=
  String.eqb (block_hash b) (compute_hash b).

Definition __post_init__ (now : Clock) (b : Block) : Block :=
  let b := if negb (str_truthy (observed_at b))
           then set_observed (iso now) (unix now) b else b in
  let b := if negb (str_truthy (node_id b)) then set_node_id env_node_id b else b in
  let b := if negb (str_truthy (block_hash b))
           then set_block_hash (compute_hash b) b else b in
  b.

Definition get_chain_head (st : Store) (e : string) : string * Z :=
  match heads st !! e with
  | Some h => (head_hash h, head_index h)
  | None => (GENESIS_HASH, 0)
  end.

Definition get_last_signals (st : Store) (e sn : string) : option (gmap string json) :=
  latest st !! (e, sn).

Definition append_block (st : Store) (b : Block) : Store * Block :=
  let st' :=
    {| heads := <[entity_id b := {| head_hash := block_hash b;
                                    head_index := block_index b;
                                    head_updated_at := observed_at b |}]> (heads st);
       latest := <[(entity_id b, sensor b) := signals b]> (latest st);
       blocks := <[block_hash b := b]> (blocks st);
       block_lists :=
         <[entity_id b :=
             lrange (block_hash b :: default [] (block_lists st !! entity_id b)) 0 999]>
           (block_lists st);
       entities := {[entity_id b]} ∪ entities st |} in
  (st', b).

Definition create_block (st : Store) (op : CreateOp) : Store * Block :=
  let '(prev_hash_, prev_index) := get_chain_head st (op_entity op) in
  let new_index :=
    if negb (String.eqb prev_hash_ GENESIS_HASH) then prev_index + 1 else 0 in
  let old_signals := default ∅ (get_last_signals st (op_entity op) (op_sensor op)) in
  let delta_ :=
    if bool_decide (old_signals = ∅) then ∅
    else compute_delta old_signals (op_signals op) in
  let block :=
    __post_init__ (op_now op)
      {| entity_id := op_entity op;
         sensor := op_sensor op;
         block_index := new_index;
         observed_at := "";
         observed_at_unix := 0%Q;
         signals := op_signals op;
         prev_hash := prev_hash_;
         block_hash := "";
         delta := delta_;
         collection_time_ms := op_time_ms op;
         sensor_version := "3.0.0";
         node_id := "" |} in
  append_block st block.

Definition get_entity_history (st : Store) (e : string) (limit : Z) : list Block :=
  let hashes := lrange (default [] (block_lists st !! e)) 0 (limit - 1) in
  omap (fun h => blocks st !! h) hashes.

(** The body of the [for i, block_data in enumerate(blocks)] loop;
    [prev] is [blocks[i - 1]] when [i > 0], and [clock i] is what
    [datetime.now] reads when the [i]-th block is rebuilt. *)
Fixpoint verify_loop (clock : nat -> Clock) (prev : option Block) (i : nat)
    (bs : list Block) : list Break :=
  match bs with
  | [] => []
  | block_data :: rest =>
      let b := __post_init__ (clock i) block_data in
      let recomputed := compute_hash b in
      let hash_breaks :=
        if negb (String.eqb recomputed (block_hash block_data))
        then [HashMismatch (block_index block_data) recomputed (block_hash block_data)]
        else [] in
      let link_breaks :=
        match prev with
        | Some p =>
            if negb (String.eqb (block_hash p) (prev_hash block_data))
            then [ChainBreak (block_index block_data) (block_hash p)
                             (prev_hash block_data)]
            else []
        | None => []
        end in
      hash_breaks ++ link_breaks ++ verify_loop clock (Some block_data) (S i) rest
  end.

Definition verify_chain (clock : nat -> Clock) (st : Store) (e : string)
    (limit : Z) : VerifyResult :=
  let blocks_ := get_entity_history st e limit in
  match blocks_ with
  | [] => NoBlocks
  | _ :: _ =>
      let blocks_ := sort_by_index blocks_ in
      let breaks := verify_loop clock None 0 blocks_ in
      Checked (bool_decide (length breaks = 0%nat)) (length blocks_) breaks
              (default "" (block_hash <$> last blocks_))
  end.

(** A run of [create_block] calls by a single writer: the final store and
    the blocks returned, oldest first. *)
Fixpoint run_creates (st : Store) (ops : list CreateOp) : Store * list Block :=
  match ops with
  | [] => (st, [])
  | op :: ops' =>
      let '(st1, b) := create_block st op in
      let '(st2, bs) := run_creates st1 ops' in
      (st2, b :: bs)
  end.

End WithDigest.

(** The chain of one entity within a log of appended blocks. *)
Definition chain_of (e : string) (log : list Block) : list Block :=
  filter (fun b => entity_id b = e) log.

End TrustChain.

(* ===================================================================== *)
(** * app/compute/sensors.py                                              *)
(* ===================================================================== *)

Module Sensors.
Import TrustChain.

(** What awaiting one collector coroutine under [asyncio.wait_for] does. *)
Inductive CollectorOutcome :=
  | Returned (result : gmap string json)
  | Raised (msg : string)
  | TimedOut.

(** [_timed_collect(name, coro)]: [(name, result, elapsed)], and
    [(name, {}, elapsed)] from the [except Exception] branch. *)
Definition _timed_collect (name : string) (coro : CollectorOutcome) (elapsed : Q)
    : string * gmap string json * Q :=
  match coro with
  | Returned result => (name, result, elapsed)
  | Raised _ => (name, ∅, elapsed)
  | TimedOut => (name, ∅, elapsed)
  end.

(** An element of [results_list], the value of
    [asyncio.gather] called with [return_exceptions=True]. *)
Inductive GatherItem :=
  | ItemTuple (t : string * gmap string json * Q)
  | ItemException (msg : string).

(** The keys of the [sensors] dictionary, in insertion order. *)
Definition launched (domain : string) : list Sensor :=
  (if str_truthy domain
   then [TRANCO; CRTSH; VIRUSTOTAL; DNS; HTTP_HEADERS; WHOIS; WEB_PRESENCE]
   else [])
  ++ [KNOWLEDGE_GRAPH; SOCIAL].

(** What the result loop accumulates. *)
Record Collected := {
  c_responded : list string;
  c_errors : list string;
  c_results : list (Sensor * gmap string json)
}.

(** [for i, res in enumerate(results_list)] with [sensor = keys[i]]. *)
Fixpoint process_results (keys : list Sensor) (results_list : list GatherItem)
    (acc : Collected) : Collected :=
  match keys, results_list with
  | sensor :: keys', res :: rest =>
      let acc' :=
        match res with
        | ItemTuple (_, sigs, _) =>
            {| c_responded := c_responded acc ++ [Sensor_value sensor];
               c_errors := c_errors acc;
               c_results := c_results acc ++ [(sensor, sigs)] |}
        | ItemException msg =>
            {| c_responded := c_responded acc;
               c_errors := c_errors acc
                           ++ [Sensor_value sensor ++ ": " ++ py_prefix 100 msg];
               c_results := c_results acc ++ [(sensor, ∅)] |}
        end in
      process_results keys' rest acc'
  | _, _ => acc
  end.

(** The metadata [observe_entity] writes into the [RawSignals] it returns;
    the signal fields, which lines 107 to 180 copy out of the sensor
    results, are those of [mapped].  [domain] is [parse_target(t)["domain"]]
    and [run s] is what sensor [s] does once launched. *)
Definition observe_entity (mapped : Engine.RawSignals) (domain : string)
    (run : Sensor -> CollectorOutcome * Q) : Engine.RawSignals :=
  let keys := launched domain in
  let results_list :=
    map (fun s => ItemTuple (_timed_collect (Sensor_value s) (fst (run s)) (snd (run s))))
        keys in
  let acc := process_results keys results_list
               {| c_responded := []; c_errors := []; c_results := [] |} in
  let s := mapped in
  {| Engine.target := Engine.target s;
     Engine.domain_age_days := Engine.domain_age_days s;
     Engine.whois_org := Engine.whois_org s;
     Engine.whois_registrar := Engine.whois_registrar s;
     Engine.domain_expiry_years_ahead := Engine.domain_expiry_years_ahead s;
     Engine.ssl_valid := Engine.ssl_valid s;
     Engine.ssl_cert_type := Engine.ssl_cert_type s;
     Engine.ssl_org := Engine.ssl_org s;
     Engine.first_cert_days_ago := Engine.first_cert_days_ago s;
     Engine.total_certs_issued := Engine.total_certs_issued s;
     Engine.cert_issuer := Engine.cert_issuer s;
     Engine.vt_malicious_count := Engine.vt_malicious_count s;
     Engine.vt_suspicious_count := Engine.vt_suspicious_count s;
     Engine.vt_clean_count := Engine.vt_clean_count s;
     Engine.vt_community_score := Engine.vt_community_score s;
     Engine.vt_categories := Engine.vt_categories s;
     Engine.vt_queried := Engine.vt_queried s;
     Engine.gsb_flagged := Engine.gsb_flagged s;
     Engine.gsb_queried := Engine.gsb_queried s;
     Engine.dns_has_spf := Engine.dns_has_spf s;
     Engine.dns_has_dmarc := Engine.dns_has_dmarc s;
     Engine.dns_has_dkim := Engine.dns_has_dkim s;
     Engine.dns_has_dnssec := Engine.dns_has_dnssec s;
     Engine.dns_has_mx := Engine.dns_has_mx s;
     Engine.http_has_hsts := Engine.http_has_hsts s;
     Engine.http_has_csp := Engine.http_has_csp s;
     Engine.http_has_xframe := Engine.http_has_xframe s;
     Engine.http_has_xcontent_type := Engine.http_has_xcontent_type s;
     Engine.http_has_referrer_policy := Engine.http_has_referrer_policy s;
     Engine.http_has_permissions_policy := Engine.http_has_permissions_policy s;
     Engine.http_status := Engine.http_status s;
     Engine.has_wikipedia := Engine.has_wikipedia s;
     Engine.has_wikidata := Engine.has_wikidata s;
     Engine.has_crunchbase := Engine.has_crunchbase s;
     Engine.wikidata_employee_count := Engine.wikidata_employee_count s;
     Engine.wikidata_founding_year := Engine.wikidata_founding_year s;
     Engine.wikidata_industry := Engine.wikidata_industry s;
     Engine.social_twitter := Engine.social_twitter s;
     Engine.social_linkedin := Engine.social_linkedin s;
     Engine.social_github := Engine.social_github s;
     Engine.social_facebook := Engine.social_facebook s;
     Engine.social_youtube := Engine.social_youtube s;
     Engine.social_instagram := Engine.social_instagram s;
     Engine.social_count := Engine.social_count s;
     Engine.tranco_rank := Engine.tranco_rank s;
     Engine.has_structured_data := Engine.has_structured_data s;
     Engine.has_org_schema := Engine.has_org_schema s;
     Engine.has_status_page := Engine.has_status_page s;
     Engine.has_api_docs := Engine.has_api_docs s;
     Engine.has_changelog := Engine.has_changelog s;
     Engine.has_security_txt := Engine.has_security_txt s;
     Engine.has_robots_txt := Engine.has_robots_txt s;
     Engine.on_spam_blocklist := Engine.on_spam_blocklist s;
     Engine.on_fraud_blocklist := Engine.on_fraud_blocklist s;
     Engine.on_sanctions_list := Engine.on_sanctions_list s;
     Engine.sources_queried := map Sensor_value keys;
     Engine.sources_responded := c_responded acc;
     Engine.collection_errors := c_errors acc;
     Engine.collection_time_ms := Engine.collection_time_ms s |}.

End Sensors.

(* ===================================================================== *)
(** * Exceptions and Redis                                                *)
(* ===================================================================== *)

(** The outcome of a call that may raise: [Raise e] carries [str(e)] of an
    instance of [Exception]. *)
Inductive Res (X : Type) : Type :=
  | Ok (x : X)
  | Raise (e : string).
Arguments Ok {X} x.
Arguments Raise {X} e.

Definition Qlt_bool (a b : Q) : bool := negb (Qle_bool b a).

(* ===================================================================== *)
(** * app/compute/cache.py                                                *)
(* ===================================================================== *)

Module Cache.

(** The Redis server behind [ScoreCache], one component per key family:
    [m2a:score:{k}] (the JSON document and its expiry time),
    [m2a:score:meta:{k}] (a hash and its expiry time, if any) and
    [m2a:score:locks:{k}] (the expiry time of the lock).  [k] is the
    normalised key.  A stored document is identified with the dictionary
    [json.loads] returns for it.  A command sent while [reachable] is
    false raises. *)
Record Redis := {
  reachable : bool;
  scores : gmap string (gmap string json * Q);
  metas : gmap string (gmap string json * option Q);
  locks : gmap string Q
}.

Definition with_scores (r : Redis) (m : gmap string (gmap string json * Q)) : Redis :=
  {| reachable := reachable r; scores := m; metas := metas r; locks := locks r |}.
Definition with_metas (r : Redis) (m : gmap string (gmap string json * option Q)) : Redis :=
  {| reachable := reachable r; scores := scores r; metas := m; locks := locks r |}.
Definition with_locks (r : Redis) (m : gmap string Q) : Redis :=
  {| reachable := reachable r; scores := scores r; metas := metas r; locks := m |}.

(** The fields [_enabled] and [_client] of a [ScoreCache]; [_client] is
    true once a client object exists. *)
Record ScoreCache := { _enabled : bool; _client : bool }.

(** [ScoreCache()]. *)
Definition ScoreCache_init : ScoreCache := {| _enabled := true; _client := false |}.

Definition LOCK_TTL : Z := 30.

(** ASCII white space, what [str.strip()] removes. *)
Definition is_space (c : ascii) : bool :=
  let n := nat_of_ascii c in
  ((9 <=? n)%nat && (n <=? 13)%nat) || ((28 <=? n)%nat && (n <=? 32)%nat).

Fixpoint lstrip_with (p : ascii -> bool) (s : string) : string :=
  match s with
  | EmptyString => EmptyString
  | String c s' => if p c then lstrip_with p s' else s
  end.

Fixpoint rstrip_with (p : ascii -> bool) (s : string) : string :=
  match s with
  | EmptyString => EmptyString
  | String c s' =>
      let r := rstrip_with p s' in
      if p c && negb (str_truthy r) then EmptyString else String c r
  end.

Definition py_strip (s : string) : string :=
  rstrip_with is_space (lstrip_with is_space s).

(** [if clean.startswith(prefix): clean = clean[len(prefix):]]. *)
Definition strip_prefix (p s : string) : string :=
  if String.prefix p s
  then substring (String.length p) (String.length s - String.length p) s
  else s.

Section WithEnv.

(** [hashlib.sha256(s.encode("utf-8")).hexdigest()]. *)
Variable sha256_hex : string -> string.

(** The module constants, read from the environment at import time
    (defaults 3600, 21600, 300 and 86400 seconds). *)
Variables TTL_REGISTERED TTL_UNREGISTERED TTL_FAILED TTL_PREVIEW : Z.

Definition _normalize_key (target : string) : string :=
  let clean := py_lower (py_strip target) in
  let clean := strip_prefix "https://" clean in
  let clean := strip_prefix "http://" clean in
  let clean := strip_prefix "www." clean in
  let clean := rstrip_with (Ascii.eqb "/"%char) clean in
  py_prefix 24 (sha256_hex clean).

(** [_connect]: the client, created on first use; the attempt pings the
    server, and a failure disables the cache for good.  The [redis]
    package is taken to be installed. *)
Definition _connect (c : ScoreCache) (r : Redis) : ScoreCache * bool :=
  if _client c then (c, true)
  else if reachable r then ({| _enabled := _enabled c; _client := true |}, true)
  else ({| _enabled := false; _client := false |}, false).

(** Redis [GET] of a score key at time [now]. *)
Definition redis_get (r : Redis) (now : Q) (k : string) : Res (option (gmap string json)) :=
  if negb (reachable r) then Raise "ConnectionError"
  else match scores r !! k with
       | Some (doc, expires) =>
           if Qlt_bool now expires then Ok (Some doc) else Ok None
       | None => Ok None
       end.

(** Redis [HINCRBY meta_key hits 1]. *)
Definition redis_hincrby_hits (r : Redis) (now : Q) (k : string) : Res Redis :=
  if negb (reachable r) then Raise "ConnectionError"
  else
    let live :=
      match metas r !! k with
      | Some (fields, Some expires) =>
          if Qlt_bool now expires then Some (fields, Some expires) else None
      | Some (fields, None) => Some (fields, None)
      | None => None
      end in
    match live with
    | None => Ok (with_metas r (<[k := ({["hits" := JInt 1]}, None)]> (metas r)))
    | Some (fields, expires) =>
        match fields !! "hits" with
        | None => Ok (with_metas r (<[k := (<["hits" := JInt 1]> fields, expires)]> (metas r)))
        | Some (JInt n) =>
            Ok (with_metas r (<[k := (<["hits" := JInt (n + 1)]> fields, expires)]> (metas r)))
        | Some _ => Raise "ResponseError"
        end
    end.

(** Redis [SETEX key ttl doc] at time [now]. *)
Definition redis_setex (r : Redis) (now : Q) (k : string) (ttl : Z)
    (doc : gmap string json) : Res Redis :=
  if negb (reachable r) then Raise "ConnectionError"
  else if ttl <=? 0 then Raise "ResponseError"
  else Ok (with_scores r (<[k := (doc, (now + inject_Z ttl)%Q)]> (scores r))).

(** Redis [HSET meta_key mapping] followed by [EXPIRE meta_key ttl]. *)
Definition redis_hset_expire (r : Redis) (now : Q) (k : string)
    (mapping : gmap string json) (ttl : Z) : Res Redis :=
  if negb (reachable r) then Raise "ConnectionError"
  else
    let old :=
      match metas r !! k with
      | Some (fields, Some expires) => if Qlt_bool now expires then fields else ∅
      | Some (fields, None) => fields
      | None => ∅
      end in
    Ok (with_metas r (<[k := (mapping ∪ old, Some (now + inject_Z ttl)%Q)]> (metas r))).

Definition get (c : ScoreCache) (r : Redis) (now : Q) (target : string)
    : ScoreCache * Redis * option (gmap string json) :=
  if negb (_enabled c) then (c, r, None)
  else
    let '(c, client) := _connect c r in
    if negb client then (c, r, None)
    else
      let key := _normalize_key target in
      match redis_get r now key with
      | Ok (Some data) =>
          match redis_hincrby_hits r now key with
          | Ok r' => (c, r', Some (<["_cache" := JStr "hit"]> data))
          | Raise _ => (c, r, None)
          end
      | Ok None => (c, r, None)
      | Raise _ => (c, r, None)
      end.

(** The TTL [set] chooses. *)
Definition choose_ttl (is_registered is_preview failed : bool) : Z :=
  if failed then TTL_FAILED
  else if is_preview then TTL_PREVIEW
  else if is_registered then TTL_REGISTERED
  else TTL_UNREGISTERED.

(** [set] returns its boolean; the caller's [score_data] dictionary, which
    [set] updates in place, is the third component. *)
Definition set (c : ScoreCache) (r : Redis) (now : Q) (target : string)
    (score_data : gmap string json) (is_registered is_preview failed : bool)
    : ScoreCache * Redis * gmap string json * bool :=
  if negb (_enabled c) then (c, r, score_data, false)
  else
    let '(c, client) := _connect c r in
    if negb client then (c, r, score_data, false)
    else
      let key := _normalize_key target in
      let ttl := choose_ttl is_registered is_preview failed in
      let score_data := <["_cached_at" := JFloat now]> score_data in
      let score_data := <["_ttl" := JInt ttl]> score_data in
      match redis_setex r now key ttl score_data with
      | Raise _ => (c, r, score_data, false)
      | Ok r1 =>
          let mapping : gmap string json :=
            {[ "target" := JStr (py_prefix 200 target);
               "cached_at" := JFloat now;
               "ttl" := JInt ttl;
               "is_registered" := JInt (Z.b2z is_registered);
               "hits" := JInt 0 ]} in
          match redis_hset_expire r1 now key mapping (ttl + 3600) with
          | Raise _ => (c, r1, score_data, false)
          | Ok r2 => (c, r2, score_data, true)
          end
      end.

Definition invalidate (c : ScoreCache) (r : Redis) (now : Q) (target : string)
    : ScoreCache * Redis * bool :=
  if negb (_enabled c) then (c, r, false)
  else
    let '(c, client) := _connect c r in
    if negb client then (c, r, false)
    else
      let key := _normalize_key target in
      if negb (reachable r) then (c, r, false)
      else
        match redis_get r now key with
        | Ok (Some _) => (c, with_scores r (delete key (scores r)), true)
        | _ => (c, with_scores r (delete key (scores r)), false)
        end.

(** [SET lock_key "1" NX EX LOCK_TTL]. *)
Definition acquire_lock (c : ScoreCache) (r : Redis) (now : Q) (target : string)
    : ScoreCache * Redis * bool :=
  if negb (_enabled c) then (c, r, true)
  else
    let '(c, client) := _connect c r in
    if negb client then (c, r, true)
    else
      let key := _normalize_key target in
      if negb (reachable r) then (c, r, true)
      else
        let held :=
          match locks r !! key with
          | Some expires => Qlt_bool now expires
          | None => false
          end in
        if held then (c, r, false)
        else (c, with_locks r (<[key := (now + inject_Z LOCK_TTL)%Q]> (locks r)), true).

Definition release_lock (c : ScoreCache) (r : Redis) (target : string)
    : ScoreCache * Redis :=
  if negb (_enabled c) then (c, r)
  else
    let '(c, client) := _connect c r in
    if negb client then (c, r)
    else
      let key := _normalize_key target in
      if negb (reachable r) then (c, r)
      else (c, with_locks r (delete key (locks r))).

End WithEnv.

End Cache.

(* ===================================================================== *)
(** * app/compute/pipeline.py                                             *)
(* ===================================================================== *)

Module Pipeline.

(** The three values the [state] attribute takes. *)
Inductive BreakerState := closed | open | half_open.

Record CircuitBreaker := {
  name : string;
  threshold : Z;
  recovery_timeout : Z;
  failures : Z;
  last_failure_time : Q;
  state : BreakerState
}.

(** [CircuitBreaker(name, threshold, recovery_timeout)]. *)
Definition CircuitBreaker_init (n : string) (th rt : Z) : CircuitBreaker :=
  {| name := n; threshold := th; recovery_timeout := rt;
     failures := 0; last_failure_time := 0%Q; state := closed |}.

Definition with_state (st : BreakerState) (b : CircuitBreaker) : CircuitBreaker :=
  {| name := name b; threshold := threshold b;
     recovery_timeout := recovery_timeout b; failures := failures b;
     last_failure_time := last_failure_time b; state := st |}.

(** [can_execute] at the instant [now = time.time()]: the answer and the
    breaker afterwards. *)
Definition can_execute (now : Q) (b : CircuitBreaker) : bool * CircuitBreaker :=
  match state b with
  | closed => (true, b)
  | open =>
      if Qlt_bool (inject_Z (recovery_timeout b)) (now - last_failure_time b)%Q
      then (true, with_state half_open b)
      else (false, b)
  | half_open => (true, b)
  end.

Definition record_success (b : CircuitBreaker) : CircuitBreaker :=
  {| name := name b; threshold := threshold b;
     recovery_timeout := recovery_timeout b; failures := 0;
     last_failure_time := last_failure_time b; state := closed |}.

Definition record_failure (now : Q) (b : CircuitBreaker) : CircuitBreaker :=
  let f := failures b + 1 in
  {| name := name b; threshold := threshold b;
     recovery_timeout := recovery_timeout b; failures := f;
     last_failure_time := now;
     state := if f >=? threshold b then open else state b |}.

(** What the methods of a breaker can do to it, one event per call. *)
Inductive BreakerEvent :=
  | EvCanExecute (now : Q)
  | EvSuccess
  | EvFailure (now : Q).

Definition breaker_step (b : CircuitBreaker) (ev : BreakerEvent) : CircuitBreaker :=
  match ev with
  | EvCanExecute now => snd (can_execute now b)
  | EvSuccess => record_success b
  | EvFailure now => record_failure now b
  end.

Definition breaker_run (b : CircuitBreaker) (evs : list BreakerEvent) : CircuitBreaker :=
  fold_left breaker_step evs b.

(** The [metadata] lists [_guarded] appends to. *)
Record Metadata := {
  data_sources : list string;
  skipped : list string;
  errors : list string
}.

(** What awaiting the collector under [asyncio.wait_for(coro, 12.0)] does. *)
Inductive CoroOutcome :=
  | CoroReturned (result : gmap string json)
  | CoroTimeout
  | CoroRaised (msg : string).

(** [_guarded] up to its [await]: the breaker gate.  [None] is the early
    return [(name, {})] of a skipped collector. *)
Definition _guarded_enter (now : Q) (breaker : option CircuitBreaker) (md : Metadata)
    (n : string) : option CircuitBreaker * Metadata * bool :=
  match breaker with
  | Some b =>
      let '(ok, b') := can_execute now b in
      if negb ok
      then (Some b',
            {| data_sources := data_sources md; skipped := skipped md ++ [n];
               errors := errors md |},
            false)
      else (Some b', md, true)
  | None => (None, md, true)
  end.

(** [_guarded] from the end of its [await]: the outcome is recorded. *)
Definition _guarded_exit (now : Q) (breaker : option CircuitBreaker) (md : Metadata)
    (n : string) (coro : CoroOutcome)
    : option CircuitBreaker * Metadata * (string * gmap string json) :=
  match coro with
  | CoroReturned result =>
      (record_success <$> breaker,
       {| data_sources := data_sources md ++ [n]; skipped := skipped md;
          errors := errors md |},
       (n, result))
  | CoroTimeout =>
      (record_failure now <$> breaker,
       {| data_sources := data_sources md; skipped := skipped md;
          errors := errors md ++ [n ++ ": timeout"] |},
       (n, ∅))
  | CoroRaised msg =>
      (record_failure now <$> breaker,
       {| data_sources := data_sources md; skipped := skipped md;
          errors := errors md ++ [n ++ ": " ++ py_prefix 100 msg] |},
       (n, ∅))
  end.

(** The clock readings and rounded durations one pipeline call uses. *)
Record Times := {
  t_check : Q;      (* the cache check and the lock request *)
  t_recheck : Q;    (* the second cache check, after [asyncio.sleep(1.5)] *)
  t_store : Q;      (* [cache.set] *)
  ms_hit : Q;       (* [pipeline_time_ms] of a cache hit *)
  ms_computed : Q   (* [pipeline_time_ms] of a computed result *)
}.

(** What steps 3 to 5 of the [try] block deliver: the [to_full()]
    dictionary with its [collection_metadata], [is_registered] and the
    number of collectors run. *)
Record Scored := {
  sc_result : gmap string json;
  sc_is_registered : bool;
  sc_collectors_run : Z
}.

Section WithEnv.

Variable sha256_hex : string -> string.
Variables TTL_REGISTERED TTL_UNREGISTERED TTL_FAILED TTL_PREVIEW : Z.

Local Abbreviation cache_get := (Cache.get sha256_hex).
Local Abbreviation cache_set :=
  (Cache.set sha256_hex TTL_REGISTERED TTL_UNREGISTERED TTL_FAILED TTL_PREVIEW).
Local Abbreviation cache_acquire_lock := (Cache.acquire_lock sha256_hex).
Local Abbreviation cache_release_lock := (Cache.release_lock sha256_hex).

(** [compute_trust_score].  [body] is the outcome of steps 3 to 5 (registry
    lookup, collection, scoring) and [fallback] is
    [calculate_trust_score(...).to_full()] of the [except] branch, the v2
    engine's dictionary for an entity without signals, which is taken to
    be computed without raising. *)
Definition compute_trust_score (c : Cache.ScoreCache) (r : Cache.Redis) (tm : Times)
    (target : string) (force_refresh is_preview : bool)
    (body : Res Scored) (fallback : gmap string json)
    : Cache.ScoreCache * Cache.Redis * Res (gmap string json) :=
  (* Step 1: check cache *)
  let '(c, r, cached) :=
    if negb force_refresh then cache_get c r (t_check tm) target else (c, r, None) in
  match cached with
  | Some cached =>
      (c, r, Ok (<["_pipeline" := JObj [("source", JStr "cache");
                                         ("pipeline_time_ms", JFloat (ms_hit tm))]]> cached))
  | None =>
      (* Step 2: acquire lock *)
      let '(c, r, lock_acquired) := cache_acquire_lock c r (t_check tm) target in
      let '(c, r, cached) :=
        if negb lock_acquired then cache_get c r (t_recheck tm) target
        else (c, r, None) in
      match cached with
      | Some cached =>
          (c, r, Ok (<["_pipeline" := JObj [("source", JStr "cache_after_lock_wait")]]> cached))
      | None =>
          let '(c, r, ret) :=
            match body with
            | Ok sc =>
                (* Step 6: cache; then the [_pipeline] entry *)
                let '(c, r, result, _) :=
                  cache_set c r (t_store tm) target (sc_result sc)
                            (sc_is_registered sc) is_preview false in
                (c, r,
                 Ok (<["_pipeline" :=
                         JObj [("source", JStr "computed");
                               ("pipeline_time_ms", JFloat (ms_computed tm));
                               ("is_registered", JBool (sc_is_registered sc));
                               ("collectors_run", JInt (sc_collectors_run sc))]]> result))
            | Raise e =>
                (* except Exception as e *)
                let result :=
                  <["_pipeline" := JObj [("source", JStr "fallback");
                                         ("error", JStr e)]]> fallback in
                let '(c, r, result, _) :=
                  cache_set c r (t_store tm) target result false false true in
                (c, r, Ok result)
            end in
          (* finally *)
          let '(c, r) := cache_release_lock c r target in
          (c, r, ret)
      end
  end.

End WithEnv.

End Pipeline.

(* ===================================================================== *)
(** * app/compute/pipeline_v3.py                                          *)
(* ===================================================================== *)

Module PipelineV3.

(** [round(x, 2)], to the nearest hundredth, ties to even. *)
Definition py_round2 (x : Q) : Q :=
  let scaled := (x * 100)%Q in
  let fl := Qfloor scaled in
  let frac := (scaled - inject_Z fl)%Q in
  let n :=
    if Qlt_bool frac (1 # 2) then fl
    else if Qlt_bool (1 # 2) frac then fl + 1
    else if Z.even fl then fl else fl + 1 in
  (inject_Z n / 100)%Q.

Definition grade_value (g : Engine.TrustGrade) : string :=
  match g with
  | Engine.AAA => "AAA" | Engine.AA => "AA" | Engine.A => "A"
  | Engine.BBB => "BBB" | Engine.BB => "BB" | Engine.B => "B"
  | Engine.CCC => "CCC" | Engine.D => "D"
  end.

Definition recommendation_value (x : Engine.Recommendation) : string :=
  match x with
  | Engine.PROCEED => "PROCEED"
  | Engine.PROCEED_WITH_CAUTION => "PROCEED_WITH_CAUTION"
  | Engine.MANUAL_REVIEW => "MANUAL_REVIEW"
  | Engine.ENHANCED_DUE_DILIGENCE => "ENHANCED_DUE_DILIGENCE"
  | Engine.REJECT => "REJECT"
  end.

Definition breakdown_json (bd : Engine.Breakdown) : json :=
  JObj (map (fun kv => (fst kv, JInt (snd kv))) bd).

Definition option_str_json (o : option string) : json :=
  match o with
  | Some s => JStr s
  | None => JNull
  end.

(** [TrustScoreResult.to_full()]. *)
Definition to_full (x : Engine.TrustScoreResult) : gmap string json :=
  list_to_map
    [ ("target", JStr (Engine.res_target x));
      ("score", JInt (Engine.res_score x));
      ("grade", JStr (grade_value (Engine.res_grade x)));
      ("recommendation", JStr (recommendation_value (Engine.res_recommendation x)));
      ("confidence", JFloat (py_round2 (Engine.res_confidence x)));
      ("confidence_label", JStr (Engine.res_confidence_label x));
      ("existence_age_score", JInt (Engine.res_existence_age x));
      ("security_integrity_score", JInt (Engine.res_security_integrity x));
      ("reputation_scale_score", JInt (Engine.res_reputation_scale x));
      ("operational_maturity_score", JInt (Engine.res_operational_maturity x));
      ("category_caps",
         JObj [("existence_age", JInt Engine._EA_CAP);
               ("security_integrity", JInt Engine._SI_CAP);
               ("reputation_scale", JInt Engine._RS_CAP);
               ("operational_maturity", JInt Engine._OM_CAP)]);
      ("breakdown",
         JObj (map (fun kb => (fst kb, breakdown_json (snd kb)))
                   (Engine.res_breakdown x)));
      ("sources_used", JInt (Engine.res_sources_used x));
      ("sources_total", JInt (Engine.res_sources_total x));
      ("cap_applied", option_str_json (Engine.res_cap_applied x));
      ("is_verified", JBool (Engine.res_score x >=? 650));
      ("is_registered", JBool false);
      ("engine_version", JStr (Engine.res_engine_version x)) ].

Definition str_list_json (l : list string) : json := JList (map JStr l).

(** The dictionary of the [except] branch of [score_entity]. *)
Definition minimal_safe_response (target e : string) : gmap string json :=
  list_to_map
    [ ("target", JStr target);
      ("score", JInt 0);
      ("grade", JStr "D");
      ("recommendation", JStr "REJECT");
      ("confidence", JFloat 0);
      ("confidence_label", JStr "error");
      ("is_verified", JBool false);
      ("is_registered", JBool false);
      ("engine_version", JStr "3.0.0");
      ("error", JStr e) ].

Section WithEnv.

Variable sha256_hex : string -> string.
Variables TTL_REGISTERED TTL_UNREGISTERED TTL_FAILED TTL_PREVIEW : Z.

Local Abbreviation cache_get := (Cache.get sha256_hex).
Local Abbreviation cache_set :=
  (Cache.set sha256_hex TTL_REGISTERED TTL_UNREGISTERED TTL_FAILED TTL_PREVIEW).
Local Abbreviation cache_acquire_lock := (Cache.acquire_lock sha256_hex).
Local Abbreviation cache_release_lock := (Cache.release_lock sha256_hex).

(** [score_entity].  [observed] is the outcome of
    [await observe_entity(target)]. *)
Definition score_entity (c : Cache.ScoreCache) (r : Cache.Redis) (tm : Pipeline.Times)
    (target : string) (force_refresh : bool) (observed : Res Engine.RawSignals)
    : Cache.ScoreCache * Cache.Redis * Res (gmap string json) :=
  (* Cache check *)
  let '(c, r, cached) :=
    if negb force_refresh then cache_get c r (Pipeline.t_check tm) target
    else (c, r, None) in
  match cached with
  | Some cached => (c, r, Ok (<["_source" := JStr "cache"]> cached))
  | None =>
      (* Lock to prevent duplicate computation *)
      let '(c, r, lock) := cache_acquire_lock c r (Pipeline.t_check tm) target in
      let '(c, r, cached) :=
        if negb lock then cache_get c r (Pipeline.t_recheck tm) target
        else (c, r, None) in
      match cached with
      | Some cached => (c, r, Ok cached)
      | None =>
          let '(c, r, ret) :=
            match observed with
            | Ok signals_ =>
                let result := Engine.compute_score signals_ in
                let response := to_full result in
                let response := <["_source" := JStr "computed"]> response in
                let response :=
                  <["collection_time_ms" := JFloat (Engine.collection_time_ms signals_)]>
                    response in
                let response :=
                  <["sources_queried" := str_list_json (Engine.sources_queried signals_)]>
                    response in
                let response :=
                  <["sources_responded" := str_list_json (Engine.sources_responded signals_)]>
                    response in
                let response :=
                  <["collection_errors" := str_list_json (Engine.collection_errors signals_)]>
                    response in
                let '(c, r, response, _) :=
                  cache_set c r (Pipeline.t_store tm) target response false false false in
                (c, r, Ok response)
            | Raise e =>
                (* except Exception as e *)
                (c, r, Ok (minimal_safe_response target e))
            end in
          (* finally *)
          let '(c, r) := cache_release_lock c r target in
          (c, r, ret)
      end
  end.

End WithEnv.

End PipelineV3.

(* ===================================================================== *)
(** * Concrete inputs                                                     *)
(* ===================================================================== *)

Module Examples.
Import Engine.

(** The nine sensor names [observe_entity] lists for a target with a
    domain. *)
Definition nine_sources : list string :=
  map TrustChain.Sensor_value (Sensors.launched "example-safe.com").

(** The scenario of the specification: [domain_age_days = 4000],
    [ssl_valid], [dns_has_spf], [dns_has_dmarc], [tranco_rank = 500],
    [vt_malicious_count = 0], nine sources queried and responded, every
    other field at its default. *)
Definition example_safe : RawSignals := {|
  target := "example-safe.com";
  domain_age_days := 4000; whois_org := ""; whois_registrar := "";
  domain_expiry_years_ahead := 0%Q;
  ssl_valid := true; ssl_cert_type := ""; ssl_org := "";
  first_cert_days_ago := 0; total_certs_issued := 0; cert_issuer := "";
  vt_malicious_count := 0; vt_suspicious_count := 0; vt_clean_count := 0;
  vt_community_score := 0; vt_categories := []; vt_queried := false;
  gsb_flagged := false; gsb_queried := false;
  dns_has_spf := true; dns_has_dmarc := true; dns_has_dkim := false;
  dns_has_dnssec := false; dns_has_mx := false;
  http_has_hsts := false; http_has_csp := false; http_has_xframe := false;
  http_has_xcontent_type := false; http_has_referrer_policy := false;
  http_has_permissions_policy := false; http_status := 0;
  has_wikipedia := false; has_wikidata := false; has_crunchbase := false;
  wikidata_employee_count := 0; wikidata_founding_year := 0;
  wikidata_industry := "";
  social_twitter := false; social_linkedin := false; social_github := false;
  social_facebook := false; social_youtube := false;
  social_instagram := false; social_count := 0;
  tranco_rank := 500;
  has_structured_data := false; has_org_schema := false;
  has_status_page := false; has_api_docs := false; has_changelog := false;
  has_security_txt := false; has_robots_txt := false;
  on_spam_blocklist := false; on_fraud_blocklist := false;
  on_sanctions_list := false;
  sources_queried := nine_sources; sources_responded := nine_sources;
  collection_errors := [];
  collection_time_ms := 0%Q
|}.

(** A five-day-old domain outside the Tranco list that Safe Browsing
    flags; every other field at its default. *)
Definition flagged_newcomer : RawSignals := {|
  target := "fresh-and-flagged.example";
  domain_age_days := 5; whois_org := ""; whois_registrar := "";
  domain_expiry_years_ahead := 0%Q;
  ssl_valid := false; ssl_cert_type := ""; ssl_org := "";
  first_cert_days_ago := 0; total_certs_issued := 0; cert_issuer := "";
  vt_malicious_count := 0; vt_suspicious_count := 0; vt_clean_count := 0;
  vt_community_score := 0; vt_categories := []; vt_queried := false;
  gsb_flagged := true; gsb_queried := true;
  dns_has_spf := false; dns_has_dmarc := false; dns_has_dkim := false;
  dns_has_dnssec := false; dns_has_mx := false;
  http_has_hsts := false; http_has_csp := false; http_has_xframe := false;
  http_has_xcontent_type := false; http_has_referrer_policy := false;
  http_has_permissions_policy := false; http_status := 0;
  has_wikipedia := false; has_wikidata := false; has_crunchbase := false;
  wikidata_employee_count := 0; wikidata_founding_year := 0;
  wikidata_industry := "";
  social_twitter := false; social_linkedin := false; social_github := false;
  social_facebook := false; social_youtube := false;
  social_instagram := false; social_count := 0;
  tranco_rank := 0;
  has_structured_data := false; has_org_schema := false;
  has_status_page := false; has_api_docs := false; has_changelog := false;
  has_security_txt := false; has_robots_txt := false;
  on_spam_blocklist := false; on_fraud_blocklist := false;
  on_sanctions_list := false;
  sources_queried := []; sources_responded := []; collection_errors := [];
  collection_time_ms := 0%Q
|}.

(** Every sensor answers with an empty mapping after 12 ms. *)
Definition all_answer (s : TrustChain.Sensor) : Sensors.CollectorOutcome * Q :=
  (Sensors.Returned ∅, 12%Q).

(** Every sensor times out. *)
Definition all_time_out (s : TrustChain.Sensor) : Sensors.CollectorOutcome * Q :=
  (Sensors.TimedOut, 15000%Q).

(** What [observe_entity] returns for the target ["ab"]: [parse_target]
    finds no dot and a slug of two characters, so [domain] is empty and
    only the knowledge-graph and social sensors are launched. *)
Definition name_only : RawSignals :=
  Sensors.observe_entity (RawSignals_default "ab") "" all_answer.

End Examples.

(* ===================================================================== *)
(** * The scoring engine: properties                                      *)
(* ===================================================================== *)

Module EngineSpec.
Import Engine.

(** The hard-cap rules in the order [apply_hard_caps] tests them: guard,
    ceiling, reason. *)
Definition hard_cap_rules (s : RawSignals) : list (bool * (Z * string)) :=
  [ (cond_sanctioned s, (0, "SANCTIONED"));
    (cond_fraud s, (50, "FRAUD_BLOCKLISTED"));
    (cond_gsb s, (150, "GOOGLE_SAFE_BROWSING_FLAGGED"));
    (cond_vt_high s, (200, "VIRUSTOTAL_HIGH_FLAGS"));
    (cond_new_domain s, (100, "NEW_DOMAIN_NO_REPUTATION")) ].

(** The rules whose guard holds, still in that order. *)
Definition applicable_caps (s : RawSignals) : list (Z * string) :=
  map snd (List.filter fst (hard_cap_rules s)).

Lemma clamp_bounds (raw cap : Z) : 0 <= cap -> 0 <= clamp raw cap <= cap.
Proof. unfold clamp. lia. Qed.

Lemma existence_and_age_clamped (s : RawSignals) :
  exists raw, fst (score_existence_and_age s) = clamp raw _EA_CAP.
Proof. unfold score_existence_and_age. cbv zeta. eexists. reflexivity. Qed.

Lemma security_and_integrity_clamped (s : RawSignals) :
  exists raw, fst (score_security_and_integrity s) = clamp raw _SI_CAP.
Proof. unfold score_security_and_integrity. cbv zeta. eexists. reflexivity. Qed.

Lemma reputation_and_scale_clamped (s : RawSignals) :
  exists raw, fst (score_reputation_and_scale s) = clamp raw _RS_CAP.
Proof. unfold score_reputation_and_scale. cbv zeta. eexists. reflexivity. Qed.

Lemma operational_maturity_clamped (s : RawSignals) :
  exists raw, fst (score_operational_maturity s) = clamp raw _OM_CAP.
Proof. unfold score_operational_maturity. cbv zeta. eexists. reflexivity. Qed.

(** [compute_score] field by field. *)
Lemma compute_score_fields (s : RawSignals) :
  let r := compute_score s in
  res_existence_age r = fst (score_existence_and_age s) /\
  res_security_integrity r = fst (score_security_and_integrity s) /\
  res_reputation_scale r = fst (score_reputation_and_scale s) /\
  res_operational_maturity r = fst (score_operational_maturity s) /\
  (res_score r, res_cap_applied r) = apply_hard_caps (raw_score s) s /\
  res_grade r = grade_of (res_score r) /\
  res_recommendation r = recommendation_of (res_score r) /\
  res_confidence r
  = (inject_Z (Z.of_nat (length (sources_responded s))) / inject_Z 9)%Q.
Proof.
  unfold compute_score, raw_score.
  destruct (score_existence_and_age s) as [ea ea_bd].
  destruct (score_security_and_integrity s) as [si si_bd].
  destruct (score_reputation_and_scale s) as [rs rs_bd].
  destruct (score_operational_maturity s) as [om om_bd].
  cbn [fst].
  destruct (apply_hard_caps (ea + si + rs + om) s) as [final cap].
  cbn. repeat split.
Qed.

(** C2.  Each of the four category functions returns a sub-score within
    [0, cap] for its declared cap (300, 300, 250, 150), these are the
    sub-scores [compute_score] reports, and the score it hands to
    [apply_hard_caps], the composite before overrides, is their sum. *)
Theorem category_scores_clamped_and_summed (s : RawSignals) :
  let r := compute_score s in
  0 <= fst (score_existence_and_age s) <= 300 /\
  0 <= fst (score_security_and_integrity s) <= 300 /\
  0 <= fst (score_reputation_and_scale s) <= 250 /\
  0 <= fst (score_operational_maturity s) <= 150 /\
  raw_score s
  = res_existence_age r + res_security_integrity r
    + res_reputation_scale r + res_operational_maturity r /\
  (res_score r, res_cap_applied r) = apply_hard_caps (raw_score s) s.
Proof.
  intros r.
  destruct (compute_score_fields s) as (Hea & Hsi & Hrs & Hom & Hcap & _).
  fold r in Hea, Hsi, Hrs, Hom, Hcap.
  destruct (existence_and_age_clamped s) as [r1 H1].
  destruct (security_and_integrity_clamped s) as [r2 H2].
  destruct (reputation_and_scale_clamped s) as [r3 H3].
  destruct (operational_maturity_clamped s) as [r4 H4].
  repeat split.
  1-2: rewrite H1; apply clamp_bounds; unfold _EA_CAP; lia.
  1-2: rewrite H2; apply clamp_bounds; unfold _SI_CAP; lia.
  1-2: rewrite H3; apply clamp_bounds; unfold _RS_CAP; lia.
  1-2: rewrite H4; apply clamp_bounds; unfold _OM_CAP; lia.
  - rewrite Hea, Hsi, Hrs, Hom. reflexivity.
  - exact Hcap.
Qed.

(** With no hard-cap guard holding, the final score is that sum. *)
Lemma uncapped_score_is_sum (s : RawSignals) :
  applicable_caps s = [] ->
  res_score (compute_score s) = raw_score s /\
  res_cap_applied (compute_score s) = None.
Proof.
  intros Hnone.
  destruct (compute_score_fields s) as (_ & _ & _ & _ & Hcap & _).
  assert (apply_hard_caps (raw_score s) s = (raw_score s, None)) as Hno.
  { revert Hnone. unfold applicable_caps, hard_cap_rules, apply_hard_caps.
    destruct (cond_sanctioned s), (cond_fraud s), (cond_gsb s),
      (cond_vt_high s), (cond_new_domain s); cbn; congruence. }
  rewrite Hno in Hcap. split; congruence.
Qed.

(** The claim that the reported cap is the lowest applicable one fails
    for [flagged_newcomer] at a pre-override score of 300: the Safe
    Browsing rule and the new-domain rule both apply, the result is 150
    with the Safe Browsing reason, and the new-domain ceiling of 100 would
    have been lower. *)
Lemma hard_caps_not_lowest_counterexample :
  In (150, "GOOGLE_SAFE_BROWSING_FLAGGED") (applicable_caps Examples.flagged_newcomer) /\
  In (100, "NEW_DOMAIN_NO_REPUTATION") (applicable_caps Examples.flagged_newcomer) /\
  apply_hard_caps 300 Examples.flagged_newcomer
  = (150, Some "GOOGLE_SAFE_BROWSING_FLAGGED") /\
  ~ (fst (apply_hard_caps 300 Examples.flagged_newcomer) <= Z.min 300 100).
Proof.
  repeat split.
  - cbn. tauto.
  - cbn. tauto.
  - cbn. lia.
Qed.

(** C3, amended.  For a non-negative pre-override score, [apply_hard_caps]
    never returns more than its input; what it reports is the first rule,
    in the fixed order sanctions (0), fraud blocklist (50), Safe Browsing
    (150), VirusTotal high flags (200), new domain without reputation
    (100), whose guard holds, with the score cut to that rule's ceiling;
    and unless the new-domain rule holds together with the Safe Browsing
    or the VirusTotal rule while neither sanctions nor fraud applies, that
    ceiling is the lowest among all applicable rules. *)
Theorem hard_caps_first_match (score : Z) (s : RawSignals) (Hscore : 0 <= score) :
  fst (apply_hard_caps score s) <= score /\
  apply_hard_caps score s
  = match applicable_caps s with
    | [] => (score, None)
    | (ceiling, reason) :: _ => (Z.min score ceiling, Some reason)
    end /\
  (cond_new_domain s = false \/ cond_sanctioned s = true \/ cond_fraud s = true
   \/ (cond_gsb s = false /\ cond_vt_high s = false) ->
   forall ceiling reason,
     In (ceiling, reason) (applicable_caps s) ->
     fst (apply_hard_caps score s) <= Z.min score ceiling).
Proof.
  unfold applicable_caps, hard_cap_rules, apply_hard_caps.
  destruct (cond_sanctioned s), (cond_fraud s), (cond_gsb s),
    (cond_vt_high s), (cond_new_domain s); cbn [List.filter fst snd map];
    (split; [cbn; lia | split; [cbn; f_equal; lia | ]]);
    intros Hmono ceiling reason Hin; cbn in Hin |- *;
    repeat (destruct Hin as [Hin | Hin]; [inversion Hin; subst; lia | ]);
    try contradiction;
    exfalso; intuition congruence.
Qed.

(** The amended C3 at a score of 300 for [flagged_newcomer]. *)
Lemma hard_caps_first_match_witness :
  0 <= 300 /\
  fst (apply_hard_caps 300 Examples.flagged_newcomer) <= 300 /\
  apply_hard_caps 300 Examples.flagged_newcomer
  = (150, Some "GOOGLE_SAFE_BROWSING_FLAGGED").
Proof.
  assert (0 <= 300) as H by lia.
  split; [exact H | ].
  destruct (hard_caps_first_match 300 Examples.flagged_newcomer H) as (Hle & Hfirst & _).
  split; [exact Hle | ].
  rewrite Hfirst. reflexivity.
Defined.

(** The scenario of the specification does not reach the A band: the
    composite is 230, below 650. *)
Lemma example_safe_counterexample :
  ~ (650 <= res_score (compute_score Examples.example_safe)) /\
  res_recommendation (compute_score Examples.example_safe) <> PROCEED.
Proof.
  split.
  - vm_compute. intros H. apply H. reflexivity.
  - vm_compute. discriminate.
Qed.

(** C4, amended.  For the scenario of the specification [compute_score]
    returns confidence 1, no hard cap, existence and age 95, security and
    integrity 55, reputation and scale 80, operational maturity 0, hence a
    composite of 230, grade CCC and recommendation ENHANCED_DUE_DILIGENCE. *)
Theorem example_safe_scores_230 :
  let r := compute_score Examples.example_safe in
  (res_confidence r == 1)%Q /\
  res_confidence_label r = "high" /\
  res_cap_applied r = None /\
  res_existence_age r = 95 /\
  res_security_integrity r = 55 /\
  res_reputation_scale r = 80 /\
  res_operational_maturity r = 0 /\
  res_score r = 230 /\
  res_grade r = CCC /\
  res_recommendation r = ENHANCED_DUE_DILIGENCE.
Proof. vm_compute. repeat split. Qed.

(** A run of the result loop over tuples lists every key as responded. *)
Lemma process_results_all_tuples (f : TrustChain.Sensor -> string * gmap string json * Q)
    (keys : list TrustChain.Sensor) (acc : Sensors.Collected) :
  Sensors.c_responded
    (Sensors.process_results keys (map (fun k => Sensors.ItemTuple (f k)) keys) acc)
  = (Sensors.c_responded acc ++ map TrustChain.Sensor_value keys)%list.
Proof.
  revert acc. induction keys as [| k keys IH]; intros acc; cbn.
  - rewrite app_nil_r. reflexivity.
  - destruct (f k) as [[n sg] el]. rewrite IH. cbn.
    rewrite <- app_assoc. reflexivity.
Qed.

(** [observe_entity] lists as responded exactly the sensors it launched,
    whatever they did, and these are nine or two. *)
Lemma observe_entity_sources (mapped : RawSignals) (domain : string)
    (run : TrustChain.Sensor -> Sensors.CollectorOutcome * Q) :
  let s := Sensors.observe_entity mapped domain run in
  sources_responded s = sources_queried s /\
  (length (sources_queried s) = 9%nat \/ length (sources_queried s) = 2%nat).
Proof.
  cbn. split.
  - rewrite (process_results_all_tuples
               (fun k => Sensors._timed_collect (TrustChain.Sensor_value k)
                           (fst (run k)) (snd (run k)))).
    reflexivity.
  - unfold Sensors.launched. destruct (str_truthy domain); cbn; auto.
Qed.

(** A sensor that timed out is listed as having responded. *)
Lemma timed_out_sensor_listed_as_responded :
  sources_responded
    (Sensors.observe_entity (RawSignals_default "ab") "" Examples.all_time_out)
  = ["knowledge_graph"; "social"].
Proof. reflexivity. Qed.

Lemma confidence_value (s : RawSignals) :
  (res_confidence (compute_score s)
   == Z.of_nat (length (sources_responded s)) # 9)%Q.
Proof.
  destruct (compute_score_fields s) as (_ & _ & _ & _ & _ & _ & _ & Hc).
  rewrite Hc. unfold Qdiv, Qmult, Qinv, inject_Z, Qeq. cbn. lia.
Qed.

(** The confidence of [name_only] is two ninths although both sources
    queried responded. *)
Lemma confidence_counterexample :
  length (sources_queried Examples.name_only) = 2%nat /\
  length (sources_responded Examples.name_only) = 2%nat /\
  ~ (res_confidence (compute_score Examples.name_only)
     == inject_Z (Z.of_nat (length (sources_responded Examples.name_only)))
        / inject_Z (Z.of_nat (length (sources_queried Examples.name_only))))%Q.
Proof.
  split; [reflexivity | split; [reflexivity | ]].
  vm_compute. discriminate.
Qed.

(** C1, amended.  The confidence [compute_score] returns is the number of
    sources listed as responded divided by the constant nine, whatever
    number of sources was queried; it is never negative, and for the
    signals [observe_entity] returns, where at most nine sensors are
    launched, it is at most one. *)
Theorem confidence_is_responded_over_nine :
  (forall s : RawSignals,
     (res_confidence (compute_score s)
      == Z.of_nat (length (sources_responded s)) # 9)%Q /\
     (0 <= res_confidence (compute_score s))%Q /\
     res_sources_total (compute_score s) = 9) /\
  (forall (mapped : RawSignals) (domain : string)
          (run : TrustChain.Sensor -> Sensors.CollectorOutcome * Q),
     (res_confidence (compute_score (Sensors.observe_entity mapped domain run)) <= 1)%Q).
Proof.
  split.
  - intros s. split; [apply confidence_value | split].
    + rewrite confidence_value. unfold Qle. cbn. lia.
    + unfold compute_score.
      destruct (score_existence_and_age s), (score_security_and_integrity s),
        (score_reputation_and_scale s), (score_operational_maturity s).
      destruct (apply_hard_caps _ s). reflexivity.
  - intros mapped domain run.
    rewrite confidence_value.
    destruct (observe_entity_sources mapped domain run) as [Heq Hlen].
    cbv zeta in Heq, Hlen. rewrite Heq.
    unfold Qle. cbn [Qnum Qden].
    destruct Hlen as [-> | ->]; cbn; lia.
Qed.

End EngineSpec.

(* ===================================================================== *)
(** * A collision-free stand-in for SHA-256                               *)
(* ===================================================================== *)

Module ModelDigest.
Import TrustChain.

(** Induction over [json] with the hypotheses for the nested values. *)
Section JsonInduction.
Variable P : json -> Prop.
Hypothesis HNull : P JNull.
Hypothesis HBool : forall b, P (JBool b).
Hypothesis HInt : forall n, P (JInt n).
Hypothesis HFloat : forall q, P (JFloat q).
Hypothesis HStr : forall s, P (JStr s).
Hypothesis HList : forall l, Forall P l -> P (JList l).
Hypothesis HObj : forall ms, Forall (fun kv => P (snd kv)) ms -> P (JObj ms).

Fixpoint json_ind (j : json) : P j :=
  match j with
  | JNull => HNull
  | JBool b => HBool b
  | JInt n => HInt n
  | JFloat q => HFloat q
  | JStr s => HStr s
  | JList l =>
      HList l
        ((fix go (l : list json) : Forall P l :=
            match l with
            | [] => List.Forall_nil P
            | x :: l' => @List.Forall_cons _ P x l' (json_ind x) (go l')
            end) l)
  | JObj ms =>
      HObj ms
        ((fix go (ms : list (string * json)) : Forall (fun kv => P (snd kv)) ms :=
            match ms with
            | [] => List.Forall_nil _
            | kv :: ms' =>
                @List.Forall_cons _ (fun kv => P (snd kv)) kv ms'
                  (match kv as kv0 return P (snd kv0) with
                   | (k, v) => json_ind v
                   end)
                  (go ms')
            end) ms)
  end.
End JsonInduction.

Definition json_leaf : Type := (bool + Z + (Z * positive) + string)%type.

Fixpoint json_enc (j : json) : gen_tree json_leaf :=
  match j with
  | JNull => GenNode 0 []
  | JBool b => GenLeaf (inl (inl (inl b)))
  | JInt n => GenLeaf (inl (inl (inr n)))
  | JFloat q => GenLeaf (inl (inr (Qnum q, Qden q)))
  | JStr s => GenLeaf (inr s)
  | JList l => GenNode 1 (map json_enc l)
  | JObj ms =>
      GenNode 2 (map (fun kv => match kv with
                                | (k, v) => GenNode 3 [GenLeaf (inr k); json_enc v]
                                end) ms)
  end.

Fixpoint json_dec (t : gen_tree json_leaf) : json :=
  match t with
  | GenLeaf (inl (inl (inl b))) => JBool b
  | GenLeaf (inl (inl (inr n))) => JInt n
  | GenLeaf (inl (inr (n, d))) => JFloat (n # d)
  | GenLeaf (inr s) => JStr s
  | GenNode 1 l => JList (map json_dec l)
  | GenNode 2 l =>
      JObj (map (fun t' => match t' with
                           | GenNode 3 [GenLeaf (inr k); v] => (k, json_dec v)
                           | _ => ("", JNull)
                           end) l)
  | GenNode _ _ => JNull
  end.

Lemma json_dec_enc (j : json) : json_dec (json_enc j) = j.
Proof.
  induction j as [| b | n | q | s | l IH | ms IH] using json_ind; cbn; try reflexivity.
  - destruct q; reflexivity.
  - f_equal. induction IH as [| x l Hx _ IHl]; cbn; [reflexivity | ].
    rewrite Hx, IHl. reflexivity.
  - f_equal. induction IH as [| [k v] ms Hv _ IHms]; cbn; [reflexivity | ].
    cbn in Hv. rewrite Hv, IHms. reflexivity.
Qed.

#[export] Instance json_enc_inj : Inj (=) (=) json_enc.
Proof.
  intros x y H. rewrite <- (json_dec_enc x), <- (json_dec_enc y), H. reflexivity.
Qed.

#[export] Instance json_eq_dec : EqDecision json.
Proof.
  intros x y. destruct (decide (json_enc x = json_enc y)) as [H | H].
  - left. apply (inj json_enc), H.
  - right. intros ->. apply H. reflexivity.
Defined.

#[export] Instance json_countable : Countable json :=
  inj_countable' json_enc json_dec json_dec_enc.

Definition content_tuple (c : HashedContent)
    : string * string * Z * string * gmap string json * string :=
  (hc_entity_id c, hc_sensor c, hc_block_index c, hc_observed_at c,
   hc_signals c, hc_prev_hash c).

(** The stand-in: ["h"] followed by the decimal code of the six fields. *)
Definition model_digest (c : HashedContent) : string :=
  String "h" (pretty (encode (content_tuple c))).

Lemma content_tuple_inj (c c' : HashedContent) :
  content_tuple c = content_tuple c' -> c = c'.
Proof. destruct c, c'. unfold content_tuple. cbn. intros [= -> -> -> -> -> ->]. reflexivity. Qed.

Lemma model_digest_inj (c c' : HashedContent) :
  model_digest c = model_digest c' -> c = c'.
Proof.
  unfold model_digest. intros [= H].
  apply content_tuple_inj. apply (inj encode). apply (inj pretty). exact H.
Qed.

Lemma model_digest_not_genesis (c : HashedContent) : model_digest c <> GENESIS_HASH.
Proof. unfold model_digest, GENESIS_HASH. discriminate. Qed.

End ModelDigest.

(* ===================================================================== *)
(** * A concrete ledger run                                               *)
(* ===================================================================== *)

Module ChainExamples.
Import TrustChain.

(** Stand-in for [compute_delta]; the runs below never reach it, since no
    sensor observes the same entity twice. *)
Definition delta_unused (old new : gmap string json) : gmap string json := ∅.

Definition node : string := "node-0".

Definition clock_a : Clock :=
  {| iso := "2026-01-05T10:00:00+00:00"; unix := 1767607200 |}.
Definition clock_b : Clock :=
  {| iso := "2026-01-05T10:00:01+00:00"; unix := 1767607201 |}.

(** The DNS sensor, then the WHOIS sensor, observe example.com. *)
Definition op_dns : CreateOp :=
  {| op_entity := "example.com"; op_sensor := "dns";
     op_signals := {[ "dns_has_spf" := JBool true ]};
     op_time_ms := 42; op_now := clock_a |}.

Definition op_whois : CreateOp :=
  {| op_entity := "example.com"; op_sensor := "whois";
     op_signals := {[ "domain_age_days" := JInt 4000 ]};
     op_time_ms := 310; op_now := clock_b |}.

(** The payload a tamperer writes over the DNS observation. *)
Definition forged : gmap string json := {[ "dns_has_spf" := JBool false ]}.

(** The clock [verify_chain] reads, were it to need one. *)
Definition verify_clock (i : nat) : Clock := clock_b.

Definition create := create_block ModelDigest.model_digest delta_unused node.
Definition run := run_creates ModelDigest.model_digest delta_unused node.

(** The first block, the store holding only it, and the store after both
    observations. *)
Definition block_dns : Block := snd (create empty_store op_dns).
Definition store_one : Store := fst (create empty_store op_dns).
Definition store_two : Store := fst (run empty_store [op_dns; op_whois]).

End ChainExamples.

(* ===================================================================== *)
(** * The TrustChain: properties                                          *)
(* ===================================================================== *)

Module ChainSpec.
Import TrustChain.
Local Open Scope list_scope.

(** Two stored blocks that [compute_hash] and [verify_chain] cannot tell
    apart: the six hashed fields and the stored hash agree. *)
Definition same (b b' : Block) : Prop :=
  hashed_content b = hashed_content b' /\ block_hash b = block_hash b'.

(** The stored block under [block:{h}] is rewritten by [f]. *)
Definition rewrite_block (f : Block -> Block) (h : string) (st : Store) : Store :=
  {| heads := heads st; latest := latest st;
     blocks := alter f h (blocks st);
     block_lists := block_lists st; entities := entities st |}.

(** The five fields outside the hash are overwritten. *)
Definition set_unhashed (d : gmap string json) (t : Q) (v n : string) (u : Q)
    (b : Block) : Block :=
  set_delta d (set_collection_time_ms t (set_sensor_version v
    (set_node_id n (set_observed_at_unix u b)))).

(** The first block of a chain has index 0 and the genesis hash as
    predecessor; every later block has the next index and the hash of the
    block before it. *)
Fixpoint indexed_from (n : Z) (prev : string) (c : list Block) : Prop :=
  match c with
  | [] => True
  | b :: rest =>
      prev_hash b = prev /\ block_index b = n /\
      indexed_from (n + 1) (block_hash b) rest
  end.

(** A chain read newest first, as the Redis list keeps it. *)
Inductive dchain : list Block -> Prop :=
  | dchain_nil : dchain []
  | dchain_one (b : Block) : dchain [b]
  | dchain_cons (b p : Block) (l : list Block) :
      prev_hash b = block_hash p ->
      block_index b = block_index p + 1 ->
      dchain (p :: l) ->
      dchain (b :: p :: l).

Definition head_of (b : Block) : Head :=
  {| head_hash := block_hash b; head_index := block_index b;
     head_updated_at := observed_at b |}.

Section Proofs.

Variable digest : HashedContent -> string.
Variable compute_delta : gmap string json -> gmap string json -> gmap string json.
Variable env_node_id : string.

Local Abbreviation compute_hash := (TrustChain.compute_hash digest).
Local Abbreviation __post_init__ := (TrustChain.__post_init__ digest env_node_id).
Local Abbreviation create_block :=
  (TrustChain.create_block digest compute_delta env_node_id).
Local Abbreviation run_creates :=
  (TrustChain.run_creates digest compute_delta env_node_id).
Local Abbreviation verify_loop := (TrustChain.verify_loop digest env_node_id).
Local Abbreviation verify_chain := (TrustChain.verify_chain digest env_node_id).

(** ** [__post_init__] and [compute_hash] *)

Lemma compute_hash_same_content (b b' : Block) :
  hashed_content b = hashed_content b' -> compute_hash b = compute_hash b'.
Proof. unfold TrustChain.compute_hash. intros ->. reflexivity. Qed.

Lemma post_init_content (now : Clock) (b : Block) :
  hashed_content (__post_init__ now b)
  = if str_truthy (observed_at b) then hashed_content b
    else hashed_content (set_observed (iso now) (unix now) b).
Proof.
  unfold TrustChain.__post_init__.
  destruct (str_truthy (observed_at b)); cbn [negb];
    repeat match goal with
           | |- context [if negb (str_truthy ?x) then _ else _] =>
               destruct (str_truthy x); cbn [negb]
           end; reflexivity.
Qed.

Lemma post_init_hash_same (now : Clock) (b b' : Block) :
  hashed_content b = hashed_content b' ->
  compute_hash (__post_init__ now b) = compute_hash (__post_init__ now b').
Proof.
  intros H. apply compute_hash_same_content. rewrite !post_init_content.
  assert (observed_at b = observed_at b') as Ho
    by exact (f_equal hc_observed_at H).
  rewrite Ho. destruct (str_truthy (observed_at b')); [exact H | ].
  unfold hashed_content in *. cbn.
  injection H as -> -> -> _ -> ->. reflexivity.
Qed.

Lemma post_init_sealed (now : Clock) (b : Block) :
  block_hash b = "" ->
  block_hash (__post_init__ now b) = compute_hash (__post_init__ now b).
Proof.
  intros Hb. unfold TrustChain.__post_init__.
  destruct (str_truthy (observed_at b)); cbn [negb];
    destruct (str_truthy (node_id _)); cbn [negb];
    cbn [block_hash set_observed set_node_id]; rewrite Hb; cbn;
    reflexivity.
Qed.

Lemma same_prev (b b' : Block) : same b b' -> prev_hash b = prev_hash b'.
Proof. intros [H _]. exact (f_equal hc_prev_hash H). Qed.

Lemma same_index (b b' : Block) : same b b' -> block_index b = block_index b'.
Proof. intros [H _]. exact (f_equal hc_block_index H). Qed.

Lemma same_observed (b b' : Block) : same b b' -> observed_at b = observed_at b'.
Proof. intros [H _]. exact (f_equal hc_observed_at H). Qed.

Lemma same_refl (b : Block) : same b b.
Proof. split; reflexivity. Qed.

Lemma same_set_unhashed d t v n u (b : Block) : same b (set_unhashed d t v n u b).
Proof. split; reflexivity. Qed.

(** ** The stable sort *)

Lemma insert_by_index_same (x x' : Block) (l l' : list Block) :
  same x x' -> Forall2 same l l' ->
  Forall2 same (insert_by_index x l) (insert_by_index x' l').
Proof.
  intros Hx Hl. induction Hl as [| y y' l l' Hy Hl IH]; cbn.
  - constructor; [exact Hx | constructor].
  - assert (block_index x = block_index x') as ->
      by exact (f_equal hc_block_index (proj1 Hx)).
    assert (block_index y = block_index y') as ->
      by exact (f_equal hc_block_index (proj1 Hy)).
    destruct (block_index x' <=? block_index y').
    + constructor; [exact Hx | constructor; assumption].
    + constructor; assumption.
Qed.

Lemma sort_by_index_same (l l' : list Block) :
  Forall2 same l l' -> Forall2 same (sort_by_index l) (sort_by_index l').
Proof.
  intros Hl. induction Hl as [| x x' l l' Hx Hl IH]; cbn.
  - constructor.
  - apply insert_by_index_same; assumption.
Qed.

Lemma insert_by_index_perm (x : Block) (l : list Block) :
  insert_by_index x l ≡ₚ x :: l.
Proof.
  induction l as [| y l IH]; cbn; [reflexivity | ].
  destruct (block_index x <=? block_index y); [reflexivity | ].
  rewrite IH. apply Permutation_swap.
Qed.

Lemma sort_by_index_perm (l : list Block) : sort_by_index l ≡ₚ l.
Proof.
  induction l as [| x l IH]; cbn; [reflexivity | ].
  rewrite insert_by_index_perm, IH. reflexivity.
Qed.

(** ** The verification loop *)

Lemma verify_loop_same (clock : nat -> Clock) (prev prev' : option Block)
    (i : nat) (l l' : list Block) :
  option_Forall2 same prev prev' -> Forall2 same l l' ->
  verify_loop clock prev i l = verify_loop clock prev' i l'.
Proof.
  intros Hp Hl. revert prev prev' i Hp.
  induction Hl as [| x x' l l' Hx Hl IH]; intros prev prev' i Hp; cbn.
  - reflexivity.
  - destruct Hx as [Hc Hh].
    rewrite (post_init_hash_same (clock i) x x' Hc), Hh.
    assert (block_index x = block_index x') as -> by exact (f_equal hc_block_index Hc).
    assert (prev_hash x = prev_hash x') as -> by exact (f_equal hc_prev_hash Hc).
    f_equal. f_equal.
    + destruct Hp as [p p' [_ Hph] | ]; [rewrite Hph | ]; reflexivity.
    + apply IH. constructor. split; assumption.
Qed.

Lemma verify_loop_app (clock : nat -> Clock) (prev : option Block) (i : nat)
    (l1 l2 : list Block) :
  verify_loop clock prev i (l1 ++ l2)
  = verify_loop clock prev i l1
    ++ verify_loop clock (from_option Some prev (last l1)) (i + length l1) l2.
Proof.
  revert prev i. induction l1 as [| x l1 IH]; intros prev i; cbn.
  - rewrite Nat.add_0_r. reflexivity.
  - rewrite IH, <- !app_assoc. f_equal. f_equal. f_equal.
    replace (i + S (length l1))%nat with (S i + length l1)%nat by lia.
    rewrite last_cons. destruct (last l1); reflexivity.
Qed.

Lemma verify_loop_reports (clock : nat -> Clock) (prev : option Block) (i : nat)
    (l : list Block) (x : Block) :
  x ∈ l ->
  (forall now, compute_hash (__post_init__ now x) <> block_hash x) ->
  exists expected,
    HashMismatch (block_index x) expected (block_hash x)
    ∈ verify_loop clock prev i l.
Proof.
  intros Hin Hne. revert prev i.
  induction l as [| y l IH]; intros prev i; [inversion Hin | ].
  apply elem_of_cons in Hin as [<- | Hin].
  - exists (compute_hash (__post_init__ (clock i) x)). cbn.
    destruct (String.eqb_spec (compute_hash (__post_init__ (clock i) x)) (block_hash x))
      as [Heq | _]; [destruct (Hne _ Heq) | ].
    cbn. apply elem_of_cons. left. reflexivity.
  - destruct (IH Hin (Some y) (S i)) as [expected He].
    exists expected. cbn. rewrite !elem_of_app. right. right. exact He.
Qed.

(** ** What [verify_chain] reads *)

Ltac lrange_cases :=
  unfold lrange; rewrite ?Z.gtb_ltb, ?Z.geb_leb;
  repeat match goal with
         | |- context [?a <? ?b] => destruct (Z.ltb_spec a b)
         | |- context [?a <=? ?b] => destruct (Z.leb_spec a b)
         end;
  cbn [orb]; change (Z.to_nat 0) with 0%nat; rewrite ?drop_0.

Lemma lrange_0_take {X : Type} (l : list X) (stop : Z) :
  exists k, lrange l 0 stop = take k l.
Proof.
  lrange_cases; try (exfalso; lia);
    solve [ exists 0%nat; rewrite take_0; reflexivity | eexists; reflexivity ].
Qed.

Lemma lrange_0_999 {X : Type} (l : list X) : lrange l 0 999 = take 1000 l.
Proof.
  lrange_cases; try (exfalso; lia).
  all: try (destruct l; [reflexivity | cbn in *; lia]).
  all: try (rewrite !take_ge by lia; reflexivity).
  all: try reflexivity.
Qed.

Lemma history_same (st st' : Store) (e : string) (limit : Z) :
  block_lists st' = block_lists st ->
  (forall h, option_Forall2 same (blocks st !! h) (blocks st' !! h)) ->
  Forall2 same (get_entity_history st e limit) (get_entity_history st' e limit).
Proof.
  intros Hl Hb. unfold get_entity_history. rewrite Hl.
  induction (lrange (default [] (block_lists st !! e)) 0 (limit - 1)) as [| h hs IH];
    cbn; [constructor | ].
  destruct (Hb h) as [b b' Hs | ]; cbn; [constructor; assumption | assumption].
Qed.

Lemma last_hash_same (l l' : list Block) :
  Forall2 same l l' -> block_hash <$> last l = block_hash <$> last l'.
Proof.
  intros Hl. induction Hl as [| y y' m m' Hy Hm IH]; [reflexivity | ].
  rewrite !last_cons.
  destruct (last m), (last m'); cbn in *; try congruence.
  f_equal. exact (proj2 Hy).
Qed.

Lemma verify_chain_same (clock : nat -> Clock) (st st' : Store) (e : string)
    (limit : Z) :
  block_lists st' = block_lists st ->
  (forall h, option_Forall2 same (blocks st !! h) (blocks st' !! h)) ->
  verify_chain clock st' e limit = verify_chain clock st e limit.
Proof.
  intros Hl Hb. unfold TrustChain.verify_chain.
  pose proof (history_same st st' e limit Hl Hb) as Hh.
  destruct Hh as [| x x' l l' Hx Hh]; [reflexivity | ].
  assert (Forall2 same (sort_by_index (x :: l)) (sort_by_index (x' :: l'))) as Hs
    by (apply sort_by_index_same; constructor; assumption).
  cbv zeta.
  rewrite (verify_loop_same clock None None 0 _ _ (None_Forall2 _) Hs).
  rewrite (Forall2_length _ _ _ Hs), (last_hash_same _ _ Hs).
  reflexivity.
Qed.

(** ** Blocks read newest first *)

Lemma dchain_tail (x : Block) (l : list Block) : dchain (x :: l) -> dchain l.
Proof. inversion 1; subst; [constructor | assumption]. Qed.

Lemma dchain_bound (x : Block) (l : list Block) :
  dchain (x :: l) -> Forall (fun y => block_index y < block_index x) l.
Proof.
  revert x. induction l as [| p l IH]; intros x Hd; [constructor | ].
  inversion Hd as [| | ? ? ? Hprev Hidx Hrest]; subst.
  constructor; [lia | ].
  eapply Forall_impl; [apply IH, Hrest | ]. cbn. intros y Hy. lia.
Qed.

Lemma dchain_take (n : nat) (l : list Block) : dchain l -> dchain (take n l).
Proof.
  intros Hd. revert n. induction Hd as [| b | b p l Hp Hi Hd IH]; intros n.
  - rewrite take_nil. constructor.
  - destruct n as [| [| n]]; constructor.
  - destruct n as [| [| n]]; [constructor | constructor | ].
    specialize (IH (S n)). cbn in IH |- *. constructor; assumption.
Qed.

Lemma dchain_same (l l' : list Block) : Forall2 same l l' -> dchain l -> dchain l'.
Proof.
  intros Hs Hd. revert l' Hs.
  induction Hd as [| b | b p l Hp Hi Hd IH]; intros l' Hs.
  - inversion Hs; subst. constructor.
  - inversion Hs as [| ? b' ? ? Hb Hnil]; subst. inversion Hnil; subst. constructor.
  - inversion Hs as [| ? b' ? m Hb Hrest]; subst.
    inversion Hrest as [| ? p' ? m' Hpp Hrest']; subst.
    constructor.
    + rewrite <- (same_prev _ _ Hb), <- (proj2 Hpp). exact Hp.
    + rewrite <- (same_index _ _ Hb), <- (same_index _ _ Hpp). exact Hi.
    + apply IH. exact Hrest.
Qed.

Lemma insert_by_index_last (x : Block) (l : list Block) :
  Forall (fun y => block_index y < block_index x) l ->
  insert_by_index x l = l ++ [x].
Proof.
  induction 1 as [| y l Hy Hl IH]; cbn; [reflexivity | ].
  destruct (Z.leb_spec (block_index x) (block_index y)); [lia | ].
  rewrite IH. reflexivity.
Qed.

Lemma sort_by_index_dchain (l : list Block) :
  dchain l -> sort_by_index l = reverse l.
Proof.
  induction l as [| x l IH]; intros Hd; [reflexivity | ].
  change (sort_by_index (x :: l)) with (insert_by_index x (sort_by_index l)).
  rewrite (IH (dchain_tail _ _ Hd)), reverse_cons.
  apply insert_by_index_last. apply Forall_reverse, dchain_bound, Hd.
Qed.

(** A block whose stored hash is the hash of its content and whose
    timestamp is set. *)
Definition sealed (b : Block) : Prop :=
  block_hash b = compute_hash b /\ str_truthy (observed_at b) = true.

Lemma sealed_same (b b' : Block) : same b b' -> sealed b -> sealed b'.
Proof.
  intros [Hc Hh] [Hs Ho]. split.
  - rewrite <- Hh, Hs. apply compute_hash_same_content, Hc.
  - rewrite <- (same_observed b b' (conj Hc Hh)). exact Ho.
Qed.

Lemma sealed_no_mismatch (now : Clock) (b : Block) :
  sealed b ->
  String.eqb (compute_hash (__post_init__ now b)) (block_hash b) = true.
Proof.
  intros [Hs Ho]. apply String.eqb_eq. rewrite Hs.
  apply compute_hash_same_content. rewrite post_init_content, Ho. reflexivity.
Qed.

Lemma verify_loop_dchain (clock : nat -> Clock) (l : list Block) (i : nat) :
  dchain l -> Forall sealed l -> verify_loop clock None i (reverse l) = [].
Proof.
  revert i. induction l as [| x l IH]; intros i Hd Hs; [reflexivity | ].
  rewrite reverse_cons, verify_loop_app.
  rewrite (IH i (dchain_tail _ _ Hd) (Forall_inv_tail Hs)).
  rewrite last_reverse. cbn [app verify_loop].
  rewrite (sealed_no_mismatch _ x (Forall_inv Hs)). cbn [negb app].
  destruct l as [| p l']; [reflexivity | ].
  cbn [head from_option].
  inversion Hd as [| | ? ? ? Hp Hi Hrest]; subst.
  rewrite Hp, String.eqb_refl. reflexivity.
Qed.

(** ** [create_block] *)

Lemma post_init_fields (now : Clock) (b : Block) :
  let b' := __post_init__ now b in
  entity_id b' = entity_id b /\ sensor b' = sensor b /\
  block_index b' = block_index b /\ signals b' = signals b /\
  prev_hash b' = prev_hash b /\
  observed_at b' = (if str_truthy (observed_at b) then observed_at b else iso now).
Proof.
  unfold TrustChain.__post_init__.
  destruct (str_truthy (observed_at b)) eqn:Ho; cbn [negb];
    repeat match goal with
           | |- context [if negb (str_truthy ?x) then _ else _] =>
               destruct (str_truthy x); cbn [negb]
           end; cbn; rewrite ?Ho; repeat split.
Qed.

(** What the block [create_block] returns looks like. *)
Record created (st : Store) (op : CreateOp) (b : Block) : Prop := {
  cr_entity : entity_id b = op_entity op;
  cr_sensor : sensor b = op_sensor op;
  cr_signals : signals b = op_signals op;
  cr_prev : prev_hash b = fst (get_chain_head st (op_entity op));
  cr_index :
    block_index b
    = (if negb (String.eqb (fst (get_chain_head st (op_entity op))) GENESIS_HASH)
       then snd (get_chain_head st (op_entity op)) + 1 else 0);
  cr_observed : observed_at b = iso (op_now op);
  cr_hash : block_hash b = compute_hash b
}.

Lemma create_block_store (st : Store) (op : CreateOp) :
  fst (create_block st op) = fst (append_block st (snd (create_block st op))).
Proof.
  unfold TrustChain.create_block.
  destruct (get_chain_head st (op_entity op)). reflexivity.
Qed.

Lemma create_block_created (st : Store) (op : CreateOp) :
  created st op (snd (create_block st op)).
Proof.
  unfold TrustChain.create_block.
  destruct (get_chain_head st (op_entity op)) as [ph pi] eqn:Hhead.
  cbv zeta.
  match goal with
  | |- context [TrustChain.__post_init__ _ _ ?now ?raw] =>
      pose proof (post_init_fields now raw) as Hf;
      pose proof (post_init_sealed now raw eq_refl) as Hs;
      cbv zeta in Hf;
      generalize dependent (TrustChain.__post_init__ digest env_node_id now raw)
  end.
  intros b Hf Hs. cbn in Hf. destruct Hf as (He & Hsn & Hi & Hsg & Hp & Ho).
  unfold TrustChain.append_block. cbn [fst snd].
  split; cbn [fst snd]; rewrite ?Hhead; cbn [fst snd]; assumption.
Qed.

Lemma head_lookup (st : Store) (e : string) (last_block : option Block) :
  heads st !! e = head_of <$> last_block ->
  get_chain_head st e
  = from_option (fun p => (block_hash p, block_index p)) (GENESIS_HASH, 0) last_block.
Proof.
  unfold get_chain_head. intros ->. destruct last_block; reflexivity.
Qed.

(** The new block is linked to the block the head points at. *)
Lemma created_links (st : Store) (op : CreateOp) (b : Block)
    (last_block : option Block) :
  created st op b ->
  heads st !! op_entity op = head_of <$> last_block ->
  (forall p, last_block = Some p -> block_hash p <> GENESIS_HASH) ->
  prev_hash b = from_option block_hash GENESIS_HASH last_block /\
  block_index b = from_option (fun p => block_index p + 1) 0 last_block.
Proof.
  intros Hc Hh Hng. destruct Hc as [_ _ _ Hprev Hidx _ _].
  rewrite (head_lookup _ _ _ Hh) in Hprev, Hidx.
  destruct last_block as [p | ]; cbn in *.
  - split; [exact Hprev | ].
    rewrite Hidx. destruct (String.eqb_spec (block_hash p) GENESIS_HASH) as [E | _].
    + destruct (Hng p eq_refl E).
    + reflexivity.
  - split; assumption.
Qed.

Lemma chain_of_snoc (e : string) (log : list Block) (b : Block) :
  chain_of e (log ++ [b])
  = chain_of e log ++ (if decide (entity_id b = e) then [b] else []).
Proof.
  unfold chain_of. rewrite filter_app. reflexivity.
Qed.

Lemma indexed_from_snoc (n : Z) (p : string) (c : list Block) (b : Block) :
  indexed_from n p c ->
  prev_hash b = from_option block_hash p (last c) ->
  block_index b = n + Z.of_nat (length c) ->
  indexed_from n p (c ++ [b]).
Proof.
  revert n p. induction c as [| x c IH]; intros n p Hc Hp Hi; cbn in *.
  - repeat split; [exact Hp | lia].
  - destruct Hc as (Hx1 & Hx2 & Hc). repeat split; try assumption.
    apply IH; [exact Hc | | lia].
    rewrite Hp, last_cons. destruct (last c); reflexivity.
Qed.

Lemma indexed_from_last (n : Z) (p : string) (c : list Block) (b : Block) :
  indexed_from n p c -> last c = Some b ->
  block_index b = n + Z.of_nat (length c) - 1.
Proof.
  revert n p. induction c as [| x c IH]; intros n p Hc Hl; [discriminate | ].
  cbn in Hc. destruct Hc as (_ & Hx & Hc).
  rewrite last_cons in Hl. destruct (last c) as [y | ] eqn:Ely.
  - injection Hl as ->. rewrite (IH _ _ Hc eq_refl). cbn [length]. lia.
  - injection Hl as ->. apply last_None in Ely. subst c. cbn. lia.
Qed.

Lemma indexed_from_lookup (n : Z) (p : string) (c : list Block) (i : nat) (b : Block) :
  indexed_from n p c -> c !! i = Some b ->
  block_index b = n + Z.of_nat i /\
  prev_hash b = match i with
                | O => p
                | S k => from_option block_hash p (c !! k)
                end.
Proof.
  revert n p i. induction c as [| x c IH]; intros n p i Hc Hl; [discriminate | ].
  cbn in Hc. destruct Hc as (Hx1 & Hx2 & Hc).
  destruct i as [| i]; cbn in Hl.
  - injection Hl as <-. split; [lia | exact Hx1].
  - destruct (IH _ _ _ Hc Hl) as [Hi Hp]. split; [lia | ].
    rewrite Hp. destruct i as [| i]; [reflexivity | ].
    cbn. destruct (c !! i) eqn:E; [reflexivity | ].
    apply lookup_ge_None in E. apply lookup_lt_Some in Hl. lia.
Qed.

(** The invariant behind the linkage claim; [log] lists the blocks
    appended so far, oldest first. *)
Record linked_store (st : Store) (log : list Block) : Prop := {
  ls_head : forall e, heads st !! e = head_of <$> last (chain_of e log);
  ls_chain : forall e, indexed_from 0 GENESIS_HASH (chain_of e log);
  ls_sealed : forall b, b ∈ log -> block_hash b = compute_hash b;
  ls_blocks : forall h b,
      blocks st !! h = Some b -> block_hash b = h /\ block_hash b = compute_hash b
}.

Hypothesis digest_not_genesis : forall c, digest c <> GENESIS_HASH.

Lemma linked_store_empty : linked_store empty_store [].
Proof.
  split; cbn.
  - intros e. apply lookup_empty.
  - intros e. exact I.
  - intros b Hb. inversion Hb.
  - intros h b Hb. rewrite lookup_empty in Hb. discriminate.
Qed.

Lemma linked_store_create (st : Store) (log : list Block) (op : CreateOp) :
  linked_store st log ->
  linked_store (fst (create_block st op)) (log ++ [snd (create_block st op)]).
Proof.
  intros [Hhead Hchain Hsealed Hblocks].
  pose proof (create_block_created st op) as Hc.
  pose proof (create_block_store st op) as Hst.
  set (b := snd (create_block st op)) in *.
  rewrite Hst. unfold TrustChain.append_block. cbn [fst].
  assert (forall p, last (chain_of (op_entity op) log) = Some p ->
                    block_hash p <> GENESIS_HASH) as Hng.
  { intros p Hp. rewrite (Hsealed p).
    - apply digest_not_genesis.
    - apply last_Some_elem_of in Hp. unfold chain_of in Hp.
      apply list_elem_of_filter in Hp. apply Hp. }
  destruct (created_links _ _ _ _ Hc (Hhead _) Hng) as [Hprev Hidx].
  split; cbn.
  - intros e. rewrite chain_of_snoc, (cr_entity _ _ _ Hc).
    destruct (decide (op_entity op = e)) as [<- | Hne].
    + rewrite lookup_insert_eq, last_snoc. reflexivity.
    + rewrite lookup_insert_ne by exact Hne. rewrite app_nil_r. apply Hhead.
  - intros e. rewrite chain_of_snoc, (cr_entity _ _ _ Hc).
    destruct (decide (op_entity op = e)) as [<- | Hne].
    + apply indexed_from_snoc; [apply Hchain | exact Hprev | ].
      rewrite Hidx. destruct (last (chain_of (op_entity op) log)) as [p | ] eqn:El; cbn.
      * rewrite (indexed_from_last _ _ _ _ (Hchain _) El). lia.
      * apply last_None in El. rewrite El. reflexivity.
    + rewrite app_nil_r. apply Hchain.
  - intros x Hx. apply elem_of_app in Hx as [Hx | Hx]; [apply Hsealed, Hx | ].
    apply list_elem_of_singleton in Hx as ->. apply (cr_hash _ _ _ Hc).
  - intros h x Hx. destruct (decide (block_hash b = h)) as [<- | Hne].
    + rewrite lookup_insert_eq in Hx. injection Hx as <-.
      split; [reflexivity | apply (cr_hash _ _ _ Hc)].
    + rewrite lookup_insert_ne in Hx by exact Hne. apply Hblocks, Hx.
Qed.

Lemma linked_store_run (ops : list CreateOp) (st : Store) (log : list Block) :
  linked_store st log ->
  linked_store (fst (run_creates st ops)) (log ++ snd (run_creates st ops)).
Proof.
  revert st log. induction ops as [| op ops IH]; intros st log Hinv; cbn.
  - rewrite app_nil_r. exact Hinv.
  - pose proof (linked_store_create st log op Hinv) as H1.
    destruct (create_block st op) as [st1 b]. cbn [fst snd] in H1.
    specialize (IH st1 (log ++ [b]) H1).
    destruct (run_creates st1 ops) as [st2 bs]. cbn [fst snd] in IH |- *.
    rewrite <- app_assoc in IH. exact IH.
Qed.

(** ** Verifying a freshly appended chain *)

Hypothesis digest_inj : forall c c', digest c = digest c' -> c = c'.

(** The invariant behind verification; [rlog] lists the blocks appended so
    far, newest first, as the Redis lists do. *)
Record fresh_store (st : Store) (rlog : list Block) : Prop := {
  fs_list : forall e,
      default [] (block_lists st !! e)
      = take 1000 (block_hash <$> chain_of e rlog);
  fs_stored : forall b,
      b ∈ rlog -> exists b', blocks st !! block_hash b = Some b' /\ same b b';
  fs_sealed : forall b, b ∈ rlog -> sealed b;
  fs_dchain : forall e, dchain (chain_of e rlog);
  fs_head : forall e, heads st !! e = head_of <$> head (chain_of e rlog)
}.

Lemma fresh_store_empty : fresh_store empty_store [].
Proof.
  split; cbn.
  - intros e. rewrite lookup_empty. reflexivity.
  - intros b Hb. inversion Hb.
  - intros b Hb. inversion Hb.
  - intros e. constructor.
  - intros e. apply lookup_empty.
Qed.

Lemma sealed_same_hash (x y : Block) :
  sealed x -> sealed y -> block_hash x = block_hash y -> same x y.
Proof.
  intros [Hx _] [Hy _] Hh. split; [ | exact Hh].
  apply digest_inj. unfold TrustChain.compute_hash in Hx, Hy. congruence.
Qed.

Lemma fresh_store_create (st : Store) (rlog : list Block) (op : CreateOp) :
  fresh_store st rlog ->
  str_truthy (iso (op_now op)) = true ->
  fresh_store (fst (create_block st op)) (snd (create_block st op) :: rlog).
Proof.
  intros [Hlist Hstored Hsealed Hdchain Hhead] Hclock.
  pose proof (create_block_created st op) as Hc.
  pose proof (create_block_store st op) as Hst.
  set (b := snd (create_block st op)) in *.
  rewrite Hst. unfold TrustChain.append_block. cbn [fst].
  assert (sealed b) as Hb.
  { split; [apply (cr_hash _ _ _ Hc) | ]. rewrite (cr_observed _ _ _ Hc). exact Hclock. }
  assert (forall e, chain_of e (b :: rlog)
                    = if decide (op_entity op = e) then b :: chain_of e rlog
                      else chain_of e rlog) as Hchain.
  { intros e. unfold chain_of. rewrite filter_cons, (cr_entity _ _ _ Hc). reflexivity. }
  assert (forall p, head (chain_of (op_entity op) rlog) = Some p ->
                    block_hash p <> GENESIS_HASH) as Hng.
  { intros p Hp. apply head_Some_elem_of in Hp. unfold chain_of in Hp.
    apply list_elem_of_filter in Hp as [_ Hp].
    rewrite (proj1 (Hsealed p Hp)). apply digest_not_genesis. }
  destruct (created_links _ _ _ _ Hc (Hhead _) Hng) as [Hprev Hidx].
  split; cbn [heads blocks block_lists].
  - intros e. rewrite Hchain, (cr_entity _ _ _ Hc).
    destruct (decide (op_entity op = e)) as [<- | Hne].
    + rewrite lookup_insert_eq. cbn [default]. rewrite lrange_0_999, Hlist.
      rewrite fmap_cons. change (take 1000 (?x :: ?l)) with (x :: take 999 l).
      rewrite take_take. reflexivity.
    + rewrite lookup_insert_ne by exact Hne. apply Hlist.
  - intros x Hx. destruct (decide (block_hash b = block_hash x)) as [Heq | Hne].
    + rewrite <- Heq, lookup_insert_eq. exists b. split; [reflexivity | ].
      apply sealed_same_hash; [ | exact Hb | congruence].
      apply elem_of_cons in Hx as [-> | Hx]; [exact Hb | apply Hsealed, Hx].
    + rewrite lookup_insert_ne by exact Hne.
      apply elem_of_cons in Hx as [-> | Hx]; [congruence | apply Hstored, Hx].
  - intros x Hx. apply elem_of_cons in Hx as [-> | Hx]; [exact Hb | apply Hsealed, Hx].
  - intros e. rewrite Hchain.
    destruct (decide (op_entity op = e)) as [<- | Hne]; [ | apply Hdchain].
    specialize (Hdchain (op_entity op)).
    destruct (chain_of (op_entity op) rlog) as [| p l]; [constructor | ].
    cbn in Hprev, Hidx. constructor; assumption.
  - intros e. rewrite Hchain, (cr_entity _ _ _ Hc).
    destruct (decide (op_entity op = e)) as [<- | Hne].
    + rewrite lookup_insert_eq. reflexivity.
    + rewrite lookup_insert_ne by exact Hne. apply Hhead.
Qed.

(** Every clock reading of a run has a non-empty [isoformat()]. *)
Definition clocks_set (ops : list CreateOp) : Prop :=
  Forall (fun op => str_truthy (iso (op_now op)) = true) ops.

Lemma fresh_store_run (ops : list CreateOp) (st : Store) (rlog : list Block) :
  fresh_store st rlog -> clocks_set ops ->
  fresh_store (fst (run_creates st ops))
              (reverse (snd (run_creates st ops)) ++ rlog).
Proof.
  revert st rlog. induction ops as [| op ops IH]; intros st rlog Hinv Hclk; cbn.
  - exact Hinv.
  - pose proof (fresh_store_create st rlog op Hinv (Forall_inv Hclk)) as H1.
    destruct (create_block st op) as [st1 b]. cbn [fst snd] in H1.
    specialize (IH st1 (b :: rlog) H1 (Forall_inv_tail Hclk)).
    destruct (run_creates st1 ops) as [st2 bs]. cbn [fst snd] in IH |- *.
    rewrite reverse_cons, <- app_assoc. exact IH.
Qed.

Lemma history_of_stored (st : Store) (seg : list Block) :
  (forall b, b ∈ seg -> exists b', blocks st !! block_hash b = Some b' /\ same b b') ->
  Forall2 same seg (omap (fun h => blocks st !! h) (block_hash <$> seg)).
Proof.
  induction seg as [| x seg IH]; intros H; cbn; [constructor | ].
  destruct (H x) as (x' & Hx & Hs); [left | ].
  rewrite Hx. constructor; [exact Hs | ].
  apply IH. intros b Hb. apply H. right. exact Hb.
Qed.

Lemma fresh_store_verifies (st : Store) (rlog : list Block)
    (clock : nat -> Clock) (e : string) (limit : Z) :
  fresh_store st rlog ->
  breaks_of (verify_chain clock st e limit) = [] /\
  verified_of (verify_chain clock st e limit) = true.
Proof.
  intros [Hlist Hstored Hsealed Hdchain Hhead].
  unfold TrustChain.verify_chain, get_entity_history. rewrite Hlist.
  destruct (lrange_0_take (take 1000 (block_hash <$> chain_of e rlog)) (limit - 1))
    as [k ->].
  rewrite take_take, <- fmap_take.
  set (seg := take (k `min` 1000) (chain_of e rlog)).
  assert (forall b, b ∈ seg -> b ∈ rlog) as Hsub.
  { intros b Hb. apply (subseteq_take (k `min` 1000)) in Hb.
    unfold chain_of in Hb. apply list_elem_of_filter in Hb. apply Hb. }
  pose proof (history_of_stored st seg (fun b Hb => Hstored b (Hsub b Hb))) as Hh.
  assert (dchain seg) as Hd by apply dchain_take, Hdchain.
  assert (Forall sealed seg) as Hs
    by (apply Forall_forall; intros b Hb; apply Hsealed, Hsub, Hb).
  set (hist := omap (fun h => blocks st !! h) (block_hash <$> seg)) in *.
  assert (dchain hist) as Hd' by exact (dchain_same _ _ Hh Hd).
  assert (Forall sealed hist) as Hs'.
  { clear -Hh Hs. induction Hh as [| x x' l l' Hx Hl IH]; [constructor | ].
    constructor; [exact (sealed_same _ _ Hx (Forall_inv Hs)) | ].
    apply IH, (Forall_inv_tail Hs). }
  destruct hist as [| x hist']; [split; reflexivity | ].
  cbv zeta. rewrite (sort_by_index_dchain _ Hd'), (verify_loop_dchain clock _ 0 Hd' Hs').
  split; reflexivity.
Qed.

(** ** Tampering with a stored block *)

Lemma rewrite_block_lookup (f : Block -> Block) (h : string) (st : Store) (b : Block) :
  blocks st !! h = Some b ->
  blocks (rewrite_block f h st) !! h = Some (f b).
Proof. intros H. cbn. rewrite lookup_alter_eq, H. reflexivity. Qed.

Lemma tampered_hash_differs (now : Clock) (b : Block) (sg : gmap string json) :
  block_hash b = compute_hash b -> sg <> signals b ->
  compute_hash (__post_init__ now (set_signals sg b)) <> block_hash (set_signals sg b).
Proof.
  intros Hb Hsg Heq. apply Hsg.
  cbn [block_hash set_signals] in Heq. rewrite Hb in Heq.
  unfold TrustChain.compute_hash in Heq. apply digest_inj in Heq.
  rewrite post_init_content in Heq.
  destruct (str_truthy (observed_at (set_signals sg b)));
    exact (f_equal hc_signals Heq).
Qed.

Lemma tampering_reported (clock : nat -> Clock) (st : Store) (e h : string)
    (limit : Z) (b : Block) (sg : gmap string json) :
  h ∈ lrange (default [] (block_lists st !! e)) 0 (limit - 1) ->
  blocks st !! h = Some b ->
  block_hash b = compute_hash b ->
  sg <> signals b ->
  exists expected,
    HashMismatch (block_index b) expected (block_hash b)
    ∈ breaks_of (verify_chain clock (rewrite_block (set_signals sg) h st) e limit).
Proof.
  intros Hwin Hb Hsealed Hsg.
  set (st' := rewrite_block (set_signals sg) h st).
  assert (set_signals sg b ∈ get_entity_history st' e limit) as Hin.
  { unfold get_entity_history. apply list_elem_of_omap.
    exists h. split; [exact Hwin | ]. apply rewrite_block_lookup, Hb. }
  unfold TrustChain.verify_chain.
  destruct (get_entity_history st' e limit) as [| x l] eqn:Eh; [inversion Hin | ].
  cbv zeta. cbn [breaks_of].
  apply (verify_loop_reports clock None 0 (sort_by_index (x :: l)) (set_signals sg b)).
  - rewrite sort_by_index_perm. exact Hin.
  - intros now. apply tampered_hash_differs; assumption.
Qed.

Lemma rewrite_outside_window (clock : nat -> Clock) (f : Block -> Block)
    (st : Store) (e h : string) (limit : Z) :
  h ∉ lrange (default [] (block_lists st !! e)) 0 (limit - 1) ->
  verify_chain clock (rewrite_block f h st) e limit = verify_chain clock st e limit.
Proof.
  intros Hout. unfold TrustChain.verify_chain, get_entity_history.
  cbn [block_lists blocks rewrite_block].
  replace (omap (fun h0 => alter f h (blocks st) !! h0)
                (lrange (default [] (block_lists st !! e)) 0 (limit - 1)))
    with (omap (fun h0 => blocks st !! h0)
               (lrange (default [] (block_lists st !! e)) 0 (limit - 1)));
    [reflexivity | ].
  induction (lrange (default [] (block_lists st !! e)) 0 (limit - 1)) as [| h0 hs IH];
    [reflexivity | ].
  apply not_elem_of_cons in Hout as [Hne Hout].
  cbn. rewrite lookup_alter_ne by exact Hne. rewrite (IH Hout). reflexivity.
Qed.

(** ** One and two appends to an empty store *)

Lemma first_create (op : CreateOp) :
  let b := snd (create_block empty_store op) in
  let st := fst (create_block empty_store op) in
  entity_id b = op_entity op /\
  signals b = op_signals op /\
  block_hash b = compute_hash b /\
  blocks st !! block_hash b = Some b /\
  default [] (block_lists st !! op_entity op) = [block_hash b].
Proof.
  cbv zeta.
  pose proof (create_block_created empty_store op) as Hc.
  rewrite (create_block_store empty_store op).
  set (b := snd (create_block empty_store op)) in *.
  unfold TrustChain.append_block. cbn [fst blocks block_lists empty_store].
  rewrite (cr_entity _ _ _ Hc), !lookup_insert_eq, lookup_empty. cbn [default].
  repeat split; try apply Hc.
Qed.

Lemma second_create (op0 op1 : CreateOp) :
  op_entity op1 = op_entity op0 ->
  clocks_set [op0; op1] ->
  let b0 := snd (create_block empty_store op0) in
  let st := fst (run_creates empty_store [op0; op1]) in
  (exists b1, default [] (block_lists st !! op_entity op0)
              = [block_hash b1; block_hash b0] /\ block_hash b1 <> block_hash b0) /\
  blocks st !! block_hash b0 = Some b0.
Proof.
  intros He Hclk. cbv zeta. cbn [TrustChain.run_creates].
  pose proof (fresh_store_create empty_store [] op0 fresh_store_empty (Forall_inv Hclk))
    as H0.
  pose proof (create_block_created empty_store op0) as Hc0.
  destruct (create_block empty_store op0) as [st1 b0] eqn:E0. cbn [fst snd] in *.
  pose proof (fresh_store_create st1 [b0] op1 H0 (Forall_inv (Forall_inv_tail Hclk)))
    as H1.
  pose proof (create_block_created st1 op1) as Hc1.
  pose proof (create_block_store st1 op1) as Hst1.
  destruct (create_block st1 op1) as [st2 b1] eqn:E1. cbn [fst snd] in *.
  assert (chain_of (op_entity op0) [b1; b0] = [b1; b0]) as Hchain.
  { unfold chain_of. rewrite !filter_cons, filter_nil.
    rewrite (cr_entity _ _ _ Hc1), (cr_entity _ _ _ Hc0), He.
    rewrite !decide_True by reflexivity. reflexivity. }
  pose proof (fs_dchain _ _ H1 (op_entity op0)) as Hd. rewrite Hchain in Hd.
  inversion Hd as [| | ? ? ? _ Hidx _]; subst.
  assert (block_hash b1 <> block_hash b0) as Hne.
  { intros Heq.
    pose proof (sealed_same_hash b1 b0 (fs_sealed _ _ H1 b1 ltac:(left))
                  (fs_sealed _ _ H1 b0 ltac:(right; left)) Heq) as Hs.
    apply same_index in Hs. lia. }
  split.
  - exists b1. split; [ | exact Hne].
    rewrite (fs_list _ _ H1), Hchain. reflexivity.
  - unfold TrustChain.append_block. cbn [fst blocks].
    rewrite lookup_insert_ne by exact Hne.
    pose proof (first_create op0) as Hf. cbv zeta in Hf. rewrite E0 in Hf.
    cbn [fst snd] in Hf. apply Hf.
Qed.

End Proofs.

(** C6.  After any run of [create_block] calls by a single writer, starting
    from an empty store, and for every entity: the [i]-th block appended
    for it has index [i], the first has the genesis constant as
    [prev_hash] and each later one the [block_hash] of the block appended
    just before it, so indexes strictly increase along the chain; and every
    block appended, like every block in the store, has a [block_hash]
    equal to [compute_hash] of its own fields.  The index claim supposes
    that SHA-256 never returns 64 zeros. *)
Theorem chain_linkage_invariant
    (digest : HashedContent -> string)
    (compute_delta : gmap string json -> gmap string json -> gmap string json)
    (env_node_id : string)
    (digest_not_genesis : forall c, digest c <> GENESIS_HASH)
    (ops : list CreateOp) (e : string) :
  let st := fst (run_creates digest compute_delta env_node_id empty_store ops) in
  let log := snd (run_creates digest compute_delta env_node_id empty_store ops) in
  let chain := chain_of e log in
  (forall (i : nat) (b : Block),
     chain !! i = Some b ->
     block_index b = Z.of_nat i /\
     prev_hash b = match i with
                   | O => GENESIS_HASH
                   | S k => from_option block_hash GENESIS_HASH (chain !! k)
                   end) /\
  (forall (i j : nat) (b b' : Block),
     (i < j)%nat -> chain !! i = Some b -> chain !! j = Some b' ->
     block_index b < block_index b') /\
  (forall b, b ∈ log -> block_hash b = compute_hash digest b) /\
  (forall h b, blocks st !! h = Some b ->
               block_hash b = h /\ block_hash b = compute_hash digest b).
Proof.
  intros st log chain.
  pose proof (linked_store_run digest compute_delta env_node_id digest_not_genesis
                ops empty_store [] (linked_store_empty digest)) as Hinv.
  cbn [app] in Hinv. fold st log in Hinv.
  destruct Hinv as [_ Hchain Hsealed Hblocks].
  assert (forall (i : nat) (b : Block), chain !! i = Some b ->
            block_index b = Z.of_nat i /\
            prev_hash b = match i with
                          | O => GENESIS_HASH
                          | S k => from_option block_hash GENESIS_HASH (chain !! k)
                          end) as Hlookup.
  { intros i b Hb. destruct (indexed_from_lookup _ _ _ _ _ (Hchain e) Hb) as [Hi Hp].
    split; [lia | exact Hp]. }
  split; [exact Hlookup | split; [ | split; [exact Hsealed | exact Hblocks]]].
  intros i j b b' Hij Hb Hb'.
  destruct (Hlookup i b Hb) as [-> _]. destruct (Hlookup j b' Hb') as [-> _]. lia.
Qed.

(** C6 for the DNS and WHOIS observations of example.com. *)
Lemma chain_linkage_invariant_witness :
  let log := snd (ChainExamples.run empty_store
                    [ChainExamples.op_dns; ChainExamples.op_whois]) in
  (forall x, ModelDigest.model_digest x <> GENESIS_HASH) /\
  (forall (i j : nat) (b b' : Block),
     (i < j)%nat -> chain_of "example.com" log !! i = Some b ->
     chain_of "example.com" log !! j = Some b' ->
     block_index b < block_index b') /\
  (forall b, b ∈ log -> block_hash b = compute_hash ModelDigest.model_digest b).
Proof.
  split; [exact ModelDigest.model_digest_not_genesis | ].
  destruct (chain_linkage_invariant ModelDigest.model_digest
              ChainExamples.delta_unused ChainExamples.node
              ModelDigest.model_digest_not_genesis
              [ChainExamples.op_dns; ChainExamples.op_whois] "example.com")
    as (_ & Hincr & Hsealed & _).
  split; [exact Hincr | exact Hsealed].
Defined.

(** The oldest of two blocks is rewritten with a forged payload and its
    stored hash kept; [verify_chain] with [limit = 1] reads the newest
    block only and reports no break. *)
Lemma tampering_outside_window_counterexample :
  let st' := rewrite_block (set_signals ChainExamples.forged)
               (block_hash ChainExamples.block_dns) ChainExamples.store_two in
  let r := verify_chain ModelDigest.model_digest ChainExamples.node
             ChainExamples.verify_clock st' "example.com" 1 in
  blocks st' !! block_hash ChainExamples.block_dns
  = Some (set_signals ChainExamples.forged ChainExamples.block_dns) /\
  ChainExamples.forged <> signals ChainExamples.block_dns /\
  block_hash (set_signals ChainExamples.forged ChainExamples.block_dns)
  = compute_hash ModelDigest.model_digest ChainExamples.block_dns /\
  breaks_of r = [] /\ verified_of r = true.
Proof.
  cbv zeta.
  assert (clocks_set [ChainExamples.op_dns; ChainExamples.op_whois]) as Hclk
    by (repeat constructor).
  destruct (second_create ModelDigest.model_digest ChainExamples.delta_unused
              ChainExamples.node ModelDigest.model_digest_not_genesis
              ModelDigest.model_digest_inj
              ChainExamples.op_dns ChainExamples.op_whois eq_refl Hclk)
    as [(b1 & Hlist & Hne) Hb0].
  destruct (first_create ModelDigest.model_digest ChainExamples.delta_unused
              ChainExamples.node ChainExamples.op_dns)
    as (_ & Hsig & Hhash & _ & _).
  cbv zeta in Hlist, Hne, Hb0, Hsig, Hhash.
  fold ChainExamples.create ChainExamples.run in Hlist, Hne, Hb0, Hsig, Hhash.
  fold ChainExamples.block_dns ChainExamples.store_two in Hlist, Hne, Hb0, Hsig, Hhash.
  change (op_entity ChainExamples.op_dns) with "example.com" in Hlist.
  split; [ | split; [ | split]].
  - apply rewrite_block_lookup, Hb0.
  - rewrite Hsig. intros Heq.
    apply (f_equal (fun m => m !! "dns_has_spf")) in Heq.
    unfold ChainExamples.forged in Heq. cbn [op_signals ChainExamples.op_dns] in Heq.
    rewrite !lookup_singleton_eq in Heq. discriminate.
  - exact Hhash.
  - rewrite rewrite_outside_window.
    + eapply fresh_store_verifies.
      apply (fresh_store_run ModelDigest.model_digest ChainExamples.delta_unused
               ChainExamples.node ModelDigest.model_digest_not_genesis
               ModelDigest.model_digest_inj _ _ _
               (fresh_store_empty ModelDigest.model_digest) Hclk).
    + rewrite Hlist. change (lrange [block_hash b1; block_hash ChainExamples.block_dns] 0 (1 - 1))
        with [block_hash b1].
      intros Hin. apply list_elem_of_singleton in Hin. congruence.
Qed.

(** C7, amended.  After any run of [create_block] calls by a single
    writer, starting from an empty store, [verify_chain] reports no break,
    for every entity and every [limit]; and when the signals of a stored
    block that [verify_chain] reads, one of the [limit] most recent of the
    entity's list, are overwritten while the stored [block_hash] stays,
    [verify_chain] reports a hash mismatch carrying that block's index and
    stored hash.  SHA-256 is taken to be collision-free and never 64
    zeros, and [isoformat()] never empty. *)
Theorem verify_chain_sound_and_detects_in_window
    (digest : HashedContent -> string)
    (compute_delta : gmap string json -> gmap string json -> gmap string json)
    (env_node_id : string)
    (digest_not_genesis : forall c, digest c <> GENESIS_HASH)
    (digest_inj : forall c c', digest c = digest c' -> c = c') :
  (forall (ops : list CreateOp) (clock : nat -> Clock) (e : string) (limit : Z),
     clocks_set ops ->
     let st := fst (run_creates digest compute_delta env_node_id empty_store ops) in
     breaks_of (verify_chain digest env_node_id clock st e limit) = [] /\
     verified_of (verify_chain digest env_node_id clock st e limit) = true) /\
  (forall (clock : nat -> Clock) (st : Store) (e h : string) (limit : Z)
          (b : Block) (sg : gmap string json),
     h ∈ lrange (default [] (block_lists st !! e)) 0 (limit - 1) ->
     blocks st !! h = Some b ->
     block_hash b = compute_hash digest b ->
     sg <> signals b ->
     exists expected,
       HashMismatch (block_index b) expected (block_hash b)
       ∈ breaks_of (verify_chain digest env_node_id clock
                      (rewrite_block (set_signals sg) h st) e limit)).
Proof.
  split.
  - intros ops clock e limit Hclk st.
    eapply fresh_store_verifies.
    apply (fresh_store_run digest compute_delta env_node_id digest_not_genesis
             digest_inj ops empty_store [] (fresh_store_empty digest) Hclk).
  - intros clock st e h limit b sg.
    apply (tampering_reported digest env_node_id digest_inj).
Qed.

(** C7 amended, for the store holding the DNS observation of example.com
    and the default [limit] of 100. *)
Lemma verify_chain_sound_and_detects_in_window_witness :
  (forall x, ModelDigest.model_digest x <> GENESIS_HASH) /\
  (forall x y, ModelDigest.model_digest x = ModelDigest.model_digest y -> x = y) /\
  breaks_of (verify_chain ModelDigest.model_digest ChainExamples.node
               ChainExamples.verify_clock ChainExamples.store_one "example.com" 100)
  = [] /\
  exists expected,
    HashMismatch (block_index ChainExamples.block_dns) expected
                 (block_hash ChainExamples.block_dns)
    ∈ breaks_of (verify_chain ModelDigest.model_digest ChainExamples.node
                   ChainExamples.verify_clock
                   (rewrite_block (set_signals ChainExamples.forged)
                      (block_hash ChainExamples.block_dns) ChainExamples.store_one)
                   "example.com" 100).
Proof.
  split; [exact ModelDigest.model_digest_not_genesis | ].
  split; [exact ModelDigest.model_digest_inj | ].
  destruct (verify_chain_sound_and_detects_in_window ModelDigest.model_digest
              ChainExamples.delta_unused ChainExamples.node
              ModelDigest.model_digest_not_genesis ModelDigest.model_digest_inj)
    as [Hsound Hdetect].
  destruct (first_create ModelDigest.model_digest ChainExamples.delta_unused
              ChainExamples.node ChainExamples.op_dns)
    as (_ & Hsig & Hhash & Hstored & Hlist).
  cbv zeta in Hsig, Hhash, Hstored, Hlist.
  fold ChainExamples.create in Hsig, Hhash, Hstored, Hlist.
  fold ChainExamples.block_dns ChainExamples.store_one in Hsig, Hhash, Hstored, Hlist.
  change (op_entity ChainExamples.op_dns) with "example.com" in Hlist.
  split.
  - apply (Hsound [ChainExamples.op_dns] ChainExamples.verify_clock "example.com" 100).
    repeat constructor.
  - apply Hdetect.
    + rewrite Hlist. left.
    + exact Hstored.
    + exact Hhash.
    + rewrite Hsig. intros Heq.
      apply (f_equal (fun m => m !! "dns_has_spf")) in Heq.
      unfold ChainExamples.forged in Heq. cbn [op_signals ChainExamples.op_dns] in Heq.
      rewrite !lookup_singleton_eq in Heq. discriminate.
Defined.

(** C10.  [compute_hash] reads the six fields [entity_id], [sensor],
    [block_index], [observed_at], [signals] and [prev_hash] and nothing
    else: two blocks that agree on them have the same hash whatever their
    [delta], [collection_time_ms], [sensor_version], [node_id] and
    [observed_at_unix] are, and overwriting these five fields of a stored
    block leaves the result of [verify_chain], its list of breaks
    included, as it was. *)
Theorem unhashed_fields_are_invisible
    (digest : HashedContent -> string) (env_node_id : string) :
  (forall b b' : Block,
     entity_id b = entity_id b' -> sensor b = sensor b' ->
     block_index b = block_index b' -> observed_at b = observed_at b' ->
     signals b = signals b' -> prev_hash b = prev_hash b' ->
     compute_hash digest b = compute_hash digest b') /\
  (forall (d : gmap string json) (t : Q) (v n : string) (u : Q) (b : Block),
     compute_hash digest (set_unhashed d t v n u b) = compute_hash digest b) /\
  (forall (clock : nat -> Clock) (st : Store) (h e : string) (limit : Z)
          (d : gmap string json) (t : Q) (v n : string) (u : Q),
     verify_chain digest env_node_id clock
       (rewrite_block (set_unhashed d t v n u) h st) e limit
     = verify_chain digest env_node_id clock st e limit).
Proof.
  split; [ | split].
  - intros b b' H1 H2 H3 H4 H5 H6. apply compute_hash_same_content.
    unfold hashed_content. congruence.
  - intros. reflexivity.
  - intros. apply verify_chain_same; [reflexivity | ].
    intros h'. cbn. destruct (decide (h = h')) as [<- | Hne].
    + rewrite lookup_alter_eq. destruct (blocks st !! h); constructor.
      apply same_set_unhashed.
    + rewrite lookup_alter_ne by exact Hne.
      destruct (blocks st !! h'); constructor. apply same_refl.
Qed.

End ChainSpec.

(* ===================================================================== *)
(** * The circuit breaker: properties                                     *)
(* ===================================================================== *)

Module BreakerSpec.
Import Pipeline.
Local Open Scope list_scope.

(** The DNS breaker of [_breakers], and its state after five failures in
    a row, the last at second 1000. *)
Definition dns_breaker : CircuitBreaker := CircuitBreaker_init "dns" 5 120.

Definition tripped : CircuitBreaker :=
  breaker_run dns_breaker
    [EvFailure 996; EvFailure 997; EvFailure 998; EvFailure 999; EvFailure 1000].

Definition no_metadata : Metadata :=
  {| data_sources := []; skipped := []; errors := [] |}.

Lemma Qlt_bool_iff (a b : Q) : Qlt_bool a b = true <-> (a < b)%Q.
Proof.
  unfold Qlt_bool. rewrite negb_true_iff.
  split.
  - intros H. apply Qnot_le_lt. intros Hle.
    apply Qle_bool_iff in Hle. congruence.
  - intros H. destruct (Qle_bool b a) eqn:E; [ | reflexivity].
    apply Qle_bool_iff in E. exfalso. exact (Qlt_not_le _ _ H E).
Qed.

(** Whatever is done to a breaker, it is open or half-open only with at
    least [threshold] failures counted. *)
Definition counted (b : CircuitBreaker) : Prop :=
  state b <> closed -> threshold b <= failures b.

Lemma counted_init (n : string) (th rt : Z) : counted (CircuitBreaker_init n th rt).
Proof. intros H. cbn in H. congruence. Qed.

Lemma counted_step (b : CircuitBreaker) (ev : BreakerEvent) :
  counted b -> counted (breaker_step b ev).
Proof.
  unfold counted. intros Hb. destruct ev as [now | | now]; cbn.
  - unfold can_execute. destruct (state b) eqn:E; cbn; rewrite ?E.
    + congruence.
    + destruct (Qlt_bool _ _); cbn; rewrite ?E; intros _; apply Hb; congruence.
    + intros _. apply Hb. congruence.
  - congruence.
  - destruct (Z.geb_spec (failures b + 1) (threshold b)) as [Hge | Hlt]; intros Hs.
    + lia.
    + specialize (Hb Hs). lia.
Qed.

Lemma counted_run (evs : list BreakerEvent) (b : CircuitBreaker) :
  counted b -> counted (breaker_run b evs).
Proof.
  revert b. induction evs as [| ev evs IH]; intros b Hb; cbn; [exact Hb | ].
  apply IH, counted_step, Hb.
Qed.

(** A success recorded in the half-open state closes the breaker and
    clears the failure count. *)
Lemma half_open_success_closes (b : CircuitBreaker) :
  state b = half_open ->
  state (record_success b) = closed /\ failures (record_success b) = 0.
Proof. intros _. split; reflexivity. Qed.

(** A failure recorded in the half-open state of a breaker reached from
    [CircuitBreaker_init] opens it again and restarts the recovery timer:
    no call is admitted until more than [recovery_timeout] seconds have
    passed since that failure. *)
Lemma half_open_failure_reopens (n : string) (th rt : Z)
    (evs : list BreakerEvent) (now later : Q) :
  let b := breaker_run (CircuitBreaker_init n th rt) evs in
  state b = half_open ->
  let b' := record_failure now b in
  state b' = open /\ last_failure_time b' = now /\
  ((later - now <= inject_Z rt)%Q -> can_execute later b' = (false, b')).
Proof.
  intros b Hs b'.
  assert (counted b) as Hc by apply counted_run, counted_init.
  assert (threshold b <= failures b) as Hth by (apply Hc; congruence).
  assert (state b' = open) as Hopen.
  { unfold b', record_failure. cbn.
    destruct (Z.geb_spec (failures b + 1) (threshold b)); [reflexivity | lia]. }
  assert (recovery_timeout b' = rt) as Hrt.
  { unfold b', record_failure. cbn. unfold b. clear.
    generalize (CircuitBreaker_init n th rt) (eq_refl : recovery_timeout (CircuitBreaker_init n th rt) = rt).
    induction evs as [| ev evs IH]; intros b0 H0; cbn; [exact H0 | ].
    apply IH. rewrite <- H0. destruct ev as [t | | t]; cbn; try reflexivity.
    unfold can_execute. destruct (state b0); try reflexivity.
    destruct (Qlt_bool _ _); reflexivity. }
  split; [exact Hopen | split; [reflexivity | ]].
  intros Hle. unfold can_execute. rewrite Hopen, Hrt.
  change (last_failure_time b') with now.
  destruct (Qlt_bool (inject_Z rt) (later - now)) eqn:E; [ | reflexivity].
  apply Qlt_bool_iff in E. exfalso. exact (Qlt_not_le _ _ E Hle).
Qed.

(** In the half-open state [can_execute] admits every call and leaves the
    breaker as it is. *)
Lemma half_open_admits (now : Q) (b : CircuitBreaker) :
  state b = half_open -> can_execute now b = (true, b).
Proof. unfold can_execute. intros ->. reflexivity. Qed.

(** C5, at the failing input.  The DNS breaker has tripped at second 1000;
    at second 1121 a first [_guarded("dns", ...)] passes the gate and
    leaves the breaker half-open; one second later, while that trial is
    still awaited, a second [_guarded("dns", ...)] passes the gate too, is
    not listed as skipped, and the breaker is still half-open. *)
Theorem half_open_second_trial_admitted :
  state tripped = open /\
  let '(b1, md1, go1) := _guarded_enter 1121 (Some tripped) no_metadata "dns" in
  let '(b2, md2, go2) := _guarded_enter 1122 b1 md1 "dns" in
  go1 = true /\ (state <$> b1) = Some half_open /\
  go2 = true /\ (state <$> b2) = Some half_open /\ skipped md2 = [].
Proof. vm_compute. repeat split. Qed.

End BreakerSpec.

(* ===================================================================== *)
(** * The score cache: properties                                         *)
(* ===================================================================== *)

Module CacheSpec.
Import Cache.
Local Open Scope list_scope.

(** Stand-in for [hashlib.sha256(...).hexdigest()] in the concrete runs,
    which use one target only. *)
Definition hex_stub (s : string) : string := s.

(** An empty Redis server that answers. *)
Definition empty_redis : Redis :=
  {| reachable := true; scores := ∅; metas := ∅; locks := ∅ |}.

Definition sample_result : gmap string json :=
  {[ "score" := JInt 700 ]}.

(** The dictionary [get] returns for a [result] that [set] stored at time
    [now] with a time-to-live of [ttl] seconds. *)
Definition as_cached (now : Q) (ttl : Z) (result : gmap string json)
    : gmap string json :=
  <["_cache" := JStr "hit"]>
    (<["_ttl" := JInt ttl]> (<["_cached_at" := JFloat now]> result)).

Section Proofs.

Variable sha256_hex : string -> string.
Variables TTL_REGISTERED TTL_UNREGISTERED TTL_FAILED TTL_PREVIEW : Z.

Local Abbreviation get := (Cache.get sha256_hex).
Local Abbreviation set :=
  (Cache.set sha256_hex TTL_REGISTERED TTL_UNREGISTERED TTL_FAILED TTL_PREVIEW).
Local Abbreviation choose_ttl :=
  (Cache.choose_ttl TTL_REGISTERED TTL_UNREGISTERED TTL_FAILED TTL_PREVIEW).
Local Abbreviation key := (Cache._normalize_key sha256_hex).

Lemma connect_reachable (c : ScoreCache) (r : Redis) :
  _enabled c = true -> reachable r = true ->
  exists c', _connect c r = (c', true) /\ _enabled c' = true /\ _client c' = true.
Proof.
  intros He Hr. unfold _connect. destruct (_client c) eqn:Ec.
  - exists c. repeat split; assumption.
  - rewrite Hr. eexists. repeat split. exact He.
Qed.

(** What [set] does when the server answers and the TTL is positive. *)
Lemma set_stores (c : ScoreCache) (r : Redis) (now : Q) (target : string)
    (result : gmap string json) (is_registered is_preview failed : bool) :
  _enabled c = true -> reachable r = true ->
  0 < choose_ttl is_registered is_preview failed ->
  let ttl := choose_ttl is_registered is_preview failed in
  let data := <["_ttl" := JInt ttl]> (<["_cached_at" := JFloat now]> result) in
  exists c' r',
    set c r now target result is_registered is_preview failed = (c', r', data, true) /\
    _enabled c' = true /\ _client c' = true /\ reachable r' = true /\
    locks r' = locks r /\
    scores r' = <[key target := (data, (now + inject_Z ttl)%Q)]> (scores r) /\
    exists fields,
      metas r' !! key target = Some (fields, Some (now + inject_Z (ttl + 3600))%Q) /\
      fields !! "hits" = Some (JInt 0).
Proof.
  intros He Hr Httl ttl data. unfold Cache.set. rewrite He. cbn [negb].
  destruct (connect_reachable c r He Hr) as (c' & -> & He' & Hc').
  cbn [negb]. fold ttl.
  unfold redis_setex. rewrite Hr. cbn [negb].
  destruct (Z.leb_spec ttl 0) as [Hle | _]; [lia | ].
  unfold redis_hset_expire. cbn [reachable with_scores]. rewrite Hr. cbn [negb].
  eexists c', _. split; [reflexivity | ].
  repeat split; try assumption.
  cbn [metas with_metas with_scores]. rewrite lookup_insert_eq.
  eexists. split; [reflexivity | ].
  apply lookup_union_Some_l. reflexivity.
Qed.

(** What [get] does on a live entry whose metadata hash is live too. *)
Lemma get_live (c : ScoreCache) (r : Redis) (now : Q) (target : string)
    (data fields : gmap string json) (expires mexpires : Q) (hits : Z) :
  _enabled c = true -> _client c = true -> reachable r = true ->
  scores r !! key target = Some (data, expires) ->
  (now < expires)%Q ->
  metas r !! key target = Some (fields, Some mexpires) ->
  (now < mexpires)%Q ->
  fields !! "hits" = Some (JInt hits) ->
  exists r',
    get c r now target = (c, r', Some (<["_cache" := JStr "hit"]> data)) /\
    scores r' = scores r /\ locks r' = locks r /\ reachable r' = true.
Proof.
  intros He Hc Hr Hs Hlt Hm Hmlt Hh. unfold Cache.get.
  rewrite He. cbn [negb]. unfold _connect. rewrite Hc. cbn [negb].
  unfold redis_get. rewrite Hr, Hs. cbn [negb].
  rewrite (proj2 (BreakerSpec.Qlt_bool_iff _ _) Hlt).
  unfold redis_hincrby_hits. rewrite Hr, Hm. cbn [negb].
  rewrite (proj2 (BreakerSpec.Qlt_bool_iff _ _) Hmlt), Hh.
  eexists. split; [reflexivity | ]. repeat split. exact Hr.
Qed.

Lemma meta_outlives (now now' : Q) (ttl : Z) :
  (now' < now + inject_Z ttl)%Q -> (now' < now + inject_Z (ttl + 3600))%Q.
Proof.
  intros H. eapply Qlt_trans; [exact H | ].
  apply Qplus_lt_r. rewrite <- Zlt_Qlt. lia.
Qed.

(** [set] followed by [get] on the same target before the TTL is over. *)
Lemma set_then_get (c : ScoreCache) (r : Redis) (now now' : Q) (target : string)
    (result : gmap string json) (is_registered is_preview failed : bool) :
  _enabled c = true -> reachable r = true ->
  0 < choose_ttl is_registered is_preview failed ->
  (now' < now + inject_Z (choose_ttl is_registered is_preview failed))%Q ->
  let ttl := choose_ttl is_registered is_preview failed in
  let '(c1, r1, data, ok) :=
    set c r now target result is_registered is_preview failed in
  let '(c2, r2, got) := get c1 r1 now' target in
  ok = true /\
  data = <["_ttl" := JInt ttl]> (<["_cached_at" := JFloat now]> result) /\
  got = Some (as_cached now ttl result).
Proof.
  intros He Hr Httl Hlt ttl.
  destruct (set_stores c r now target result is_registered is_preview failed He Hr Httl)
    as (c1 & r1 & -> & He1 & Hc1 & Hr1 & _ & Hs1 & fields & Hm1 & Hh1).
  destruct (get_live c1 r1 now' target _ fields _ _ 0 He1 Hc1 Hr1
              ltac:(rewrite Hs1; apply lookup_insert_eq) Hlt Hm1
              (meta_outlives _ _ _ Hlt) Hh1)
    as (r2 & -> & _).
  repeat split.
Qed.

End Proofs.

(** The dictionary [get] returns is not the one stored: it carries the
    key [_cache]. *)
Lemma cache_round_trip_counterexample :
  let '(c1, r1, data, ok) :=
    Cache.set hex_stub 3600 21600 300 86400 ScoreCache_init empty_redis 0
      "example.com" sample_result false false false in
  let '(c2, r2, got) := Cache.get hex_stub c1 r1 1 "example.com" in
  got <> Some sample_result /\ got <> Some data.
Proof.
  pose proof (set_then_get hex_stub 3600 21600 300 86400 ScoreCache_init empty_redis
                0 1 "example.com" sample_result false false false
                eq_refl eq_refl eq_refl eq_refl) as H.
  cbv zeta in H.
  destruct (Cache.set _ _ _ _ _ _ _ _ _ _ _ _) as [[[c1 r1] data] ok].
  destruct (Cache.get _ _ _ _ _) as [[c2 r2] got].
  destruct H as (_ & -> & ->).
  split; intros Heq; apply (inj Some) in Heq;
    apply (f_equal (fun m : gmap string json => m !! "_cache")) in Heq;
    unfold as_cached in Heq; rewrite lookup_insert_eq in Heq;
    [ unfold sample_result in Heq; rewrite lookup_singleton_ne in Heq by discriminate
    | rewrite !lookup_insert_ne in Heq by discriminate;
      unfold sample_result in Heq; rewrite lookup_singleton_ne in Heq by discriminate ];
    discriminate.
Qed.

(** C8, amended.  With the cache enabled, the Redis server answering and a
    positive TTL for the tier, [set(target, result, tier)] followed by
    [get(target)] before the TTL is over returns the stored result
    extended with the keys [_cached_at] and [_ttl], which [set] writes into
    the caller's dictionary, and [_cache = "hit"], which [get] adds; on
    every other key it agrees with the result that was passed to [set].
    This holds for each of the four tiers. *)
Theorem cache_round_trip_up_to_bookkeeping
    (sha256_hex : string -> string)
    (TTL_REGISTERED TTL_UNREGISTERED TTL_FAILED TTL_PREVIEW : Z)
    (c : ScoreCache) (r : Redis) (now now' : Q) (target : string)
    (result : gmap string json) (is_registered is_preview failed : bool)
    (Henabled : _enabled c = true) (Hreachable : reachable r = true)
    (Hpositive :
       0 < Cache.choose_ttl TTL_REGISTERED TTL_UNREGISTERED TTL_FAILED TTL_PREVIEW
             is_registered is_preview failed)
    (Hlive :
       (now' < now + inject_Z
                 (Cache.choose_ttl TTL_REGISTERED TTL_UNREGISTERED TTL_FAILED
                    TTL_PREVIEW is_registered is_preview failed))%Q) :
  let ttl := Cache.choose_ttl TTL_REGISTERED TTL_UNREGISTERED TTL_FAILED TTL_PREVIEW
               is_registered is_preview failed in
  let '(c1, r1, data, ok) :=
    Cache.set sha256_hex TTL_REGISTERED TTL_UNREGISTERED TTL_FAILED TTL_PREVIEW
      c r now target result is_registered is_preview failed in
  let '(c2, r2, got) := Cache.get sha256_hex c1 r1 now' target in
  ok = true /\
  data = <["_ttl" := JInt ttl]> (<["_cached_at" := JFloat now]> result) /\
  got = Some (<["_cache" := JStr "hit"]> data) /\
  forall k, k <> "_cache" -> k <> "_ttl" -> k <> "_cached_at" ->
            (got ≫= fun d => d !! k) = result !! k.
Proof.
  intros ttl.
  pose proof (set_then_get sha256_hex TTL_REGISTERED TTL_UNREGISTERED TTL_FAILED
                TTL_PREVIEW c r now now' target result is_registered is_preview
                failed Henabled Hreachable Hpositive Hlive) as H.
  cbv zeta in H. fold ttl in H.
  destruct (Cache.set _ _ _ _ _ _ _ _ _ _ _ _) as [[[c1 r1] data] ok].
  destruct (Cache.get _ _ _ _ _) as [[c2 r2] got].
  destruct H as (-> & -> & ->).
  split; [reflexivity | split; [reflexivity | split; [reflexivity | ]]].
  intros k H1 H2 H3. cbn. unfold as_cached.
  rewrite !lookup_insert_ne by congruence. reflexivity.
Qed.

(** The amended C8 for an unregistered target with the default TTL of six
    hours, read back one second after it was stored. *)
Lemma cache_round_trip_up_to_bookkeeping_witness :
  let '(c1, r1, data, ok) :=
    Cache.set hex_stub 3600 21600 300 86400 ScoreCache_init empty_redis 0
      "example.com" sample_result false false false in
  let '(c2, r2, got) := Cache.get hex_stub c1 r1 1 "example.com" in
  ok = true /\ (got ≫= fun d => d !! "score") = Some (JInt 700).
Proof.
  pose proof (cache_round_trip_up_to_bookkeeping hex_stub 3600 21600 300 86400
                ScoreCache_init empty_redis 0 1 "example.com" sample_result
                false false false eq_refl eq_refl eq_refl eq_refl) as H.
  cbv zeta in H.
  destruct (Cache.set _ _ _ _ _ _ _ _ _ _ _ _) as [[[c1 r1] data] ok].
  destruct (Cache.get _ _ _ _ _) as [[c2 r2] got].
  destruct H as (Hok & _ & _ & Hk).
  split; [exact Hok | ].
  rewrite Hk by discriminate. reflexivity.
Defined.

End CacheSpec.

(* ===================================================================== *)
(** * The pipeline entry points: properties                               *)
(* ===================================================================== *)

Module PipelineSpec.
Import Cache.
Local Open Scope list_scope.

(** The clock readings of the concrete runs: checked at second 0,
    re-checked at 1.5, stored at 2. *)
Definition sample_times : Pipeline.Times :=
  {| Pipeline.t_check := 0; Pipeline.t_recheck := 3 # 2; Pipeline.t_store := 2;
     Pipeline.ms_hit := 1; Pipeline.ms_computed := 2000 |}.

(** Stand-in for the dictionary the v2 engine returns for an entity
    without signals. *)
Definition sample_fallback : gmap string json :=
  {[ "data_freshness" := JStr "failed" ]}.

Section Proofs.

Variable sha256_hex : string -> string.
Variables TTL_REGISTERED TTL_UNREGISTERED TTL_FAILED TTL_PREVIEW : Z.

Local Abbreviation key := (Cache._normalize_key sha256_hex).
Local Abbreviation score_entity :=
  (PipelineV3.score_entity sha256_hex TTL_REGISTERED TTL_UNREGISTERED TTL_FAILED
     TTL_PREVIEW).
Local Abbreviation compute_trust_score :=
  (Pipeline.compute_trust_score sha256_hex TTL_REGISTERED TTL_UNREGISTERED
     TTL_FAILED TTL_PREVIEW).

(** ** What the cache operations leave alone *)

Lemma get_frame (c : ScoreCache) (r : Redis) (now : Q) (target : string) :
  scores (snd (fst (Cache.get sha256_hex c r now target))) = scores r /\
  reachable (snd (fst (Cache.get sha256_hex c r now target))) = reachable r.
Proof.
  unfold Cache.get, redis_hincrby_hits.
  repeat case_match; simplify_eq; split; reflexivity.
Qed.

Lemma get_without_score (c : ScoreCache) (r : Redis) (now : Q) (target : string) :
  scores r !! key target = None ->
  snd (Cache.get sha256_hex c r now target) = None.
Proof.
  intros Hs. unfold Cache.get, redis_get. rewrite Hs.
  repeat case_match; simplify_eq; reflexivity.
Qed.

Lemma acquire_lock_frame (c : ScoreCache) (r : Redis) (now : Q) (target : string) :
  scores (snd (fst (Cache.acquire_lock sha256_hex c r now target))) = scores r /\
  reachable (snd (fst (Cache.acquire_lock sha256_hex c r now target))) = reachable r.
Proof.
  unfold Cache.acquire_lock.
  repeat case_match; simplify_eq; split; reflexivity.
Qed.

Lemma release_lock_frame (c : ScoreCache) (r : Redis) (target : string) :
  scores (snd (Cache.release_lock sha256_hex c r target)) = scores r /\
  reachable (snd (Cache.release_lock sha256_hex c r target)) = reachable r.
Proof.
  unfold Cache.release_lock.
  repeat case_match; simplify_eq; split; reflexivity.
Qed.

Ltac cache_step :=
  match goal with
  | |- context [Cache.get ?s ?c ?r ?n ?t] =>
      let H := fresh "Hget" in
      let H' := fresh "Hmiss" in
      pose proof (get_frame c r n t) as H;
      pose proof (get_without_score c r n t) as H';
      destruct (Cache.get s c r n t) as [[? ?] ?]
  | |- context [Cache.acquire_lock ?s ?c ?r ?n ?t] =>
      let H := fresh "Hacq" in
      pose proof (acquire_lock_frame c r n t) as H;
      destruct (Cache.acquire_lock s c r n t) as [[? ?] ?]
  | |- context [Cache.release_lock ?s ?c ?r ?t] =>
      let H := fresh "Hrel" in
      pose proof (release_lock_frame c r t) as H;
      destruct (Cache.release_lock s c r t) as [? ?]
  | |- context [if ?b then _ else _] => destruct b
  | |- context [match ?o with Some _ => _ | None => _ end] => destruct o
  end; cbn [negb fst snd] in *.

(** ** [score_entity] when [observe_entity] raises *)

Lemma score_entity_failure (c : ScoreCache) (r : Redis) (tm : Pipeline.Times)
    (target : string) (force_refresh : bool) (e : string) :
  let '(c', r', ret) := score_entity c r tm target force_refresh (Raise e) in
  scores r' = scores r /\
  (scores r !! key target = None ->
   ret = Ok (PipelineV3.minimal_safe_response target e)).
Proof.
  unfold PipelineV3.score_entity.
  repeat cache_step;
    (split; [ intuition congruence | ]); intros Hnone;
    repeat match goal with
           | H : _ /\ _ |- _ => destruct H
           end;
    repeat match goal with
           | H : scores ?r1 !! ?k = None -> _ |- _ =>
               let X := fresh in
               assert (scores r1 !! k = None) as X by congruence;
               specialize (H X)
           end;
    try discriminate; reflexivity.
Qed.

Lemma score_entity_returns (c : ScoreCache) (r : Redis) (tm : Pipeline.Times)
    (target : string) (force_refresh : bool) (observed : Res Engine.RawSignals) :
  exists d, snd (score_entity c r tm target force_refresh observed) = Ok d.
Proof.
  unfold PipelineV3.score_entity.
  repeat case_match; simplify_eq; eexists; reflexivity.
Qed.

(** ** [compute_trust_score] *)

Lemma compute_trust_score_returns (c : ScoreCache) (r : Redis) (tm : Pipeline.Times)
    (target : string) (force_refresh is_preview : bool)
    (body : Res Pipeline.Scored) (fallback : gmap string json) :
  exists d,
    snd (compute_trust_score c r tm target force_refresh is_preview body fallback)
    = Ok d.
Proof.
  unfold Pipeline.compute_trust_score.
  repeat case_match; simplify_eq; eexists; reflexivity.
Qed.

Lemma get_miss (c : ScoreCache) (r : Redis) (now : Q) (target : string) :
  _enabled c = true -> reachable r = true -> scores r !! key target = None ->
  exists c', Cache.get sha256_hex c r now target = (c', r, None) /\ _enabled c' = true.
Proof.
  intros He Hr Hs. unfold Cache.get. rewrite He. cbn [negb].
  destruct (CacheSpec.connect_reachable c r He Hr) as (c' & -> & He' & _).
  cbn [negb]. unfold redis_get. rewrite Hr, Hs. cbn [negb].
  exists c'. split; [reflexivity | exact He'].
Qed.

Lemma acquire_lock_props (c : ScoreCache) (r : Redis) (now : Q) (target : string) :
  _enabled c = true -> reachable r = true ->
  exists c' r' b,
    Cache.acquire_lock sha256_hex c r now target = (c', r', b) /\
    _enabled c' = true /\ reachable r' = true /\ scores r' = scores r.
Proof.
  intros He Hr. unfold Cache.acquire_lock. rewrite He. cbn [negb].
  destruct (CacheSpec.connect_reachable c r He Hr) as (c' & -> & He' & _).
  cbn [negb]. rewrite Hr. cbn [negb].
  match goal with
  | |- context [if ?held then _ else _] => destruct held
  end; eexists _, _, _; (split; [reflexivity | ]); repeat split; assumption.
Qed.

(** The sibling path: when steps 3 to 5 of [compute_trust_score] raise for
    a target that is not cached, the fallback dictionary, tagged with the
    error, is returned and is in the cache under [TTL_FAILED]. *)
Lemma compute_trust_score_failure_cached (c : ScoreCache) (r : Redis)
    (tm : Pipeline.Times) (target : string) (force_refresh is_preview : bool)
    (e : string) (fallback : gmap string json) :
  _enabled c = true -> reachable r = true ->
  scores r !! key target = None -> 0 < TTL_FAILED ->
  let result :=
    <["_ttl" := JInt TTL_FAILED]>
      (<["_cached_at" := JFloat (Pipeline.t_store tm)]>
         (<["_pipeline" := JObj [("source", JStr "fallback"); ("error", JStr e)]]>
            fallback)) in
  exists c' r',
    compute_trust_score c r tm target force_refresh is_preview (Raise e) fallback
    = (c', r', Ok result) /\
    scores r' !! key target
    = Some (result, (Pipeline.t_store tm + inject_Z TTL_FAILED)%Q).
Proof.
  intros He Hr Hs Httl result. unfold Pipeline.compute_trust_score.
  assert (exists c1,
            (if negb force_refresh
             then Cache.get sha256_hex c r (Pipeline.t_check tm) target
             else (c, r, None)) = (c1, r, None) /\ _enabled c1 = true)
    as (c1 & -> & He1).
  { destruct force_refresh; cbn [negb]; [exists c; split; [reflexivity | exact He] | ].
    apply get_miss; assumption. }
  cbv beta iota.
  destruct (acquire_lock_props c1 r (Pipeline.t_check tm) target He1 Hr)
    as (c2 & r2 & b & -> & He2 & Hr2 & Hs2).
  cbv beta iota.
  assert (exists c3,
            (if negb b
             then Cache.get sha256_hex c2 r2 (Pipeline.t_recheck tm) target
             else (c2, r2, None)) = (c3, r2, None) /\ _enabled c3 = true)
    as (c3 & -> & He3).
  { destruct b; cbn [negb]; [exists c2; split; [reflexivity | exact He2] | ].
    apply get_miss; [assumption | assumption | rewrite Hs2; exact Hs]. }
  cbv beta iota.
  destruct (CacheSpec.set_stores sha256_hex TTL_REGISTERED TTL_UNREGISTERED
              TTL_FAILED TTL_PREVIEW c3 r2 (Pipeline.t_store tm) target
              (<["_pipeline" := JObj [("source", JStr "fallback"); ("error", JStr e)]]>
                 fallback)
              false false true He3 Hr2 Httl)
    as (c4 & r4 & Hset & _ & _ & _ & _ & Hs4 & _).
  cbv zeta in Hset. cbn [Cache.choose_ttl] in Hset, Hs4. rewrite Hset.
  cbv beta iota.
  pose proof (release_lock_frame c4 r4 target) as [Hrel _].
  destruct (Cache.release_lock sha256_hex c4 r4 target) as [c5 r5].
  cbn [snd] in Hrel. exists c5, r5. split; [reflexivity | ].
  rewrite Hrel, Hs4. apply lookup_insert_eq.
Qed.

End Proofs.

(** C9, at the failing input.  [observe_entity] raises for a target that
    is not cached: [score_entity] returns the minimal response with the
    error, the cache holds no score afterwards, and the next [get] for the
    target is a miss. *)
Theorem score_entity_failure_is_not_cached :
  let '(c', r', ret) :=
    PipelineV3.score_entity CacheSpec.hex_stub 3600 21600 300 86400
      ScoreCache_init CacheSpec.empty_redis sample_times "example.com" false
      (Raise "observe_entity failed") in
  ret = Ok (PipelineV3.minimal_safe_response "example.com" "observe_entity failed") /\
  scores r' = ∅ /\
  snd (Cache.get CacheSpec.hex_stub c' r' 3 "example.com") = None.
Proof.
  pose proof (score_entity_failure CacheSpec.hex_stub 3600 21600 300 86400
                ScoreCache_init CacheSpec.empty_redis sample_times "example.com"
                false "observe_entity failed") as H.
  destruct (PipelineV3.score_entity _ _ _ _ _ _ _ _ _ _ _) as [[c' r'] ret].
  destruct H as [Hs Hret].
  split; [apply Hret, lookup_empty | split; [exact Hs | ]].
  apply get_without_score. rewrite Hs. apply lookup_empty.
Qed.

(** The same failure in [compute_trust_score]: the degraded result is in
    the cache for [TTL_FAILED] = 300 seconds. *)
Lemma compute_trust_score_failure_example :
  let '(c', r', ret) :=
    Pipeline.compute_trust_score CacheSpec.hex_stub 3600 21600 300 86400
      ScoreCache_init CacheSpec.empty_redis sample_times "example.com" false false
      (Raise "collector failed") sample_fallback in
  exists d, ret = Ok d /\
    scores r' !! Cache._normalize_key CacheSpec.hex_stub "example.com"
    = Some (d, 302%Q).
Proof.
  destruct (compute_trust_score_failure_cached CacheSpec.hex_stub 3600 21600 300 86400
              ScoreCache_init CacheSpec.empty_redis sample_times "example.com"
              false false "collector failed" sample_fallback
              eq_refl eq_refl eq_refl eq_refl) as (c' & r' & -> & Hs).
  eexists. split; [reflexivity | exact Hs].
Qed.

End PipelineSpec.

(* ===================================================================== *)
(** * The scoring engine: ranges and bands                                *)
(* ===================================================================== *)

Module EngineRange.
Import Engine.
Local Open Scope list_scope.

(** The keys of a breakdown dictionary. *)
Definition keys_of (d : Breakdown) : list string := map fst d.

(** [within K lo hi d]: every key of [d] is listed in [K] and the values of
    [d] sum to something between [lo] and [hi]. *)
Definition within (K : list string) (lo hi : Z) (d : Breakdown) : Prop :=
  (forall k, In k (keys_of d) -> In k K) /\ lo <= dict_sum d <= hi.

Lemma fold_sum_shift (d : Breakdown) (a : Z) :
  fold_left (fun acc kv => acc + snd kv) d a
  = a + fold_left (fun acc kv => acc + snd kv) d 0.
Proof.
  revert a. induction d as [|kv d IH]; intros a; cbn [fold_left].
  - lia.
  - rewrite IH, (IH (0 + snd kv)). lia.
Qed.

Lemma dict_sum_cons (kv : string * Z) (d : Breakdown) :
  dict_sum (kv :: d) = snd kv + dict_sum d.
Proof. unfold dict_sum. cbn. apply fold_sum_shift. Qed.

(** Assigning a key the dictionary does not hold yet appends one entry. *)
Lemma dict_set_fresh (k : string) (v : Z) (d : Breakdown) :
  ~ In k (keys_of d) ->
  dict_sum (dict_set k v d) = dict_sum d + v /\
  forall k', In k' (keys_of (dict_set k v d)) -> k' = k \/ In k' (keys_of d).
Proof.
  induction d as [|[k0 v0] d IH]; intros Hk.
  - cbn. split; [reflexivity | intros k' [H|[]]; auto].
  - cbn [dict_set]. destruct (String.eqb_spec k k0) as [->|Hne].
    + exfalso. apply Hk. left. reflexivity.
    + destruct IH as [Hs Hin]; [intros H; apply Hk; right; exact H|].
      split.
      * rewrite !dict_sum_cons, Hs. cbn. lia.
      * intros k' [H|H]; [right; left; exact H|].
        destruct (Hin k' H); [left | right; right]; assumption.
Qed.

Lemma within_nil : within [] 0 0 [].
Proof. split; [intros k [] | cbn; lia]. Qed.

Lemma within_weaken (K K' : list string) (lo lo' hi hi' : Z) (d : Breakdown) :
  within K lo hi d -> incl K K' -> lo' <= lo -> hi <= hi' ->
  within K' lo' hi' d.
Proof.
  intros [Hk Hs] Hi Hlo Hhi. split; [intros k H; apply Hi, Hk, H | lia].
Qed.

Lemma within_set (K : list string) (lo hi : Z) (k : string) (v : Z)
    (d : Breakdown) :
  within K lo hi d -> ~ In k K ->
  within (k :: K) (lo + v) (hi + v) (dict_set k v d).
Proof.
  intros [Hk Hs] Hn.
  destruct (dict_set_fresh k v d) as [Hsum Hin]; [intros H; apply Hn, Hk, H|].
  split; [|lia].
  intros k' H. destruct (Hin k' H) as [->|H']; [left; reflexivity|].
  right. apply Hk, H'.
Qed.

(** The keys the four category functions assign, in the order of their
    statements. *)
Definition ea_keys : list string :=
  ["domain_age"; "domain_age_penalty"; "ssl_exists"; "first_cert_age";
   "cert_type"; "wikipedia"; "wikidata"; "crunchbase"; "org_consistency";
   "domain_commitment"].

Definition si_keys : list string :=
  ["vt_clean"; "vt_mostly_clean"; "vt_suspicious_penalty";
   "vt_dangerous_penalty"; "gsb_clean"; "gsb_flagged_penalty"; "spf"; "dmarc";
   "dkim"; "dnssec"; "hsts"; "csp"; "xframe"; "xcontent"; "referrer_policy";
   "permissions_policy"].

Definition rs_keys : list string :=
  ["tranco"; "vt_community"; "twitter"; "linkedin"; "github"; "social_breadth"].

Definition om_keys : list string :=
  ["structured_data"; "org_schema"; "status_page"; "api_docs"; "changelog";
   "security_txt"; "cert_renewals"; "mx_records"; "robots_txt"].

(** One statement of a category function: the dictionary after it is the
    one before it, or that one with a key set that no earlier statement
    sets. *)
Ltac fresh_key := cbv; intuition discriminate.
Ltac widen := unfold incl; intros ?; cbv; tauto.
Ltac read_tests :=
  repeat match goal with
         | E : (_ >? _) = true |- _ => rewrite Z.gtb_ltb in E; apply Z.ltb_lt in E
         end.
Ltac one_statement H :=
  unfold add_if;
  repeat match goal with
         | |- context [if ?c then _ else _] => destruct c eqn:?
         end;
  read_tests;
  first
    [ eapply within_weaken; [exact H | widen | lia | lia]
    | eapply within_weaken;
      [apply within_set; [exact H | fresh_key] | widen | lia | lia] ].

(** [after d K lo hi]: name the dictionary [d] that the statements read so
    far produce, keeping only its keys and the range of its sum. *)
Ltac after d K lo hi :=
  match goal with
  | H : within _ _ _ _ |- _ =>
      let W := fresh "W" in
      assert (within K lo hi d) as W by one_statement H;
      clear H; generalize dependent d; intros ? W
  end.
Ltac before_if key n ks lo hi :=
  match goal with
  | |- context [add_if _ key _ ?d] => after d (take n ks) lo hi
  end.
Ltac before_set key n ks lo hi :=
  match goal with
  | |- context [dict_set key _ ?d] => after d (take n ks) lo hi
  end.
Ltac at_sum n ks lo hi :=
  match goal with
  | |- context [dict_sum ?d] => after d (take n ks) lo hi
  end;
  match goal with
  | H : within _ _ _ _ |- _ => destruct H as [_ H]; lia
  end.

(** The breakdown of [score_existence_and_age] sums to at most 285, the
    best branch of every statement together. *)
Lemma existence_and_age_sum (s : RawSignals) :
  -50 <= dict_sum (snd (score_existence_and_age s)) <= 285.
Proof.
  unfold score_existence_and_age. cbv zeta. cbn [snd].
  pose proof within_nil as H.
  before_if "ssl_exists" 2%nat ea_keys (-50) 80.
  before_set "first_cert_age" 3%nat ea_keys (-50) 95.
  before_set "cert_type" 4%nat ea_keys (-50) 125.
  before_if "wikipedia" 5%nat ea_keys (-50) 150.
  before_if "wikidata" 6%nat ea_keys (-50) 200.
  before_if "crunchbase" 7%nat ea_keys (-50) 230.
  before_if "org_consistency" 8%nat ea_keys (-50) 250.
  before_set "domain_commitment" 9%nat ea_keys (-50) 270.
  at_sum 10%nat ea_keys (-50) 285.
Qed.

Lemma security_and_integrity_sum (s : RawSignals) :
  -400 <= dict_sum (snd (score_security_and_integrity s)) <= 300.
Proof.
  unfold score_security_and_integrity. cbv zeta. cbn [snd].
  pose proof within_nil as H.
  before_set "gsb_clean" 4%nat si_keys (-200) 100.
  before_if "spf" 6%nat si_keys (-400) 130.
  before_if "dmarc" 7%nat si_keys (-400) 155.
  before_if "dkim" 8%nat si_keys (-400) 185.
  before_if "dnssec" 9%nat si_keys (-400) 200.
  before_if "hsts" 10%nat si_keys (-400) 220.
  before_if "csp" 11%nat si_keys (-400) 240.
  before_if "xframe" 12%nat si_keys (-400) 260.
  before_if "xcontent" 13%nat si_keys (-400) 270.
  before_if "referrer_policy" 14%nat si_keys (-400) 280.
  before_if "permissions_policy" 15%nat si_keys (-400) 290.
  at_sum 16%nat si_keys (-400) 300.
Qed.

Lemma reputation_and_scale_sum (s : RawSignals) :
  0 <= dict_sum (snd (score_reputation_and_scale s)) <= 190.
Proof.
  unfold score_reputation_and_scale. cbv zeta. cbn [snd].
  pose proof within_nil as H.
  before_if "vt_community" 1%nat rs_keys 0 100.
  before_if "twitter" 2%nat rs_keys 0 130.
  before_if "linkedin" 3%nat rs_keys 0 140.
  before_if "github" 4%nat rs_keys 0 155.
  before_if "social_breadth" 5%nat rs_keys 0 170.
  at_sum 6%nat rs_keys 0 190.
Qed.

Lemma operational_maturity_sum (s : RawSignals) :
  0 <= dict_sum (snd (score_operational_maturity s)) <= 150.
Proof.
  unfold score_operational_maturity. cbv zeta. cbn [snd].
  pose proof within_nil as H.
  before_if "org_schema" 1%nat om_keys 0 15.
  before_if "status_page" 2%nat om_keys 0 30.
  before_if "api_docs" 3%nat om_keys 0 55.
  before_if "changelog" 4%nat om_keys 0 75.
  before_if "security_txt" 5%nat om_keys 0 90.
  before_if "cert_renewals" 6%nat om_keys 0 105.
  before_if "mx_records" 7%nat om_keys 0 120.
  before_if "robots_txt" 8%nat om_keys 0 135.
  at_sum 9%nat om_keys 0 150.
Qed.

(** Every sub-score is the clamped sum of the breakdown returned with it. *)
Lemma sub_scores_from_breakdown (s : RawSignals) :
  fst (score_existence_and_age s)
  = clamp (dict_sum (snd (score_existence_and_age s))) _EA_CAP /\
  fst (score_security_and_integrity s)
  = clamp (dict_sum (snd (score_security_and_integrity s))) _SI_CAP /\
  fst (score_reputation_and_scale s)
  = clamp (dict_sum (snd (score_reputation_and_scale s))) _RS_CAP /\
  fst (score_operational_maturity s)
  = clamp (dict_sum (snd (score_operational_maturity s))) _OM_CAP.
Proof. repeat split. Qed.

Lemma raw_score_range (s : RawSignals) :
  0 <= fst (score_existence_and_age s) <= 285 /\
  0 <= fst (score_security_and_integrity s) <= 300 /\
  0 <= fst (score_reputation_and_scale s) <= 190 /\
  0 <= fst (score_operational_maturity s) <= 150.
Proof.
  destruct (sub_scores_from_breakdown s) as (-> & -> & -> & ->).
  pose proof (existence_and_age_sum s).
  pose proof (security_and_integrity_sum s).
  pose proof (reputation_and_scale_sum s).
  pose proof (operational_maturity_sum s).
  unfold clamp, _EA_CAP, _SI_CAP, _RS_CAP, _OM_CAP. lia.
Qed.

(** What [apply_hard_caps] returns lies between 0 and its input. *)
Lemma apply_hard_caps_range (score : Z) (s : RawSignals) :
  0 <= score -> 0 <= fst (apply_hard_caps score s) <= score.
Proof.
  intros H. unfold apply_hard_caps.
  destruct (cond_sanctioned s), (cond_fraud s), (cond_gsb s),
    (cond_vt_high s), (cond_new_domain s); cbn; lia.
Qed.

(** Signals that take the best branch of every statement of the four
    category functions. *)
Definition best_case : RawSignals := {|
  target := "best.example";
  domain_age_days := 3651; whois_org := "Best Inc"; whois_registrar := "";
  domain_expiry_years_ahead := 3%Q;
  ssl_valid := true; ssl_cert_type := "EV"; ssl_org := "Best Inc";
  first_cert_days_ago := 1826; total_certs_issued := 6; cert_issuer := "";
  vt_malicious_count := 0; vt_suspicious_count := 0; vt_clean_count := 0;
  vt_community_score := 10; vt_categories := []; vt_queried := true;
  gsb_flagged := false; gsb_queried := true;
  dns_has_spf := true; dns_has_dmarc := true; dns_has_dkim := true;
  dns_has_dnssec := true; dns_has_mx := true;
  http_has_hsts := true; http_has_csp := true; http_has_xframe := true;
  http_has_xcontent_type := true; http_has_referrer_policy := true;
  http_has_permissions_policy := true; http_status := 200;
  has_wikipedia := true; has_wikidata := true; has_crunchbase := true;
  wikidata_employee_count := 0; wikidata_founding_year := 0;
  wikidata_industry := "";
  social_twitter := true; social_linkedin := true; social_github := true;
  social_facebook := true; social_youtube := false;
  social_instagram := false; social_count := 4;
  tranco_rank := 1;
  has_structured_data := true; has_org_schema := true;
  has_status_page := true; has_api_docs := true; has_changelog := true;
  has_security_txt := true; has_robots_txt := true;
  on_spam_blocklist := false; on_fraud_blocklist := false;
  on_sanctions_list := false;
  sources_queried := Examples.nine_sources;
  sources_responded := Examples.nine_sources;
  collection_errors := [];
  collection_time_ms := 0%Q
|}.

(** X1.  The composite score never exceeds 925, whatever the signals: the
    existence-and-age statements add up to 285 at best and the
    reputation-and-scale statements to 190, so the caps of 300 and 250 of
    these two categories never bind, and with 300 and 150 for the other two
    the total stops at 925.  The bound is attained, by [best_case]. *)
Theorem score_never_exceeds_925 :
  (forall s : RawSignals,
     let r := compute_score s in
     0 <= res_existence_age r <= 285 /\
     0 <= res_reputation_scale r <= 190 /\
     0 <= res_score r <= 925) /\
  res_score (compute_score best_case) = 925 /\
  res_grade (compute_score best_case) = AAA.
Proof.
  split; [| split; vm_compute; reflexivity].
  intros s r.
  destruct (EngineSpec.compute_score_fields s) as (Hea & _ & Hrs & _ & Hcap & _).
  fold r in Hea, Hrs, Hcap.
  pose proof (raw_score_range s) as (H1 & H2 & H3 & H4).
  assert (res_score r = fst (apply_hard_caps (raw_score s) s)) as ->
    by (rewrite <- Hcap; reflexivity).
  rewrite Hea, Hrs.
  assert (0 <= raw_score s <= 925) as Hraw by (unfold raw_score; lia).
  pose proof (apply_hard_caps_range (raw_score s) s (proj1 Hraw)).
  lia.
Qed.

(** X2.  An entity on the sanctions list is scored 0, graded D and
    rejected, with the reason SANCTIONED, whatever else is known about
    it. *)
Theorem sanctioned_scores_zero (s : RawSignals) :
  on_sanctions_list s = true ->
  let r := compute_score s in
  res_score r = 0 /\ res_grade r = D /\ res_recommendation r = REJECT /\
  res_cap_applied r = Some "SANCTIONED".
Proof.
  intros Hs r.
  destruct (EngineSpec.compute_score_fields s) as (_ & _ & _ & _ & Hcap & Hg & Hr & _).
  fold r in Hcap, Hg, Hr.
  unfold apply_hard_caps, cond_sanctioned in Hcap. rewrite Hs in Hcap.
  inversion Hcap as [[H0 H1]].
  rewrite Hg, Hr, H0. repeat split.
Qed.

(** The signals of [best_case] for an entity on the sanctions list. *)
Definition listed_best_case : RawSignals := {|
  target := "listed.example";
  domain_age_days := 3651; whois_org := "Best Inc"; whois_registrar := "";
  domain_expiry_years_ahead := 3%Q;
  ssl_valid := true; ssl_cert_type := "EV"; ssl_org := "Best Inc";
  first_cert_days_ago := 1826; total_certs_issued := 6; cert_issuer := "";
  vt_malicious_count := 0; vt_suspicious_count := 0; vt_clean_count := 0;
  vt_community_score := 10; vt_categories := []; vt_queried := true;
  gsb_flagged := false; gsb_queried := true;
  dns_has_spf := true; dns_has_dmarc := true; dns_has_dkim := true;
  dns_has_dnssec := true; dns_has_mx := true;
  http_has_hsts := true; http_has_csp := true; http_has_xframe := true;
  http_has_xcontent_type := true; http_has_referrer_policy := true;
  http_has_permissions_policy := true; http_status := 200;
  has_wikipedia := true; has_wikidata := true; has_crunchbase := true;
  wikidata_employee_count := 0; wikidata_founding_year := 0;
  wikidata_industry := "";
  social_twitter := true; social_linkedin := true; social_github := true;
  social_facebook := true; social_youtube := false;
  social_instagram := false; social_count := 4;
  tranco_rank := 1;
  has_structured_data := true; has_org_schema := true;
  has_status_page := true; has_api_docs := true; has_changelog := true;
  has_security_txt := true; has_robots_txt := true;
  on_spam_blocklist := false; on_fraud_blocklist := false;
  on_sanctions_list := true;
  sources_queried := Examples.nine_sources;
  sources_responded := Examples.nine_sources;
  collection_errors := [];
  collection_time_ms := 0%Q
|}.

Lemma sanctioned_scores_zero_witness :
  on_sanctions_list listed_best_case = true /\
  res_score (compute_score listed_best_case) = 0 /\
  res_grade (compute_score listed_best_case) = D.
Proof.
  assert (on_sanctions_list listed_best_case = true) as H by reflexivity.
  split; [exact H |].
  destruct (sanctioned_scores_zero listed_best_case H) as (H0 & H1 & _).
  split; [exact H0 | exact H1].
Defined.

(** X3.  Whenever a hard cap is reported the score is at most 200 and the
    entity is never recommended above enhanced due diligence: its grade is
    CCC or D and [is_verified] is false in the full response. *)
Theorem capped_never_above_due_diligence (s : RawSignals) :
  res_cap_applied (compute_score s) <> None ->
  let r := compute_score s in
  res_score r <= 200 /\
  (res_grade r = CCC \/ res_grade r = D) /\
  (res_recommendation r = ENHANCED_DUE_DILIGENCE \/ res_recommendation r = REJECT) /\
  PipelineV3.to_full r !! "is_verified" = Some (JBool false).
Proof.
  intros Hc r. fold r in Hc.
  destruct (EngineSpec.compute_score_fields s) as (_ & _ & _ & _ & Hcap & Hg & Hr & _).
  fold r in Hcap, Hg, Hr.
  assert (res_score r <= 200) as Hle.
  { revert Hcap Hc. unfold apply_hard_caps.
    destruct (cond_sanctioned s), (cond_fraud s), (cond_gsb s),
      (cond_vt_high s), (cond_new_domain s);
      intros Hcap Hc; inversion Hcap as [[H0 H1]];
      try lia; rewrite H1 in Hc; contradiction. }
  assert (PipelineV3.to_full r !! "is_verified"
          = Some (JBool (res_score r >=? 650))) as -> by reflexivity.
  rewrite Hg, Hr. unfold grade_of, recommendation_of.
  repeat match goal with
         | |- context [?a >=? ?b] => destruct (Z.geb_spec a b); try lia
         end; auto.
Qed.

Lemma capped_never_above_due_diligence_witness :
  res_cap_applied (compute_score Examples.flagged_newcomer) <> None /\
  res_score (compute_score Examples.flagged_newcomer) <= 200.
Proof.
  assert (res_cap_applied (compute_score Examples.flagged_newcomer) <> None) as H
    by (vm_compute; discriminate).
  split; [exact H |].
  exact (proj1 (capped_never_above_due_diligence Examples.flagged_newcomer H)).
Defined.

(** X4.  Grade, recommendation and [is_verified] always agree: PROCEED
    goes with the grades AAA, AA and A and with [is_verified], PROCEED
    WITH CAUTION with BBB and BB, MANUAL REVIEW with B, ENHANCED DUE
    DILIGENCE with CCC and REJECT with D. *)
Theorem grade_recommendation_bands (s : RawSignals) :
  let r := compute_score s in
  (res_recommendation r = PROCEED <-> In (res_grade r) [AAA; AA; A]) /\
  (res_recommendation r = PROCEED_WITH_CAUTION <-> In (res_grade r) [BBB; BB]) /\
  (res_recommendation r = MANUAL_REVIEW <-> res_grade r = B) /\
  (res_recommendation r = ENHANCED_DUE_DILIGENCE <-> res_grade r = CCC) /\
  (res_recommendation r = REJECT <-> res_grade r = D) /\
  (PipelineV3.to_full r !! "is_verified" = Some (JBool true)
   <-> res_recommendation r = PROCEED).
Proof.
  intros r.
  destruct (EngineSpec.compute_score_fields s) as (_ & _ & _ & _ & _ & Hg & Hr & _).
  fold r in Hg, Hr.
  assert (PipelineV3.to_full r !! "is_verified"
          = Some (JBool (res_score r >=? 650))) as -> by reflexivity.
  rewrite Hg, Hr. unfold grade_of, recommendation_of.
  repeat match goal with
         | |- context [?a >=? ?b] => destruct (Z.geb_spec a b); try lia
         end; cbn; intuition congruence.
Qed.

(** The order of the grades and of the recommendations, worst first. *)
Definition grade_rank (g : TrustGrade) : Z :=
  match g with
  | D => 0 | CCC => 1 | B => 2 | BB => 3 | BBB => 4 | A => 5 | AA => 6 | AAA => 7
  end.

Definition recommendation_rank (x : Recommendation) : Z :=
  match x with
  | REJECT => 0 | ENHANCED_DUE_DILIGENCE => 1 | MANUAL_REVIEW => 2
  | PROCEED_WITH_CAUTION => 3 | PROCEED => 4
  end.

(** X5.  A higher score before the overrides never gives a worse outcome
    for the same entity: the capped score, the grade and the recommendation
    are monotone in the score handed to [apply_hard_caps]. *)
Theorem higher_score_never_worse (n m : Z) (s : RawSignals) :
  n <= m ->
  let n' := fst (apply_hard_caps n s) in
  let m' := fst (apply_hard_caps m s) in
  n' <= m' /\
  snd (apply_hard_caps n s) = snd (apply_hard_caps m s) /\
  grade_rank (grade_of n') <= grade_rank (grade_of m') /\
  recommendation_rank (recommendation_of n') <= recommendation_rank (recommendation_of m').
Proof.
  intros Hnm n' m'.
  assert (n' <= m') as Hle.
  { subst n' m'. unfold apply_hard_caps.
    destruct (cond_sanctioned s), (cond_fraud s), (cond_gsb s),
      (cond_vt_high s), (cond_new_domain s); cbn; lia. }
  split; [exact Hle | split].
  - unfold apply_hard_caps.
    destruct (cond_sanctioned s), (cond_fraud s), (cond_gsb s),
      (cond_vt_high s), (cond_new_domain s); reflexivity.
  - clearbody n' m'. unfold grade_of, recommendation_of.
    split;
      repeat match goal with
             | |- context [?a >=? ?b] => destruct (Z.geb_spec a b); try lia
             end; cbn; lia.
Qed.

Lemma higher_score_never_worse_witness :
  300 <= 700 /\
  grade_rank (grade_of (fst (apply_hard_caps 300 Examples.example_safe)))
  <= grade_rank (grade_of (fst (apply_hard_caps 700 Examples.example_safe))).
Proof.
  assert (300 <= 700) as H by lia.
  split; [exact H |].
  exact (proj1 (proj2 (proj2 (higher_score_never_worse 300 700 Examples.example_safe H)))).
Defined.

(** The confidence label only counts the sources listed as responded:
    "high" from eight on, "moderate" for five to seven, "low" below. *)
Lemma confidence_label_of (s : RawSignals) :
  let n := Z.of_nat (length (sources_responded s)) in
  res_confidence_label (compute_score s)
  = if 8 <=? n then "high" else if 5 <=? n then "moderate" else "low".
Proof.
  intros n. unfold compute_score.
  destruct (score_existence_and_age s), (score_security_and_integrity s),
    (score_reputation_and_scale s), (score_operational_maturity s).
  destruct (apply_hard_caps _ s).
  cbn [res_confidence_label]. fold n.
  unfold total_sources. cbn [Z.gtb Z.compare Pos.compare Pos.compare_cont].
  unfold Qle_bool, Qdiv, Qmult, Qinv, inject_Z. cbn [Qnum Qden].
  destruct (Z.leb_spec 8 n), (Z.leb_spec 5 n);
    repeat match goal with
           | |- context [?a <=? ?b] => destruct (Z.leb_spec a b); try lia
           end; reflexivity.
Qed.


End EngineRange.

(* ===================================================================== *)
(** * app/compute/sensors.py: from sensor outputs to [RawSignals]         *)
(* ===================================================================== *)

Module SensorMapping.
Import TrustChain.
Import Engine.
Local Open Scope list_scope.

#[global] Instance Sensor_eq_dec : EqDecision Sensor.
Proof. solve_decision. Defined.

(** [results[sensor]] after the result loop: the last assignment to the
    key, if any. *)
Fixpoint results_lookup (results : list (Sensor * gmap string json)) (s : Sensor)
    : option (gmap string json) :=
  match results with
  | [] => None
  | (k, v) :: rest =>
      match results_lookup rest s with
      | Some later => Some later
      | None => if decide (k = s) then Some v else None
      end
  end.

(** [results.get(sensor, {})]. *)
Definition results_get (results : list (Sensor * gmap string json)) (s : Sensor)
    : gmap string json :=
  default ∅ (results_lookup results s).

(** [d.get(k, default)] read into a field of [RawSignals].  The record
    here holds a value of the declared type of the field only; [None]
    stands for a sensor output that carries a value of another type under
    the key. *)
Definition get_bool (d : gmap string json) (k : string) : option bool :=
  match d !! k with
  | None => Some false
  | Some (JBool b) => Some b
  | Some _ => None
  end.

Definition get_int (d : gmap string json) (k : string) : option Z :=
  match d !! k with
  | None => Some 0
  | Some (JInt n) => Some n
  | Some _ => None
  end.

Definition get_str (d : gmap string json) (k : string) : option string :=
  match d !! k with
  | None => Some ""
  | Some (JStr s) => Some s
  | Some _ => None
  end.

Definition get_float (d : gmap string json) (k : string) : option Q :=
  match d !! k with
  | None => Some 0%Q
  | Some (JFloat q) => Some q
  | Some (JInt n) => Some (inject_Z n)
  | Some _ => None
  end.

Definition get_strs (d : gmap string json) (k : string) : option (list string) :=
  match d !! k with
  | None => Some []
  | Some (JList l) =>
      mapM (fun x => match x with JStr s => Some s | _ => None end) l
  | Some _ => None
  end.

(** Lines 107 to 167 of [observe_entity]: the fields of
    [RawSignals(target=target)] assigned from the sensor outputs; the
    fields no line assigns keep their defaults. *)
Definition map_outputs (target_ : string)
    (results : list (Sensor * gmap string json)) (elapsed_ms : Q)
    : option RawSignals :=
  let tr := results_get results TRANCO in
  let ct := results_get results CRTSH in
  let vt := results_get results VIRUSTOTAL in
  let dn := results_get results DNS in
  let ht := results_get results HTTP_HEADERS in
  let wh := results_get results WHOIS in
  let kg := results_get results KNOWLEDGE_GRAPH in
  let wp := results_get results WEB_PRESENCE in
  let so := results_get results SOCIAL in
  tranco_rank_ ← get_int tr "tranco_rank";
  ssl_valid_ ← get_bool ct "ssl_valid";
  ssl_cert_type_ ← get_str ct "ssl_cert_type";
  ssl_org_ ← get_str ct "ssl_org";
  first_cert_days_ago_ ← get_int ct "first_cert_days_ago";
  total_certs_issued_ ← get_int ct "total_certs_issued";
  cert_issuer_ ← get_str ct "cert_issuer";
  vt_malicious_count_ ← get_int vt "vt_malicious_count";
  vt_suspicious_count_ ← get_int vt "vt_suspicious_count";
  vt_clean_count_ ← get_int vt "vt_clean_count";
  vt_community_score_ ← get_int vt "vt_community_score";
  vt_categories_ ← get_strs vt "vt_categories";
  vt_queried_ ← get_bool vt "vt_queried";
  dns_has_spf_ ← get_bool dn "dns_has_spf";
  dns_has_dmarc_ ← get_bool dn "dns_has_dmarc";
  dns_has_dkim_ ← get_bool dn "dns_has_dkim";
  dns_has_dnssec_ ← get_bool dn "dns_has_dnssec";
  dns_has_mx_ ← get_bool dn "dns_has_mx";
  http_has_hsts_ ← get_bool ht "http_has_hsts";
  http_has_csp_ ← get_bool ht "http_has_csp";
  http_has_xframe_ ← get_bool ht "http_has_xframe";
  http_has_xcontent_type_ ← get_bool ht "http_has_xcontent_type";
  http_has_referrer_policy_ ← get_bool ht "http_has_referrer_policy";
  http_has_permissions_policy_ ← get_bool ht "http_has_permissions_policy";
  http_status_ ← get_int ht "http_status";
  has_security_txt_ ← get_bool ht "has_security_txt";
  has_robots_txt_ ← get_bool ht "has_robots_txt";
  domain_age_days_ ← get_int wh "domain_age_days";
  whois_org_ ← get_str wh "whois_org";
  whois_registrar_ ← get_str wh "whois_registrar";
  domain_expiry_years_ahead_ ← get_float wh "domain_expiry_years_ahead";
  has_wikipedia_ ← get_bool kg "has_wikipedia";
  has_wikidata_ ← get_bool kg "has_wikidata";
  has_crunchbase_ ← get_bool kg "has_crunchbase";
  has_structured_data_ ← get_bool wp "has_structured_data";
  has_org_schema_ ← get_bool wp "has_org_schema";
  has_status_page_ ← get_bool wp "has_status_page";
  has_api_docs_ ← get_bool wp "has_api_docs";
  has_changelog_ ← get_bool wp "has_changelog";
  social_twitter_ ← get_bool so "social_twitter";
  social_linkedin_ ← get_bool so "social_linkedin";
  social_github_ ← get_bool so "social_github";
  social_facebook_ ← get_bool so "social_facebook";
  social_youtube_ ← get_bool so "social_youtube";
  social_instagram_ ← get_bool so "social_instagram";
  social_count_ ← get_int so "social_count";
  let d := RawSignals_default target_ in
  Some {|
    target := target_;
    domain_age_days := domain_age_days_;
    whois_org := whois_org_;
    whois_registrar := whois_registrar_;
    domain_expiry_years_ahead := domain_expiry_years_ahead_;
    ssl_valid := ssl_valid_;
    ssl_cert_type := ssl_cert_type_;
    ssl_org := ssl_org_;
    first_cert_days_ago := first_cert_days_ago_;
    total_certs_issued := total_certs_issued_;
    cert_issuer := cert_issuer_;
    vt_malicious_count := vt_malicious_count_;
    vt_suspicious_count := vt_suspicious_count_;
    vt_clean_count := vt_clean_count_;
    vt_community_score := vt_community_score_;
    vt_categories := vt_categories_;
    vt_queried := vt_queried_;
    gsb_flagged := gsb_flagged d;
    gsb_queried := gsb_queried d;
    dns_has_spf := dns_has_spf_;
    dns_has_dmarc := dns_has_dmarc_;
    dns_has_dkim := dns_has_dkim_;
    dns_has_dnssec := dns_has_dnssec_;
    dns_has_mx := dns_has_mx_;
    http_has_hsts := http_has_hsts_;
    http_has_csp := http_has_csp_;
    http_has_xframe := http_has_xframe_;
    http_has_xcontent_type := http_has_xcontent_type_;
    http_has_referrer_policy := http_has_referrer_policy_;
    http_has_permissions_policy := http_has_permissions_policy_;
    http_status := http_status_;
    has_wikipedia := has_wikipedia_;
    has_wikidata := has_wikidata_;
    has_crunchbase := has_crunchbase_;
    wikidata_employee_count := wikidata_employee_count d;
    wikidata_founding_year := wikidata_founding_year d;
    wikidata_industry := wikidata_industry d;
    social_twitter := social_twitter_;
    social_linkedin := social_linkedin_;
    social_github := social_github_;
    social_facebook := social_facebook_;
    social_youtube := social_youtube_;
    social_instagram := social_instagram_;
    social_count := social_count_;
    tranco_rank := tranco_rank_;
    has_structured_data := has_structured_data_;
    has_org_schema := has_org_schema_;
    has_status_page := has_status_page_;
    has_api_docs := has_api_docs_;
    has_changelog := has_changelog_;
    has_security_txt := has_security_txt_;
    has_robots_txt := has_robots_txt_;
    on_spam_blocklist := on_spam_blocklist d;
    on_fraud_blocklist := on_fraud_blocklist d;
    on_sanctions_list := on_sanctions_list d;
    sources_queried := [];
    sources_responded := sources_responded d;
    collection_errors := collection_errors d;
    collection_time_ms := elapsed_ms
  |}.

(** The [results] dictionary the result loop of [observe_entity] builds
    from what the launched sensors did. *)
Definition results_of (domain : string)
    (run : Sensor -> Sensors.CollectorOutcome * Q)
    : list (Sensor * gmap string json) :=
  let keys := Sensors.launched domain in
  let results_list :=
    map (fun s => Sensors.ItemTuple
                    (Sensors._timed_collect (Sensor_value s) (fst (run s)) (snd (run s))))
        keys in
  Sensors.c_results
    (Sensors.process_results keys results_list
       {| Sensors.c_responded := []; Sensors.c_errors := []; Sensors.c_results := [] |}).

(** [observe_entity(target)] as a whole, for [domain = parse_target(target)["domain"]]:
    the sensor outputs mapped into the record, then the metadata. *)
Definition observe (target_ domain : string)
    (run : Sensor -> Sensors.CollectorOutcome * Q) (elapsed_ms : Q)
    : option RawSignals :=
  mapped ← map_outputs target_ (results_of domain run) elapsed_ms;
  Some (Sensors.observe_entity mapped domain run).

(** What a launched sensor contributes to [results]: its return value, or
    the empty dictionary of the [except] branch of [_timed_collect]. *)
Definition output_of (o : Sensors.CollectorOutcome) : gmap string json :=
  match o with
  | Sensors.Returned result => result
  | Sensors.Raised _ => ∅
  | Sensors.TimedOut => ∅
  end.

Lemma process_results_results (run : Sensor -> Sensors.CollectorOutcome * Q)
    (keys : list Sensor) (acc : Sensors.Collected) :
  let items :=
    map (fun s => Sensors.ItemTuple
                    (Sensors._timed_collect (Sensor_value s) (fst (run s)) (snd (run s))))
        keys in
  Sensors.c_results (Sensors.process_results keys items acc)
  = Sensors.c_results acc ++ map (fun s => (s, output_of (fst (run s)))) keys /\
  Sensors.c_errors (Sensors.process_results keys items acc) = Sensors.c_errors acc.
Proof.
  revert acc. induction keys as [|k keys IH]; intros acc; cbn.
  - rewrite app_nil_r. split; reflexivity.
  - destruct (IH (
      match Sensors._timed_collect (Sensor_value k) (fst (run k)) (snd (run k)) with
      | (_, sigs, _) =>
          {| Sensors.c_responded := Sensors.c_responded acc ++ [Sensor_value k];
             Sensors.c_errors := Sensors.c_errors acc;
             Sensors.c_results := Sensors.c_results acc ++ [(k, sigs)] |}
      end)) as [IH1 IH2].
    cbv zeta in IH1, IH2.
    destruct (fst (run k)); cbn in IH1, IH2 |- *;
      rewrite IH1, IH2, <- app_assoc; split; reflexivity.
Qed.

(** [results.get(s, {})]: the output of [s] when it was launched, the
    empty dictionary when it was not. *)
Lemma results_get_launched (domain : string)
    (run : Sensor -> Sensors.CollectorOutcome * Q) (s : Sensor) :
  results_get (results_of domain run) s
  = if bool_decide (s ∈ Sensors.launched domain) then output_of (fst (run s)) else ∅.
Proof.
  unfold results_of.
  pose proof (process_results_results run (Sensors.launched domain)
    {| Sensors.c_responded := []; Sensors.c_errors := []; Sensors.c_results := [] |})
    as [-> _].
  unfold Sensors.launched.
  destruct (str_truthy domain); destruct s; reflexivity.
Qed.

(** Read a successful [map_outputs] back, one [get] at a time. *)
Ltac read_gets H :=
  repeat match type of H with
         | mbind _ ?x = Some _ =>
             let E := fresh "G" in
             destruct x eqn:E; cbn [mbind option_bind] in H; [| discriminate H]
         end.

Lemma observe_inv (target_ domain : string)
    (run : Sensor -> Sensors.CollectorOutcome * Q) (elapsed_ms : Q) (s : RawSignals) :
  observe target_ domain run elapsed_ms = Some s ->
  exists mapped,
    map_outputs target_ (results_of domain run) elapsed_ms = Some mapped /\
    s = Sensors.observe_entity mapped domain run.
Proof.
  unfold observe. intros H.
  destruct (map_outputs _ _ _) as [mapped|]; [| discriminate H].
  exists mapped. split; [reflexivity | ]. cbn in H. congruence.
Qed.

(** No line of [observe_entity] assigns the blocklist fields or the Safe
    Browsing fields. *)
Lemma map_outputs_untouched (target_ : string)
    (results : list (Sensor * gmap string json)) (elapsed_ms : Q) (m : RawSignals) :
  map_outputs target_ results elapsed_ms = Some m ->
  on_sanctions_list m = false /\ on_fraud_blocklist m = false /\
  on_spam_blocklist m = false /\ gsb_queried m = false /\ gsb_flagged m = false.
Proof.
  unfold map_outputs. cbv zeta. intros H. read_gets H.
  inversion H. repeat split.
Qed.

(** X6.  Signals that come out of [observe_entity] never carry a
    sanctions, fraud-blocklist, spam-blocklist or Safe Browsing finding, so
    of the five overrides only the VirusTotal one and the new-domain one can
    apply to them; no collection error is ever recorded and every sensor
    launched is listed as having responded. *)
Theorem observed_signals_meet_two_overrides_only (target_ domain : string)
    (run : Sensor -> Sensors.CollectorOutcome * Q) (elapsed_ms : Q) (s : RawSignals) :
  observe target_ domain run elapsed_ms = Some s ->
  on_sanctions_list s = false /\ on_fraud_blocklist s = false /\
  on_spam_blocklist s = false /\ gsb_queried s = false /\
  In (res_cap_applied (compute_score s))
     [None; Some "VIRUSTOTAL_HIGH_FLAGS"; Some "NEW_DOMAIN_NO_REPUTATION"] /\
  collection_errors s = [] /\
  sources_responded s = sources_queried s.
Proof.
  intros H. apply observe_inv in H as (m & Hm & ->).
  apply map_outputs_untouched in Hm as (H1 & H2 & H3 & H4 & H5).
  pose proof (process_results_results run (Sensors.launched domain)
    {| Sensors.c_responded := []; Sensors.c_errors := []; Sensors.c_results := [] |})
    as [_ Herr].
  pose proof (EngineSpec.observe_entity_sources m domain run) as [Hresp _].
  set (o := Sensors.observe_entity m domain run) in *.
  change (on_sanctions_list o) with (on_sanctions_list m).
  change (on_fraud_blocklist o) with (on_fraud_blocklist m).
  change (on_spam_blocklist o) with (on_spam_blocklist m).
  change (gsb_queried o) with (gsb_queried m).
  repeat (split; [assumption | ]).
  split; [| split; [exact Herr | exact Hresp]].
  destruct (EngineSpec.compute_score_fields o) as (_ & _ & _ & _ & Hcap & _).
  apply (f_equal snd) in Hcap. cbn [snd] in Hcap. rewrite Hcap.
  unfold apply_hard_caps, cond_sanctioned, cond_fraud, cond_gsb.
  change (on_sanctions_list o) with (on_sanctions_list m).
  change (on_fraud_blocklist o) with (on_fraud_blocklist m).
  change (gsb_queried o) with (gsb_queried m).
  rewrite H1, H2, H4. cbn [andb].
  destruct (cond_vt_high o), (cond_new_domain o); cbn; auto.
Qed.

Lemma observed_signals_meet_two_overrides_only_witness :
  exists s,
    observe "example.com" "example.com" Examples.all_answer 12 = Some s /\
    on_sanctions_list s = false /\ collection_errors s = [].
Proof.
  destruct (observe "example.com" "example.com" Examples.all_answer 12) as [s|] eqn:H;
    [| vm_compute in H; discriminate H].
  exists s. split; [reflexivity | ].
  destruct (observed_signals_meet_two_overrides_only "example.com" "example.com"
              Examples.all_answer 12 s H) as (Hs & _ & _ & _ & _ & He & _).
  split; [exact Hs | exact He].
Defined.

Lemma get_bool_empty (k : string) : get_bool ∅ k = Some false.
Proof. reflexivity. Qed.
Lemma get_int_empty (k : string) : get_int ∅ k = Some 0.
Proof. reflexivity. Qed.
Lemma get_str_empty (k : string) : get_str ∅ k = Some "".
Proof. reflexivity. Qed.
Lemma get_float_empty (k : string) : get_float ∅ k = Some 0%Q.
Proof. reflexivity. Qed.
Lemma get_strs_empty (k : string) : get_strs ∅ k = Some [].
Proof. reflexivity. Qed.

(** Without a domain only the knowledge-graph and social sensors
    contribute. *)
Lemma results_get_without_domain
    (run : Sensor -> Sensors.CollectorOutcome * Q) (s : Sensor) :
  results_get (results_of "" run) s
  = match s with
    | KNOWLEDGE_GRAPH | SOCIAL => output_of (fst (run s))
    | _ => ∅
    end.
Proof. rewrite results_get_launched. destruct s; reflexivity. Qed.

Ltac evaluate :=
  match goal with
  | |- _ <= ?t <= _ => let t' := eval vm_compute in t in change t with t'
  end.
Ltac branches :=
  repeat match goal with
         | |- context [if ?b then _ else _] => destruct b
         end.

(** X7.  A target for which [parse_target] finds no domain is always
    rejected: only the knowledge-graph and social sensors run, which can
    earn 100 points of existence and 60 of reputation at best, so whatever
    they return the score is at most 160, the grade D, the recommendation
    REJECT and the confidence label "low". *)
Theorem target_without_domain_is_rejected (target_ : string)
    (run : Sensor -> Sensors.CollectorOutcome * Q) (elapsed_ms : Q) (s : RawSignals) :
  observe target_ "" run elapsed_ms = Some s ->
  let r := compute_score s in
  sources_queried s = ["knowledge_graph"; "social"] /\
  res_security_integrity r = 0 /\ res_operational_maturity r = 0 /\
  0 <= res_score r <= 160 /\
  res_grade r = D /\ res_recommendation r = REJECT /\
  res_confidence_label r = "low".
Proof.
  intros H r. apply observe_inv in H as (m & Hm & Hs).
  unfold map_outputs in Hm. cbv zeta in Hm.
  rewrite !results_get_without_domain in Hm.
  rewrite ?get_bool_empty, ?get_int_empty, ?get_str_empty, ?get_float_empty,
    ?get_strs_empty in Hm.
  cbn [mbind option_bind] in Hm.
  read_gets Hm. inversion Hm as [Hm']. clear Hm. subst m.
  destruct (EngineSpec.compute_score_fields s)
    as (Hea & Hsi & Hrs & Hom & Hcap & Hg & Hr & _).
  fold r in Hea, Hsi, Hrs, Hom, Hcap, Hg, Hr.
  assert (0 <= fst (score_existence_and_age s) <= 100) as Bea
    by (rewrite Hs; evaluate; branches; lia).
  assert (fst (score_security_and_integrity s) = 0) as Bsi
    by (rewrite Hs; reflexivity).
  assert (0 <= fst (score_reputation_and_scale s) <= 60) as Brs
    by (rewrite Hs; evaluate; branches; lia).
  assert (fst (score_operational_maturity s) = 0) as Bom
    by (rewrite Hs; reflexivity).
  assert (0 <= res_score r <= 160) as Hscore.
  { assert (res_score r = fst (apply_hard_caps (raw_score s) s)) as ->
      by (rewrite <- Hcap; reflexivity).
    assert (0 <= raw_score s <= 160) as Hraw by (unfold raw_score; lia).
    pose proof (EngineRange.apply_hard_caps_range (raw_score s) s (proj1 Hraw)).
    lia. }
  split; [rewrite Hs; reflexivity | ].
  split; [congruence | split; [congruence | split; [exact Hscore | ]]].
  split; [| split].
  - rewrite Hg. unfold grade_of.
    repeat match goal with
           | |- context [?a >=? ?b] => destruct (Z.geb_spec a b); try lia
           end; reflexivity.
  - rewrite Hr. unfold recommendation_of.
    repeat match goal with
           | |- context [?a >=? ?b] => destruct (Z.geb_spec a b); try lia
           end; reflexivity.
  - unfold r. rewrite EngineRange.confidence_label_of, Hs.
    match goal with
    | |- context [Sensors.observe_entity ?m "" run] =>
        pose proof (EngineSpec.observe_entity_sources m "" run) as [Heq _]
    end.
    cbv zeta in Heq. rewrite Heq. reflexivity.
Qed.

Lemma target_without_domain_is_rejected_witness :
  exists s,
    observe "ab" "" Examples.all_answer 12 = Some s /\
    res_grade (compute_score s) = D /\
    res_recommendation (compute_score s) = REJECT.
Proof.
  destruct (observe "ab" "" Examples.all_answer 12) as [s|] eqn:H;
    [| vm_compute in H; discriminate H].
  exists s. split; [reflexivity | ].
  destruct (target_without_domain_is_rejected "ab" Examples.all_answer 12 s H)
    as (_ & _ & _ & _ & Hg & Hr & _).
  split; [exact Hg | exact Hr].
Defined.

(** X8.  When every sensor launched fails (raises, times out or returns
    an empty dictionary), [observe_entity] still returns signals, all at
    their defaults, and they score 0, grade D, REJECT with no cap reported;
    for a target with a domain the confidence label is nevertheless "high",
    since the nine failed sensors are listed as having responded. *)
Theorem all_sensors_failing_scores_zero (target_ domain : string)
    (run : Sensor -> Sensors.CollectorOutcome * Q) (elapsed_ms : Q) :
  (forall k, output_of (fst (run k)) = ∅) ->
  exists s,
    observe target_ domain run elapsed_ms = Some s /\
    res_score (compute_score s) = 0 /\
    res_grade (compute_score s) = D /\
    res_recommendation (compute_score s) = REJECT /\
    res_cap_applied (compute_score s) = None /\
    res_confidence_label (compute_score s)
    = (if str_truthy domain then "high" else "low") /\
    collection_errors s = [].
Proof.
  intros Hfail.
  assert (forall k, results_get (results_of domain run) k = ∅) as Hget.
  { intros k. rewrite results_get_launched, Hfail. destruct (bool_decide _); reflexivity. }
  unfold observe, map_outputs. cbv zeta. rewrite !Hget.
  rewrite ?get_bool_empty, ?get_int_empty, ?get_str_empty, ?get_float_empty,
    ?get_strs_empty.
  cbn [mbind option_bind].
  eexists. split; [reflexivity | ].
  match goal with
  | |- context [Sensors.observe_entity ?m domain run] =>
      pose proof (EngineSpec.observe_entity_sources m domain run) as [Heq _];
      pose proof (process_results_results run (Sensors.launched domain)
        {| Sensors.c_responded := []; Sensors.c_errors := []; Sensors.c_results := [] |})
        as [_ Herr];
      set (o := Sensors.observe_entity m domain run) in *
  end.
  destruct (EngineSpec.compute_score_fields o) as (_ & _ & _ & _ & Hcap & Hg & Hr & _).
  assert (apply_hard_caps (raw_score o) o = (0, None)) as Hzero by reflexivity.
  rewrite Hzero in Hcap. apply pair_equal_spec in Hcap as [H0 H1].
  rewrite Hg, Hr, H0, H1.
  repeat (split; [reflexivity | ]).
  split; [| exact Herr].
  rewrite EngineRange.confidence_label_of. cbv zeta in Heq. rewrite Heq.
  unfold o. cbn [sources_queried Sensors.observe_entity].
  unfold Sensors.launched. destruct (str_truthy domain); reflexivity.
Qed.

Lemma all_sensors_failing_scores_zero_witness :
  (forall k, output_of (fst (Examples.all_time_out k)) = ∅) /\
  exists s,
    observe "example.com" "example.com" Examples.all_time_out 15000 = Some s /\
    res_score (compute_score s) = 0 /\
    res_confidence_label (compute_score s) = "high".
Proof.
  assert (forall k, output_of (fst (Examples.all_time_out k)) = ∅) as H
    by (intros k; reflexivity).
  split; [exact H | ].
  destruct (all_sensors_failing_scores_zero "example.com" "example.com"
              Examples.all_time_out 15000 H) as (s & Hs & H0 & _ & _ & _ & Hl & _).
  exists s. split; [exact Hs | split; [exact H0 | exact Hl]].
Defined.

End SensorMapping.

(* ===================================================================== *)
(** * The circuit breaker over whole call sequences                       *)
(* ===================================================================== *)

Module BreakerRuns.
Import Pipeline.
Local Open Scope list_scope.

(** The failures recorded since the last success, over a sequence of
    calls. *)
Definition failures_in_a_row (evs : list BreakerEvent) : Z :=
  fold_left (fun n ev =>
               match ev with
               | EvCanExecute _ => n
               | EvSuccess => 0
               | EvFailure _ => n + 1
               end) evs 0.

(** The parameters of a breaker never change, and with a positive
    threshold it is closed exactly while fewer than [threshold] failures
    are counted. *)
Record settled (n : string) (th rt : Z) (k : Z) (b : CircuitBreaker) : Prop := {
  settled_name : name b = n;
  settled_threshold : threshold b = th;
  settled_timeout : recovery_timeout b = rt;
  settled_failures : failures b = k;
  settled_count : 0 <= k;
  settled_state : state b = closed <-> k < th
}.

Lemma settled_init (n : string) (th rt : Z) :
  0 < th -> settled n th rt 0 (CircuitBreaker_init n th rt).
Proof. intros H. split; cbn; try reflexivity; try lia. split; [lia | reflexivity]. Qed.

Lemma settled_step (n : string) (th rt k : Z) (b : CircuitBreaker) (ev : BreakerEvent) :
  0 < th -> settled n th rt k b ->
  settled n th rt
    (match ev with
     | EvCanExecute _ => k
     | EvSuccess => 0
     | EvFailure _ => k + 1
     end)
    (breaker_step b ev).
Proof.
  intros Hth [Hn Ht Hr Hf Hk Hs]. destruct ev as [now | | now]; cbn [breaker_step].
  - unfold can_execute. destruct (state b) eqn:E.
    + split; cbn [snd]; try assumption. rewrite E. exact Hs.
    + destruct (Qlt_bool _ _); cbn [snd]; split; cbn; try assumption;
        rewrite ?E; (split; [discriminate | ]);
        intros Hlt; apply Hs in Hlt; discriminate.
    + split; cbn [snd]; try assumption. rewrite E. exact Hs.
  - split; cbn; try assumption; try lia. split; [lia | reflexivity].
  - split; cbn; try assumption; try lia.
    rewrite Hf, Ht. destruct (Z.geb_spec (k + 1) th) as [Hge | Hlt].
    + split; [discriminate | lia].
    + split; [lia | ]. intros _. apply Hs. lia.
Qed.

Lemma settled_run (n : string) (th rt : Z) (evs : list BreakerEvent) :
  0 < th ->
  settled n th rt (failures_in_a_row evs)
    (breaker_run (CircuitBreaker_init n th rt) evs).
Proof.
  intros Hth. unfold failures_in_a_row, breaker_run.
  generalize (settled_init n th rt Hth).
  generalize (CircuitBreaker_init n th rt). generalize 0 at 1 3.
  induction evs as [| ev evs IH]; intros k b Hb; cbn [fold_left]; [exact Hb | ].
  apply IH. apply settled_step; assumption.
Qed.

(** X9.  Over any sequence of [can_execute], [record_success] and
    [record_failure] calls on a breaker with a positive threshold, the
    failure count is the number of failures since the last success, and the
    breaker is closed exactly while that number is below the threshold: a
    success always closes it, and only the [threshold]-th failure in a row
    opens it. *)
Theorem breaker_closed_iff_below_threshold (n : string) (th rt : Z)
    (evs : list BreakerEvent) :
  0 < th ->
  let b := breaker_run (CircuitBreaker_init n th rt) evs in
  failures b = failures_in_a_row evs /\
  (state b = closed <-> failures_in_a_row evs < th) /\
  threshold b = th /\ recovery_timeout b = rt.
Proof.
  intros Hth b. destruct (settled_run n th rt evs Hth) as [_ Ht Hr Hf _ Hs].
  repeat split; try assumption; apply Hs.
Qed.

Lemma breaker_closed_iff_below_threshold_witness :
  0 < 5 /\
  failures (breaker_run BreakerSpec.dns_breaker
              [EvFailure 1; EvFailure 2; EvSuccess; EvFailure 3; EvCanExecute 4]) = 1 /\
  state (breaker_run BreakerSpec.dns_breaker
           [EvFailure 1; EvFailure 2; EvSuccess; EvFailure 3; EvCanExecute 4]) = closed.
Proof.
  assert (0 < 5) as H by lia.
  split; [exact H | ].
  destruct (breaker_closed_iff_below_threshold "dns" 5 120
              [EvFailure 1; EvFailure 2; EvSuccess; EvFailure 3; EvCanExecute 4] H)
    as (Hf & Hs & _).
  split; [exact Hf | ].
  apply Hs. vm_compute. reflexivity.
Defined.

(** X10.  Trip and recovery.  Once the [threshold]-th failure in a row
    has been recorded at time [t], [can_execute] refuses every call made up
    to [recovery_timeout] seconds after [t] and leaves the breaker as it
    is; the first call made later than that is admitted and turns the
    breaker half-open, and a success recorded then closes it with the
    count back at zero. *)
Theorem breaker_trips_and_recovers (n : string) (th rt : Z)
    (evs : list BreakerEvent) (t later : Q) :
  0 < th ->
  failures_in_a_row evs = th - 1 ->
  let b := breaker_run (CircuitBreaker_init n th rt) (evs ++ [EvFailure t]) in
  state b = open /\
  ((later - t <= inject_Z rt)%Q -> can_execute later b = (false, b)) /\
  ((inject_Z rt < later - t)%Q ->
   fst (can_execute later b) = true /\
   state (snd (can_execute later b)) = half_open /\
   state (record_success (snd (can_execute later b))) = closed /\
   failures (record_success (snd (can_execute later b))) = 0).
Proof.
  intros Hth Hrow b.
  destruct (settled_run n th rt evs Hth) as [_ Ht Hr Hf _ _].
  assert (b = record_failure t (breaker_run (CircuitBreaker_init n th rt) evs)) as Hb.
  { unfold b, breaker_run. rewrite fold_left_app. reflexivity. }
  assert (state b = open) as Hopen.
  { rewrite Hb. unfold record_failure. cbn [state]. rewrite Hf, Ht, Hrow.
    destruct (Z.geb_spec (th - 1 + 1) th); [reflexivity | lia]. }
  assert (recovery_timeout b = rt) as Hrt by (rewrite Hb; exact Hr).
  assert (last_failure_time b = t) as Hlast by (rewrite Hb; reflexivity).
  split; [exact Hopen | ].
  unfold can_execute. rewrite Hopen, Hrt, Hlast. split.
  - intros Hle.
    destruct (Qlt_bool (inject_Z rt) (later - t)) eqn:E; [ | reflexivity].
    apply BreakerSpec.Qlt_bool_iff in E. exfalso. exact (Qlt_not_le _ _ E Hle).
  - intros Hlt. rewrite (proj2 (BreakerSpec.Qlt_bool_iff _ _) Hlt).
    repeat split.
Qed.

Lemma breaker_trips_and_recovers_witness :
  0 < 5 /\
  state BreakerSpec.tripped = open /\
  can_execute 1120 BreakerSpec.tripped = (false, BreakerSpec.tripped) /\
  fst (can_execute 1121 BreakerSpec.tripped) = true.
Proof.
  assert (0 < 5) as H by lia.
  assert (failures_in_a_row [EvFailure 996; EvFailure 997; EvFailure 998; EvFailure 999]
          = 5 - 1) as Hrow by reflexivity.
  split; [exact H | ].
  pose proof (breaker_trips_and_recovers "dns" 5 120
                [EvFailure 996; EvFailure 997; EvFailure 998; EvFailure 999]
                1000 1120 H Hrow) as (Ho & Hno & _).
  pose proof (breaker_trips_and_recovers "dns" 5 120
                [EvFailure 996; EvFailure 997; EvFailure 998; EvFailure 999]
                1000 1121 H Hrow) as (_ & _ & Hyes).
  split; [exact Ho | split].
  - apply Hno. vm_compute. discriminate.
  - apply Hyes. vm_compute. reflexivity.
Defined.

End BreakerRuns.

(* ===================================================================== *)
(** * The score cache: expiry, invalidation, the lock and outages         *)
(* ===================================================================== *)

Module CacheRuns.
Import Cache.
Local Open Scope list_scope.

(** [n] calls of [get] for one target, at the given times. *)
Fixpoint gets (sha256_hex : string -> string) (c : ScoreCache) (r : Redis)
    (times : list Q) (target : string)
    : ScoreCache * Redis * list (option (gmap string json)) :=
  match times with
  | [] => (c, r, [])
  | now :: times' =>
      let '(c1, r1, got) := Cache.get sha256_hex c r now target in
      let '(c2, r2, rest) := gets sha256_hex c1 r1 times' target in
      (c2, r2, got :: rest)
  end.

(** The cache object once its client exists. *)
Definition connected : ScoreCache := {| _enabled := true; _client := true |}.

Section Proofs.

Variable sha256_hex : string -> string.
Variables TTL_REGISTERED TTL_UNREGISTERED TTL_FAILED TTL_PREVIEW : Z.

Local Abbreviation get := (Cache.get sha256_hex).
Local Abbreviation set :=
  (Cache.set sha256_hex TTL_REGISTERED TTL_UNREGISTERED TTL_FAILED TTL_PREVIEW).
Local Abbreviation choose_ttl :=
  (Cache.choose_ttl TTL_REGISTERED TTL_UNREGISTERED TTL_FAILED TTL_PREVIEW).
Local Abbreviation key := (Cache._normalize_key sha256_hex).
Local Abbreviation invalidate := (Cache.invalidate sha256_hex).
Local Abbreviation acquire_lock := (Cache.acquire_lock sha256_hex).
Local Abbreviation release_lock := (Cache.release_lock sha256_hex).

(** With the cache enabled and the server answering, [_connect] leaves
    the cache object connected. *)
Lemma connect_up (c : ScoreCache) (r : Redis) :
  _enabled c = true -> reachable r = true -> _connect c r = (connected, true).
Proof.
  intros He Hr. unfold _connect. destruct c as [en cl]. cbn in He. subst en.
  cbn [_client _enabled]. destruct cl; [reflexivity | ]. rewrite Hr. reflexivity.
Qed.

Lemma Qlt_bool_false (a b : Q) : (b <= a)%Q -> Qlt_bool a b = false.
Proof.
  intros H. unfold Qlt_bool. apply negb_false_iff. apply Qle_bool_iff. exact H.
Qed.

(** [get] on an entry whose time-to-live is over. *)
Lemma get_expired (c : ScoreCache) (r : Redis) (now : Q) (target : string)
    (data : gmap string json) (expires : Q) :
  scores r !! key target = Some (data, expires) -> (expires <= now)%Q ->
  exists c', get c r now target = (c', r, None).
Proof.
  intros Hs Hle. unfold Cache.get, redis_get. rewrite Hs, (Qlt_bool_false _ _ Hle).
  repeat case_match; simplify_eq; eexists; reflexivity.
Qed.

(** [invalidate] with the server answering. *)
Lemma invalidate_deletes (c : ScoreCache) (r : Redis) (now : Q) (target : string) :
  _enabled c = true -> reachable r = true ->
  invalidate c r now target
  = (connected, with_scores r (delete (key target) (scores r)),
     match scores r !! key target with
     | Some (_, expires) => Qlt_bool now expires
     | None => false
     end).
Proof.
  intros He Hr. unfold Cache.invalidate. rewrite He, (connect_up c r He Hr).
  cbn [negb]. rewrite Hr. cbn [negb]. unfold redis_get. rewrite Hr. cbn [negb].
  destruct (scores r !! key target) as [[data expires]|]; [ | reflexivity].
  destruct (Qlt_bool now expires); reflexivity.
Qed.

(** [acquire_lock] with the server answering. *)
Lemma acquire_lock_answer (c : ScoreCache) (r : Redis) (now : Q) (target : string) :
  _enabled c = true -> reachable r = true ->
  acquire_lock c r now target
  = match locks r !! key target with
    | Some expires =>
        if Qlt_bool now expires then (connected, r, false)
        else (connected,
              with_locks r (<[key target := (now + inject_Z LOCK_TTL)%Q]> (locks r)),
              true)
    | None =>
        (connected,
         with_locks r (<[key target := (now + inject_Z LOCK_TTL)%Q]> (locks r)), true)
    end.
Proof.
  intros He Hr. unfold Cache.acquire_lock. rewrite He, (connect_up c r He Hr).
  cbn [negb]. rewrite Hr. cbn [negb].
  destruct (locks r !! key target) as [expires|]; [ | reflexivity].
  destruct (Qlt_bool now expires); reflexivity.
Qed.

Lemma release_lock_answer (c : ScoreCache) (r : Redis) (target : string) :
  _enabled c = true -> reachable r = true ->
  release_lock c r target = (connected, with_locks r (delete (key target) (locks r))).
Proof.
  intros He Hr. unfold Cache.release_lock. rewrite He, (connect_up c r He Hr).
  cbn [negb]. rewrite Hr. reflexivity.
Qed.

(** A hit: the stored document comes back and the hit counter of the
    metadata hash goes up by one. *)
Lemma get_hit (c : ScoreCache) (r : Redis) (now : Q) (target : string)
    (data fields : gmap string json) (expires mexpires : Q) (hits : Z) :
  _enabled c = true -> _client c = true -> reachable r = true ->
  scores r !! key target = Some (data, expires) ->
  (now < expires)%Q ->
  metas r !! key target = Some (fields, Some mexpires) ->
  (now < mexpires)%Q ->
  fields !! "hits" = Some (JInt hits) ->
  get c r now target
  = (c,
     with_metas r (<[key target := (<["hits" := JInt (hits + 1)]> fields, Some mexpires)]>
                     (metas r)),
     Some (<["_cache" := JStr "hit"]> data)).
Proof.
  intros He Hc Hr Hs Hlt Hm Hmlt Hh. unfold Cache.get.
  rewrite He. cbn [negb]. unfold _connect. rewrite Hc. cbn [negb].
  unfold redis_get. rewrite Hr, Hs. cbn [negb].
  rewrite (proj2 (BreakerSpec.Qlt_bool_iff _ _) Hlt).
  unfold redis_hincrby_hits. rewrite Hr, Hm. cbn [negb].
  rewrite (proj2 (BreakerSpec.Qlt_bool_iff _ _) Hmlt), Hh. reflexivity.
Qed.

Lemma gets_hit (c : ScoreCache) (r : Redis) (times : list Q) (target : string)
    (data fields : gmap string json) (expires mexpires : Q) (hits : Z) :
  _enabled c = true -> _client c = true -> reachable r = true ->
  scores r !! key target = Some (data, expires) ->
  metas r !! key target = Some (fields, Some mexpires) ->
  fields !! "hits" = Some (JInt hits) ->
  Forall (fun now => (now < expires)%Q /\ (now < mexpires)%Q) times ->
  exists r' fields',
    gets sha256_hex c r times target
    = (c, r', replicate (length times) (Some (<["_cache" := JStr "hit"]> data))) /\
    scores r' = scores r /\
    metas r' !! key target = Some (fields', Some mexpires) /\
    fields' !! "hits" = Some (JInt (hits + Z.of_nat (length times))).
Proof.
  intros He Hc. revert r fields hits.
  induction times as [| now times IH]; intros r fields hits Hr Hs Hm Hh Hall.
  - exists r, fields. cbn. rewrite Z.add_0_r. repeat split; assumption.
  - apply Forall_cons in Hall as [[Hlt Hmlt] Hall].
    cbn [gets].
    rewrite (get_hit c r now target data fields expires mexpires hits
               He Hc Hr Hs Hlt Hm Hmlt Hh).
    destruct (IH (with_metas r
                    (<[key target := (<["hits" := JInt (hits + 1)]> fields, Some mexpires)]>
                       (metas r)))
                 (<["hits" := JInt (hits + 1)]> fields) (hits + 1) Hr Hs
                 ltac:(cbn [metas with_metas]; apply lookup_insert_eq)
                 ltac:(apply lookup_insert_eq) Hall)
      as (r' & fields' & -> & Hs' & Hm' & Hh').
    exists r', fields'. split; [reflexivity | ].
    split; [exact Hs' | split; [exact Hm' | ]].
    rewrite Hh'. do 2 f_equal. cbn [length]. lia.
Qed.

End Proofs.

(** X11.  A cached score expires: [set] followed by [get] once the
    time-to-live of the tier is over is a miss, and that [get] changes
    nothing in Redis. *)
Theorem cached_score_expires
    (sha256_hex : string -> string)
    (TTL_REGISTERED TTL_UNREGISTERED TTL_FAILED TTL_PREVIEW : Z)
    (c : ScoreCache) (r : Redis) (now now' : Q) (target : string)
    (result : gmap string json) (is_registered is_preview failed : bool) :
  _enabled c = true -> reachable r = true ->
  0 < Cache.choose_ttl TTL_REGISTERED TTL_UNREGISTERED TTL_FAILED TTL_PREVIEW
        is_registered is_preview failed ->
  (now + inject_Z (Cache.choose_ttl TTL_REGISTERED TTL_UNREGISTERED TTL_FAILED
                     TTL_PREVIEW is_registered is_preview failed) <= now')%Q ->
  let '(c1, r1, _, ok) :=
    Cache.set sha256_hex TTL_REGISTERED TTL_UNREGISTERED TTL_FAILED TTL_PREVIEW
      c r now target result is_registered is_preview failed in
  let '(c2, r2, got) := Cache.get sha256_hex c1 r1 now' target in
  ok = true /\ got = None /\ r2 = r1.
Proof.
  intros He Hr Httl Hle.
  destruct (CacheSpec.set_stores sha256_hex TTL_REGISTERED TTL_UNREGISTERED TTL_FAILED
              TTL_PREVIEW c r now target result is_registered is_preview failed
              He Hr Httl)
    as (c1 & r1 & -> & He1 & Hc1 & Hr1 & _ & Hs1 & _).
  destruct (get_expired sha256_hex c1 r1 now' target _ _
              ltac:(rewrite Hs1; apply lookup_insert_eq) Hle) as (c2 & ->).
  repeat split.
Qed.

Lemma cached_score_expires_witness :
  let '(c1, r1, _, ok) :=
    Cache.set CacheSpec.hex_stub 3600 21600 300 86400 ScoreCache_init
      CacheSpec.empty_redis 0 "example.com" CacheSpec.sample_result false false true in
  let '(c2, r2, got) := Cache.get CacheSpec.hex_stub c1 r1 300 "example.com" in
  ok = true /\ got = None.
Proof.
  pose proof (cached_score_expires CacheSpec.hex_stub 3600 21600 300 86400
                ScoreCache_init CacheSpec.empty_redis 0 300 "example.com"
                CacheSpec.sample_result false false true eq_refl eq_refl eq_refl
                ltac:(vm_compute; discriminate)) as H.
  destruct (Cache.set _ _ _ _ _ _ _ _ _ _ _ _) as [[[c1 r1] data] ok].
  destruct (Cache.get _ _ _ _ _) as [[c2 r2] got].
  destruct H as (Hok & Hgot & _). split; assumption.
Defined.

(** X12.  [invalidate] forces a miss: with the cache enabled and the
    server answering it reports whether a live score was stored for the
    target, and whatever was stored, every later [get] for the target is a
    miss until the next [set]. *)
Theorem invalidate_forces_a_miss
    (sha256_hex : string -> string)
    (c : ScoreCache) (r : Redis) (now now' : Q) (target : string) :
  _enabled c = true -> reachable r = true ->
  let '(c1, r1, ok) := Cache.invalidate sha256_hex c r now target in
  ok = match scores r !! Cache._normalize_key sha256_hex target with
       | Some (_, expires) => Qlt_bool now expires
       | None => false
       end /\
  snd (Cache.get sha256_hex c1 r1 now' target) = None /\
  metas r1 = metas r /\ locks r1 = locks r.
Proof.
  intros He Hr.
  rewrite (invalidate_deletes sha256_hex c r now target He Hr).
  split; [reflexivity | split; [ | split; reflexivity]].
  apply PipelineSpec.get_without_score. cbn [scores with_scores].
  apply lookup_delete_eq.
Qed.

Lemma invalidate_forces_a_miss_witness :
  let '(c0, r0, _, _) :=
    Cache.set CacheSpec.hex_stub 3600 21600 300 86400 ScoreCache_init
      CacheSpec.empty_redis 0 "example.com" CacheSpec.sample_result false false false in
  let '(c1, r1, ok) := Cache.invalidate CacheSpec.hex_stub c0 r0 1 "example.com" in
  ok = true /\ snd (Cache.get CacheSpec.hex_stub c1 r1 2 "example.com") = None.
Proof.
  destruct (CacheSpec.set_stores CacheSpec.hex_stub 3600 21600 300 86400
              ScoreCache_init CacheSpec.empty_redis 0 "example.com"
              CacheSpec.sample_result false false false eq_refl eq_refl eq_refl)
    as (c0 & r0 & -> & He0 & _ & Hr0 & _ & Hs0 & _).
  pose proof (invalidate_forces_a_miss CacheSpec.hex_stub c0 r0 1 2 "example.com"
                He0 Hr0) as H.
  destruct (Cache.invalidate _ _ _ _ _) as [[c1 r1] ok].
  destruct H as (Hok & Hmiss & _).
  split; [ | exact Hmiss].
  rewrite Hok, Hs0, lookup_insert_eq. reflexivity.
Defined.

(** X13.  The compute lock is exclusive for [LOCK_TTL] = 30 seconds: once
    [acquire_lock] has granted the lock at time [now], a request for the
    same target made before [now + 30] is refused and changes nothing; a
    request made from [now + 30] on is granted again, and so is any request
    made after [release_lock]. *)
Theorem lock_is_exclusive_until_released_or_expired
    (sha256_hex : string -> string)
    (c : ScoreCache) (r : Redis) (now now' : Q) (target : string) :
  _enabled c = true -> reachable r = true ->
  let '(c1, r1, granted) := Cache.acquire_lock sha256_hex c r now target in
  granted = true ->
  ((now' < now + inject_Z LOCK_TTL)%Q ->
   snd (Cache.acquire_lock sha256_hex c1 r1 now' target) = false /\
   snd (fst (Cache.acquire_lock sha256_hex c1 r1 now' target)) = r1) /\
  ((now + inject_Z LOCK_TTL <= now')%Q ->
   snd (Cache.acquire_lock sha256_hex c1 r1 now' target) = true) /\
  (let '(c2, r2) := Cache.release_lock sha256_hex c1 r1 target in
   snd (Cache.acquire_lock sha256_hex c2 r2 now' target) = true).
Proof.
  intros He Hr.
  rewrite (acquire_lock_answer sha256_hex c r now target He Hr).
  assert (forall r1 : Redis,
            reachable r1 = true ->
            locks r1 !! Cache._normalize_key sha256_hex target
            = Some (now + inject_Z LOCK_TTL)%Q ->
            ((now' < now + inject_Z LOCK_TTL)%Q ->
             snd (Cache.acquire_lock sha256_hex connected r1 now' target) = false /\
             snd (fst (Cache.acquire_lock sha256_hex connected r1 now' target)) = r1) /\
            ((now + inject_Z LOCK_TTL <= now')%Q ->
             snd (Cache.acquire_lock sha256_hex connected r1 now' target) = true) /\
            (let '(c2, r2) := Cache.release_lock sha256_hex connected r1 target in
             snd (Cache.acquire_lock sha256_hex c2 r2 now' target) = true)) as Hheld.
  { intros r1 Hr1 Hl.
    pose proof (acquire_lock_answer sha256_hex connected r1 now' target eq_refl Hr1)
      as Hacq.
    rewrite Hl in Hacq.
    split; [ | split].
    - intros Hlt. rewrite Hacq, (proj2 (BreakerSpec.Qlt_bool_iff _ _) Hlt).
      split; reflexivity.
    - intros Hle. rewrite Hacq, (Qlt_bool_false _ _ Hle). reflexivity.
    - rewrite (release_lock_answer sha256_hex connected r1 target eq_refl Hr1).
      rewrite (acquire_lock_answer sha256_hex connected
                 (with_locks r1 (delete (Cache._normalize_key sha256_hex target) (locks r1)))
                 now' target eq_refl Hr1).
      cbn [locks with_locks]. rewrite lookup_delete_eq. reflexivity. }
  destruct (locks r !! Cache._normalize_key sha256_hex target) as [expires|] eqn:El.
  - destruct (Qlt_bool now expires); [discriminate | ].
    intros _. apply Hheld; [exact Hr | ].
    cbn [locks with_locks]. apply lookup_insert_eq.
  - intros _. apply Hheld; [exact Hr | ].
    cbn [locks with_locks]. apply lookup_insert_eq.
Qed.

Lemma lock_is_exclusive_until_released_or_expired_witness :
  let '(c1, r1, granted) :=
    Cache.acquire_lock CacheSpec.hex_stub ScoreCache_init CacheSpec.empty_redis 0
      "example.com" in
  granted = true /\
  snd (Cache.acquire_lock CacheSpec.hex_stub c1 r1 29 "example.com") = false.
Proof.
  pose proof (lock_is_exclusive_until_released_or_expired CacheSpec.hex_stub
                ScoreCache_init CacheSpec.empty_redis 0 29 "example.com"
                eq_refl eq_refl) as H.
  destruct (Cache.acquire_lock _ _ _ _ _) as [[c1 r1] granted] eqn:E.
  assert (granted = true) as Hg by (vm_compute in E; congruence).
  split; [exact Hg | ].
  destruct (H Hg) as (Hheld & _). apply Hheld. vm_compute. reflexivity.
Defined.

(** The cache object after a failed connection attempt. *)
Definition switched_off : ScoreCache := {| _enabled := false; _client := false |}.

(** X14.  A failed first connection switches the cache off for good.  If
    Redis does not answer when a cache object that has no client yet is
    first used, that call is a miss ([get]), stores nothing ([set],
    [invalidate]) or grants the lock ([acquire_lock]), and leaves the
    object disabled; from then on every call does the same without looking
    at Redis, also once the server answers again. *)
Theorem failed_connection_switches_cache_off
    (sha256_hex : string -> string)
    (TTL_REGISTERED TTL_UNREGISTERED TTL_FAILED TTL_PREVIEW : Z)
    (c : ScoreCache) (r : Redis) (now : Q) (target : string)
    (result : gmap string json) (is_registered is_preview failed : bool) :
  _client c = false -> reachable r = false ->
  Cache.get sha256_hex c r now target = (switched_off, r, None) /\
  Cache.set sha256_hex TTL_REGISTERED TTL_UNREGISTERED TTL_FAILED TTL_PREVIEW
    c r now target result is_registered is_preview failed
  = (switched_off, r, result, false) /\
  Cache.invalidate sha256_hex c r now target = (switched_off, r, false) /\
  Cache.acquire_lock sha256_hex c r now target = (switched_off, r, true) /\
  Cache.release_lock sha256_hex c r target = (switched_off, r) /\
  forall (r' : Redis) (now' : Q) (target' : string) (result' : gmap string json)
         (is_registered' is_preview' failed' : bool),
    Cache.get sha256_hex switched_off r' now' target' = (switched_off, r', None) /\
    Cache.set sha256_hex TTL_REGISTERED TTL_UNREGISTERED TTL_FAILED TTL_PREVIEW
      switched_off r' now' target' result' is_registered' is_preview' failed'
    = (switched_off, r', result', false) /\
    Cache.invalidate sha256_hex switched_off r' now' target' = (switched_off, r', false) /\
    Cache.acquire_lock sha256_hex switched_off r' now' target' = (switched_off, r', true) /\
    Cache.release_lock sha256_hex switched_off r' target' = (switched_off, r').
Proof.
  intros Hc Hr. destruct c as [en cl]. cbn in Hc. subst cl.
  unfold Cache.get, Cache.set, Cache.invalidate, Cache.acquire_lock,
    Cache.release_lock, _connect.
  cbn [_enabled _client]. rewrite Hr.
  destruct en; cbn [negb]; repeat split.
Qed.

Definition silent_redis : Redis :=
  {| reachable := false; scores := ∅; metas := ∅; locks := ∅ |}.

Lemma failed_connection_switches_cache_off_witness :
  Cache.get CacheSpec.hex_stub ScoreCache_init silent_redis 0 "example.com"
  = (switched_off, silent_redis, None) /\
  Cache.get CacheSpec.hex_stub switched_off CacheSpec.empty_redis 1 "example.com"
  = (switched_off, CacheSpec.empty_redis, None).
Proof.
  destruct (failed_connection_switches_cache_off CacheSpec.hex_stub 3600 21600 300 86400
              ScoreCache_init silent_redis 0 "example.com" CacheSpec.sample_result
              false false false eq_refl eq_refl) as (Hget & _ & _ & _ & _ & Hlater).
  split; [exact Hget | ].
  exact (proj1 (Hlater CacheSpec.empty_redis 1%Q "example.com" CacheSpec.sample_result
                  false false false)).
Defined.

(** X15.  The hit counter counts the hits: after [set], any number of
    [get] calls for the target made before the time-to-live is over all
    return the stored document, leave the stored score alone, and the
    [hits] field of the metadata hash ends at the number of those calls. *)
Theorem hits_count_the_gets
    (sha256_hex : string -> string)
    (TTL_REGISTERED TTL_UNREGISTERED TTL_FAILED TTL_PREVIEW : Z)
    (c : ScoreCache) (r : Redis) (now : Q) (times : list Q) (target : string)
    (result : gmap string json) (is_registered is_preview failed : bool) :
  _enabled c = true -> reachable r = true ->
  0 < Cache.choose_ttl TTL_REGISTERED TTL_UNREGISTERED TTL_FAILED TTL_PREVIEW
        is_registered is_preview failed ->
  Forall (fun now' =>
            (now' < now + inject_Z (Cache.choose_ttl TTL_REGISTERED TTL_UNREGISTERED
                                      TTL_FAILED TTL_PREVIEW is_registered is_preview
                                      failed))%Q) times ->
  let '(c1, r1, data, _) :=
    Cache.set sha256_hex TTL_REGISTERED TTL_UNREGISTERED TTL_FAILED TTL_PREVIEW
      c r now target result is_registered is_preview failed in
  let '(c2, r2, got) := gets sha256_hex c1 r1 times target in
  got = replicate (length times) (Some (<["_cache" := JStr "hit"]> data)) /\
  scores r2 = scores r1 /\
  exists fields expires,
    metas r2 !! Cache._normalize_key sha256_hex target = Some (fields, expires) /\
    fields !! "hits" = Some (JInt (Z.of_nat (length times))).
Proof.
  intros He Hr Httl Hall.
  destruct (CacheSpec.set_stores sha256_hex TTL_REGISTERED TTL_UNREGISTERED TTL_FAILED
              TTL_PREVIEW c r now target result is_registered is_preview failed
              He Hr Httl)
    as (c1 & r1 & -> & He1 & Hc1 & Hr1 & _ & Hs1 & fields & Hm1 & Hh1).
  destruct (gets_hit sha256_hex c1 r1 times target _ fields _ _ 0 He1 Hc1 Hr1
              ltac:(rewrite Hs1; apply lookup_insert_eq) Hm1 Hh1)
    as (r2 & fields2 & -> & Hs2 & Hm2 & Hh2).
  { eapply Forall_impl; [exact Hall | ]. intros t Ht.
    split; [exact Ht | apply CacheSpec.meta_outlives, Ht]. }
  split; [reflexivity | split; [exact Hs2 | ]].
  eexists fields2, _. split; [exact Hm2 | exact Hh2].
Qed.

Lemma hits_count_the_gets_witness :
  let '(c1, r1, data, _) :=
    Cache.set CacheSpec.hex_stub 3600 21600 300 86400 ScoreCache_init
      CacheSpec.empty_redis 0 "example.com" CacheSpec.sample_result false false false in
  let '(c2, r2, got) := gets CacheSpec.hex_stub c1 r1 [1; 2; 3]%Q "example.com" in
  exists fields expires,
    metas r2 !! Cache._normalize_key CacheSpec.hex_stub "example.com"
    = Some (fields, expires) /\
    fields !! "hits" = Some (JInt 3).
Proof.
  pose proof (hits_count_the_gets CacheSpec.hex_stub 3600 21600 300 86400
                ScoreCache_init CacheSpec.empty_redis 0 [1; 2; 3]%Q "example.com"
                CacheSpec.sample_result false false false eq_refl eq_refl eq_refl) as H.
  destruct (Cache.set _ _ _ _ _ _ _ _ _ _ _ _) as [[[c1 r1] data] ok].
  destruct (gets _ _ _ _ _) as [[c2 r2] got].
  destruct H as (_ & _ & H).
  - repeat (apply List.Forall_cons; [vm_compute; reflexivity | ]). apply List.Forall_nil.
  - exact H.
Defined.

(** Redis holds the same score, metadata and lock under the key [k] in
    [r] and in [r']. *)
Definition untouched_at (k : string) (r r' : Redis) : Prop :=
  scores r' !! k = scores r !! k /\ metas r' !! k = metas r !! k /\
  locks r' !! k = locks r !! k /\ reachable r' = reachable r.

Ltac untouched :=
  unfold untouched_at;
  repeat case_match; simplify_eq;
  cbn [fst snd scores metas locks reachable with_scores with_metas with_locks];
  rewrite ?lookup_insert_ne, ?lookup_delete_ne by congruence;
  repeat split.

(** X16.  Every cache operation touches the entries of its own target
    only: whatever the state of the cache and of Redis, [get], [set],
    [invalidate], [acquire_lock] and [release_lock] for one target leave
    the score, the metadata and the lock of every target with another
    normalised key as they were. *)
Theorem operations_touch_one_target
    (sha256_hex : string -> string)
    (TTL_REGISTERED TTL_UNREGISTERED TTL_FAILED TTL_PREVIEW : Z)
    (c : ScoreCache) (r : Redis) (now : Q) (target other : string)
    (result : gmap string json) (is_registered is_preview failed : bool) :
  Cache._normalize_key sha256_hex target <> Cache._normalize_key sha256_hex other ->
  let k := Cache._normalize_key sha256_hex other in
  untouched_at k r (snd (fst (Cache.get sha256_hex c r now target))) /\
  untouched_at k r
    (snd (fst (fst (Cache.set sha256_hex TTL_REGISTERED TTL_UNREGISTERED TTL_FAILED
                      TTL_PREVIEW c r now target result is_registered is_preview
                      failed)))) /\
  untouched_at k r (snd (fst (Cache.invalidate sha256_hex c r now target))) /\
  untouched_at k r (snd (fst (Cache.acquire_lock sha256_hex c r now target))) /\
  untouched_at k r (snd (Cache.release_lock sha256_hex c r target)).
Proof.
  intros Hne k. subst k.
  split; [ | split; [ | split; [ | split]]].
  - unfold Cache.get, redis_get, redis_hincrby_hits. untouched.
  - unfold Cache.set, redis_setex, redis_hset_expire. untouched.
  - unfold Cache.invalidate, redis_get. untouched.
  - unfold Cache.acquire_lock. untouched.
  - unfold Cache.release_lock. untouched.
Qed.

Lemma operations_touch_one_target_witness :
  Cache._normalize_key CacheSpec.hex_stub "a.example"
  <> Cache._normalize_key CacheSpec.hex_stub "b.example" /\
  untouched_at (Cache._normalize_key CacheSpec.hex_stub "b.example")
    CacheSpec.empty_redis
    (snd (fst (fst (Cache.set CacheSpec.hex_stub 3600 21600 300 86400 ScoreCache_init
                      CacheSpec.empty_redis 0 "a.example" CacheSpec.sample_result
                      false false false)))).
Proof.
  assert (Cache._normalize_key CacheSpec.hex_stub "a.example"
          <> Cache._normalize_key CacheSpec.hex_stub "b.example") as H
    by (vm_compute; discriminate).
  split; [exact H | ].
  exact (proj1 (proj2 (operations_touch_one_target CacheSpec.hex_stub 3600 21600 300
                         86400 ScoreCache_init CacheSpec.empty_redis 0%Q "a.example"
                         "b.example" CacheSpec.sample_result false false false H))).
Defined.

End CacheRuns.

(* ===================================================================== *)
(** * The cache key: which targets share an entry                         *)
(* ===================================================================== *)

Module KeyNormal.
Import Cache.

(** The string [_normalize_key] hashes. *)
Definition clean (target : string) : string :=
  rstrip_with (Ascii.eqb "/"%char)
    (strip_prefix "www."
       (strip_prefix "http://"
          (strip_prefix "https://" (py_lower (py_strip target))))).

Lemma normalize_key_clean (sha256_hex : string -> string) (target : string) :
  _normalize_key sha256_hex target = py_prefix 24 (sha256_hex (clean target)).
Proof. reflexivity. Qed.

Lemma lower_ascii_idem (c : ascii) : lower_ascii (lower_ascii c) = lower_ascii c.
Proof. destruct c as [[] [] [] [] [] [] [] []]; reflexivity. Qed.

Lemma is_space_lower (c : ascii) : is_space (lower_ascii c) = is_space c.
Proof. destruct c as [[] [] [] [] [] [] [] []]; reflexivity. Qed.

Lemma py_lower_idem (s : string) : py_lower (py_lower s) = py_lower s.
Proof.
  induction s as [| c s IH]; [reflexivity | ].
  cbn. rewrite lower_ascii_idem, IH. reflexivity.
Qed.

Lemma app_cons (c : ascii) (s t : string) : String c s ++ t = String c (s ++ t).
Proof. reflexivity. Qed.


Lemma str_truthy_lower (s : string) : str_truthy (py_lower s) = str_truthy s.
Proof. destruct s; reflexivity. Qed.

Lemma lstrip_lower (s : string) :
  lstrip_with is_space (py_lower s) = py_lower (lstrip_with is_space s).
Proof.
  induction s as [| c s IH]; [reflexivity | ].
  cbn. rewrite is_space_lower. destruct (is_space c); [exact IH | reflexivity].
Qed.

Lemma rstrip_lower (s : string) :
  rstrip_with is_space (py_lower s) = py_lower (rstrip_with is_space s).
Proof.
  induction s as [| c s IH]; [reflexivity | ].
  cbn. rewrite is_space_lower, IH, str_truthy_lower.
  destruct (is_space c && negb (str_truthy (rstrip_with is_space s))); reflexivity.
Qed.

Lemma py_strip_lower (s : string) : py_strip (py_lower s) = py_lower (py_strip s).
Proof. unfold py_strip. rewrite lstrip_lower, rstrip_lower. reflexivity. Qed.

(** A string that does not begin with a character [p] accepts. *)
Definition no_lead (p : ascii -> bool) (s : string) : Prop :=
  match s with
  | EmptyString => True
  | String c _ => p c = false
  end.

Lemma lstrip_no_lead (p : ascii -> bool) (s : string) : no_lead p (lstrip_with p s).
Proof.
  induction s as [| c s IH]; [exact I | ].
  cbn. destruct (p c) eqn:E; [exact IH | exact E].
Qed.

Lemma no_lead_lstrip (p : ascii -> bool) (s : string) :
  no_lead p s -> lstrip_with p s = s.
Proof. destruct s as [| c s]; [reflexivity | ]. cbn. intros ->. reflexivity. Qed.

Lemma rstrip_no_lead (p : ascii -> bool) (s : string) :
  no_lead p s -> no_lead p (rstrip_with p s).
Proof.
  destruct s as [| c s]; [intros _; exact I | ].
  cbn. intros H. rewrite H. exact H.
Qed.

Lemma rstrip_idem (p : ascii -> bool) (s : string) :
  rstrip_with p (rstrip_with p s) = rstrip_with p s.
Proof.
  induction s as [| c s IH]; [reflexivity | ].
  cbn. destruct (p c && negb (str_truthy (rstrip_with p s))) eqn:E; [reflexivity | ].
  cbn. rewrite IH, E. reflexivity.
Qed.

Lemma py_strip_idem (s : string) : py_strip (py_strip s) = py_strip s.
Proof.
  unfold py_strip.
  rewrite (no_lead_lstrip is_space (rstrip_with is_space (lstrip_with is_space s))).
  - apply rstrip_idem.
  - apply rstrip_no_lead, lstrip_no_lead.
Qed.

Lemma rstrip_app_char (p : ascii -> bool) (s : string) (c : ascii) :
  p c = true -> rstrip_with p (s ++ String c "") = rstrip_with p s.
Proof.
  intros Hc. induction s as [| a s IH].
  - change ("" ++ String c "") with (String c ""). cbn. rewrite Hc. reflexivity.
  - rewrite app_cons. cbn [rstrip_with]. rewrite IH. reflexivity.
Qed.

Lemma lstrip_app (p : ascii -> bool) (s t : string) :
  lstrip_with p (s ++ t)
  = if str_truthy (lstrip_with p s) then lstrip_with p s ++ t else lstrip_with p t.
Proof.
  induction s as [| a s IH]; [reflexivity | ].
  rewrite app_cons. cbn [lstrip_with]. destruct (p a); [exact IH | reflexivity].
Qed.

Lemma py_strip_padded (s : string) : py_strip (" " ++ s ++ " ") = py_strip s.
Proof.
  unfold py_strip. rewrite app_cons. cbn [lstrip_with]. change (is_space " ") with true.
  cbv iota. change ("" ++ s ++ " ") with (s ++ " "). rewrite lstrip_app.
  destruct (lstrip_with is_space s) as [| a r] eqn:E; [reflexivity | ].
  cbn [str_truthy String.eqb negb]. apply rstrip_app_char. reflexivity.
Qed.

(** X17.  The cache key ignores case and surrounding white space: a
    target, its lower-case form and its stripped form have the same key,
    whatever the hash function. *)
Theorem key_ignores_case_and_padding (sha256_hex : string -> string) (target : string) :
  _normalize_key sha256_hex (py_lower target) = _normalize_key sha256_hex target /\
  _normalize_key sha256_hex (py_strip target) = _normalize_key sha256_hex target /\
  _normalize_key sha256_hex (" " ++ target ++ " ") = _normalize_key sha256_hex target.
Proof.
  rewrite !normalize_key_clean. unfold clean.
  split; [ | split].
  - rewrite py_strip_lower, py_lower_idem. reflexivity.
  - rewrite py_strip_idem. reflexivity.
  - rewrite py_strip_padded. reflexivity.
Qed.

(** ** Protocol, [www.] and the trailing slash *)















End KeyNormal.

(* ===================================================================== *)
(** * The pipeline entry points over two calls                            *)
(* ===================================================================== *)

Module PipelineRuns.
Import Cache.
Local Open Scope list_scope.

Section Proofs.

Variable sha256_hex : string -> string.
Variables TTL_REGISTERED TTL_UNREGISTERED TTL_FAILED TTL_PREVIEW : Z.

Local Abbreviation key := (Cache._normalize_key sha256_hex).
Local Abbreviation choose_ttl :=
  (Cache.choose_ttl TTL_REGISTERED TTL_UNREGISTERED TTL_FAILED TTL_PREVIEW).
Local Abbreviation cache_set :=
  (Cache.set sha256_hex TTL_REGISTERED TTL_UNREGISTERED TTL_FAILED TTL_PREVIEW).
Local Abbreviation score_entity :=
  (PipelineV3.score_entity sha256_hex TTL_REGISTERED TTL_UNREGISTERED TTL_FAILED
     TTL_PREVIEW).
Local Abbreviation compute_trust_score :=
  (Pipeline.compute_trust_score sha256_hex TTL_REGISTERED TTL_UNREGISTERED
     TTL_FAILED TTL_PREVIEW).

Lemma get_miss_up (c : ScoreCache) (r : Redis) (now : Q) (target : string) :
  _enabled c = true -> reachable r = true ->
  (forall data expires,
     scores r !! key target = Some (data, expires) -> (expires <= now)%Q) ->
  Cache.get sha256_hex c r now target = (CacheRuns.connected, r, None).
Proof.
  intros He Hr Hs. unfold Cache.get. rewrite He, (CacheRuns.connect_up c r He Hr).
  cbn [negb]. unfold redis_get. rewrite Hr. cbn [negb].
  destruct (scores r !! key target) as [[data expires]|]; [ | reflexivity].
  rewrite (CacheRuns.Qlt_bool_false _ _ (Hs data expires eq_refl)). reflexivity.
Qed.

Lemma acquire_lock_up (c : ScoreCache) (r : Redis) (now : Q) (target : string) :
  _enabled c = true -> reachable r = true ->
  exists r' granted,
    Cache.acquire_lock sha256_hex c r now target = (CacheRuns.connected, r', granted) /\
    reachable r' = true /\ scores r' = scores r /\ metas r' = metas r /\
    (granted = false -> r' = r).
Proof.
  intros He Hr. unfold Cache.acquire_lock. rewrite He, (CacheRuns.connect_up c r He Hr).
  cbn [negb]. rewrite Hr. cbn [negb].
  match goal with
  | |- context [if ?held then _ else _] => destruct held
  end; eexists _, _; (split; [reflexivity | ]); repeat split; try assumption;
    discriminate.
Qed.

Lemma set_up (c : ScoreCache) (r : Redis) (now : Q) (target : string)
    (result : gmap string json) (is_registered is_preview failed : bool) :
  _enabled c = true -> reachable r = true ->
  exists r' data ok,
    cache_set c r now target result is_registered is_preview failed
    = (CacheRuns.connected, r', data, ok) /\
    reachable r' = true /\ locks r' = locks r.
Proof.
  intros He Hr. unfold Cache.set. rewrite He, (CacheRuns.connect_up c r He Hr).
  cbn [negb]. unfold redis_setex, redis_hset_expire. rewrite Hr. cbn [negb].
  destruct (_ <=? 0); cbn [reachable with_scores]; rewrite ?Hr; cbn [negb];
    eexists _, _, _; (split; [reflexivity | ]); split; first [assumption | reflexivity].
Qed.

Lemma set_stores_up (c : ScoreCache) (r : Redis) (now : Q) (target : string)
    (result : gmap string json) (is_registered is_preview failed : bool) :
  _enabled c = true -> reachable r = true ->
  0 < choose_ttl is_registered is_preview failed ->
  let ttl := choose_ttl is_registered is_preview failed in
  let data := <["_ttl" := JInt ttl]> (<["_cached_at" := JFloat now]> result) in
  exists r',
    cache_set c r now target result is_registered is_preview failed
    = (CacheRuns.connected, r', data, true) /\
    reachable r' = true /\ locks r' = locks r /\
    scores r' !! key target = Some (data, (now + inject_Z ttl)%Q) /\
    exists fields,
      metas r' !! key target = Some (fields, Some (now + inject_Z (ttl + 3600))%Q) /\
      fields !! "hits" = Some (JInt 0).
Proof.
  intros He Hr Httl ttl data.
  destruct (CacheSpec.set_stores sha256_hex TTL_REGISTERED TTL_UNREGISTERED TTL_FAILED
              TTL_PREVIEW c r now target result is_registered is_preview failed
              He Hr Httl)
    as (c' & r' & Hset & _ & _ & Hr' & Hl & Hs & Hm).
  destruct (set_up c r now target result is_registered is_preview failed He Hr)
    as (r2 & d2 & ok2 & Hset2 & _).
  rewrite Hset in Hset2. inversion Hset2. subst.
  exists r2. split; [exact Hset | ].
  repeat (split; [assumption | ]).
  split; [ | exact Hm]. rewrite Hs. apply lookup_insert_eq.
Qed.

(** Steps 1 and 2 for a target without a cached score: both cache checks
    miss, whether or not the lock is granted, and the call goes on to
    compute on a Redis [r2] that differs from [r] in the lock at most. *)
Lemma compute_trust_score_computes (c : ScoreCache) (r : Redis) (tm : Pipeline.Times)
    (target : string) (force_refresh is_preview : bool)
    (body : Res Pipeline.Scored) (fallback : gmap string json) :
  _enabled c = true -> reachable r = true -> scores r !! key target = None ->
  exists r2,
    reachable r2 = true /\ scores r2 = scores r /\ metas r2 = metas r /\
    compute_trust_score c r tm target force_refresh is_preview body fallback
    = let '(c3, r3, ret) :=
        match body with
        | Ok sc =>
            let '(c, r, result, _) :=
              cache_set CacheRuns.connected r2 (Pipeline.t_store tm) target
                (Pipeline.sc_result sc) (Pipeline.sc_is_registered sc) is_preview false in
            (c, r,
             Ok (<["_pipeline" :=
                     JObj [("source", JStr "computed");
                           ("pipeline_time_ms", JFloat (Pipeline.ms_computed tm));
                           ("is_registered", JBool (Pipeline.sc_is_registered sc));
                           ("collectors_run", JInt (Pipeline.sc_collectors_run sc))]]>
                   result))
        | Raise e =>
            let result :=
              <["_pipeline" := JObj [("source", JStr "fallback"); ("error", JStr e)]]>
                fallback in
            let '(c, r, result, _) :=
              cache_set CacheRuns.connected r2 (Pipeline.t_store tm) target result
                false false true in
            (c, r, Ok result)
        end in
      let '(c4, r4) := Cache.release_lock sha256_hex c3 r3 target in
      (c4, r4, ret).
Proof.
  intros He Hr Hs. unfold Pipeline.compute_trust_score.
  assert (forall now data expires,
            scores r !! key target = Some (data, expires) -> (expires <= now)%Q)
    as Hnone by (intros now data expires H; rewrite Hs in H; discriminate H).
  assert (exists c1,
            (if negb force_refresh
             then Cache.get sha256_hex c r (Pipeline.t_check tm) target
             else (c, r, None)) = (c1, r, None) /\ _enabled c1 = true)
    as (c1 & -> & He1).
  { destruct force_refresh; cbn [negb]; [exists c; split; [reflexivity | exact He] | ].
    rewrite (get_miss_up c r _ target He Hr (Hnone _)). eexists. split; reflexivity. }
  cbv beta iota.
  destruct (acquire_lock_up c1 r (Pipeline.t_check tm) target He1 Hr)
    as (r2 & granted & -> & Hr2 & Hs2 & Hm2 & _).
  cbv beta iota.
  assert ((if negb granted
           then Cache.get sha256_hex CacheRuns.connected r2 (Pipeline.t_recheck tm) target
           else (CacheRuns.connected, r2, None)) = (CacheRuns.connected, r2, None))
    as ->.
  { destruct granted; cbn [negb]; [reflexivity | ].
    apply get_miss_up; [reflexivity | exact Hr2 | ].
    intros data expires H. rewrite Hs2, Hs in H. discriminate H. }
  cbv beta iota. exists r2. repeat (split; [assumption | ]). reflexivity.
Qed.

(** The same for [score_entity]. *)
Lemma score_entity_computes (c : ScoreCache) (r : Redis) (tm : Pipeline.Times)
    (target : string) (force_refresh : bool) (observed : Res Engine.RawSignals) :
  _enabled c = true -> reachable r = true -> scores r !! key target = None ->
  exists r2,
    reachable r2 = true /\ scores r2 = scores r /\ metas r2 = metas r /\
    score_entity c r tm target force_refresh observed
    = let '(c3, r3, ret) :=
        match observed with
        | Ok signals_ =>
            let response := PipelineV3.to_full (Engine.compute_score signals_) in
            let response := <["_source" := JStr "computed"]> response in
            let response :=
              <["collection_time_ms" := JFloat (Engine.collection_time_ms signals_)]>
                response in
            let response :=
              <["sources_queried" :=
                  PipelineV3.str_list_json (Engine.sources_queried signals_)]> response in
            let response :=
              <["sources_responded" :=
                  PipelineV3.str_list_json (Engine.sources_responded signals_)]> response in
            let response :=
              <["collection_errors" :=
                  PipelineV3.str_list_json (Engine.collection_errors signals_)]> response in
            let '(c, r, response, _) :=
              cache_set CacheRuns.connected r2 (Pipeline.t_store tm) target response
                false false false in
            (c, r, Ok response)
        | Raise e => (CacheRuns.connected, r2, Ok (PipelineV3.minimal_safe_response target e))
        end in
      let '(c4, r4) := Cache.release_lock sha256_hex c3 r3 target in
      (c4, r4, ret).
Proof.
  intros He Hr Hs. unfold PipelineV3.score_entity.
  assert (forall now data expires,
            scores r !! key target = Some (data, expires) -> (expires <= now)%Q)
    as Hnone by (intros now data expires H; rewrite Hs in H; discriminate H).
  assert (exists c1,
            (if negb force_refresh
             then Cache.get sha256_hex c r (Pipeline.t_check tm) target
             else (c, r, None)) = (c1, r, None) /\ _enabled c1 = true)
    as (c1 & -> & He1).
  { destruct force_refresh; cbn [negb]; [exists c; split; [reflexivity | exact He] | ].
    rewrite (get_miss_up c r _ target He Hr (Hnone _)). eexists. split; reflexivity. }
  cbv beta iota.
  destruct (acquire_lock_up c1 r (Pipeline.t_check tm) target He1 Hr)
    as (r2 & granted & -> & Hr2 & Hs2 & Hm2 & _).
  cbv beta iota.
  assert ((if negb granted
           then Cache.get sha256_hex CacheRuns.connected r2 (Pipeline.t_recheck tm) target
           else (CacheRuns.connected, r2, None)) = (CacheRuns.connected, r2, None))
    as ->.
  { destruct granted; cbn [negb]; [reflexivity | ].
    apply get_miss_up; [reflexivity | exact Hr2 | ].
    intros data expires H. rewrite Hs2, Hs in H. discriminate H. }
  cbv beta iota. exists r2. repeat (split; [assumption | ]). reflexivity.
Qed.

End Proofs.

(** X19.  A computed score is served from the cache afterwards.  For a
    target without a cached score, [compute_trust_score] returns the scored
    dictionary, extended with [_cached_at], [_ttl] and the [_pipeline]
    entry of a computed result; a second call made before the time-to-live
    of the tier is over, without [force_refresh], returns that dictionary
    with [_cache = "hit"] and [_pipeline.source = "cache"], whatever the
    collectors would deliver this time. *)
Theorem second_call_is_served_from_cache
    (sha256_hex : string -> string)
    (TTL_REGISTERED TTL_UNREGISTERED TTL_FAILED TTL_PREVIEW : Z)
    (c : ScoreCache) (r : Redis) (tm tm' : Pipeline.Times) (target : string)
    (force_refresh is_preview is_preview' : bool) (sc : Pipeline.Scored)
    (body' : Res Pipeline.Scored) (fallback fallback' : gmap string json) :
  _enabled c = true -> reachable r = true ->
  scores r !! Cache._normalize_key sha256_hex target = None ->
  0 < Cache.choose_ttl TTL_REGISTERED TTL_UNREGISTERED TTL_FAILED TTL_PREVIEW
        (Pipeline.sc_is_registered sc) is_preview false ->
  (Pipeline.t_check tm'
   < Pipeline.t_store tm
     + inject_Z (Cache.choose_ttl TTL_REGISTERED TTL_UNREGISTERED TTL_FAILED TTL_PREVIEW
                   (Pipeline.sc_is_registered sc) is_preview false))%Q ->
  let ttl := Cache.choose_ttl TTL_REGISTERED TTL_UNREGISTERED TTL_FAILED TTL_PREVIEW
               (Pipeline.sc_is_registered sc) is_preview false in
  let data :=
    <["_ttl" := JInt ttl]>
      (<["_cached_at" := JFloat (Pipeline.t_store tm)]> (Pipeline.sc_result sc)) in
  let '(c1, r1, first) :=
    Pipeline.compute_trust_score sha256_hex TTL_REGISTERED TTL_UNREGISTERED TTL_FAILED
      TTL_PREVIEW c r tm target force_refresh is_preview (Ok sc) fallback in
  let '(c2, r2, second) :=
    Pipeline.compute_trust_score sha256_hex TTL_REGISTERED TTL_UNREGISTERED TTL_FAILED
      TTL_PREVIEW c1 r1 tm' target false is_preview' body' fallback' in
  first
  = Ok (<["_pipeline" :=
            JObj [("source", JStr "computed");
                  ("pipeline_time_ms", JFloat (Pipeline.ms_computed tm));
                  ("is_registered", JBool (Pipeline.sc_is_registered sc));
                  ("collectors_run", JInt (Pipeline.sc_collectors_run sc))]]> data) /\
  second
  = Ok (<["_pipeline" :=
            JObj [("source", JStr "cache");
                  ("pipeline_time_ms", JFloat (Pipeline.ms_hit tm'))]]>
          (<["_cache" := JStr "hit"]> data)).
Proof.
  intros He Hr Hs Httl Hlive ttl data.
  destruct (compute_trust_score_computes sha256_hex TTL_REGISTERED TTL_UNREGISTERED
              TTL_FAILED TTL_PREVIEW c r tm target force_refresh is_preview (Ok sc)
              fallback He Hr Hs) as (r2 & Hr2 & _ & _ & ->).
  destruct (set_stores_up sha256_hex TTL_REGISTERED TTL_UNREGISTERED TTL_FAILED
              TTL_PREVIEW CacheRuns.connected r2 (Pipeline.t_store tm) target
              (Pipeline.sc_result sc) (Pipeline.sc_is_registered sc) is_preview false
              eq_refl Hr2 Httl)
    as (r3 & -> & Hr3 & _ & Hs3 & fields & Hm3 & Hh3).
  rewrite (CacheRuns.release_lock_answer sha256_hex CacheRuns.connected r3 target eq_refl Hr3).
  unfold Pipeline.compute_trust_score at 1. cbn [negb].
  rewrite (CacheRuns.get_hit sha256_hex CacheRuns.connected
             (with_locks r3 (delete (Cache._normalize_key sha256_hex target) (locks r3)))
             (Pipeline.t_check tm') target _ fields _ _ 0 eq_refl eq_refl Hr3 Hs3 Hlive
             Hm3 (CacheSpec.meta_outlives _ _ _ Hlive) Hh3).
  split; reflexivity.
Qed.

Definition sample_scored : Pipeline.Scored :=
  {| Pipeline.sc_result := CacheSpec.sample_result;
     Pipeline.sc_is_registered := false;
     Pipeline.sc_collectors_run := 7 |}.

(** A second call, checked at second 60. *)
Definition later_times : Pipeline.Times :=
  {| Pipeline.t_check := 60; Pipeline.t_recheck := 123 # 2; Pipeline.t_store := 62;
     Pipeline.ms_hit := 1; Pipeline.ms_computed := 2000 |}.

Lemma second_call_is_served_from_cache_witness :
  let '(c1, r1, first) :=
    Pipeline.compute_trust_score CacheSpec.hex_stub 3600 21600 300 86400
      ScoreCache_init CacheSpec.empty_redis PipelineSpec.sample_times "example.com"
      false false (Ok sample_scored) PipelineSpec.sample_fallback in
  let '(c2, r2, second) :=
    Pipeline.compute_trust_score CacheSpec.hex_stub 3600 21600 300 86400
      c1 r1 later_times "example.com" false false (Raise "collectors are down")
      PipelineSpec.sample_fallback in
  exists d, second = Ok d /\ d !! "score" = Some (JInt 700) /\
            d !! "_cache" = Some (JStr "hit").
Proof.
  pose proof (second_call_is_served_from_cache CacheSpec.hex_stub 3600 21600 300 86400
                ScoreCache_init CacheSpec.empty_redis PipelineSpec.sample_times
                later_times "example.com" false false false sample_scored
                (Raise "collectors are down") PipelineSpec.sample_fallback
                PipelineSpec.sample_fallback eq_refl eq_refl eq_refl eq_refl eq_refl)
    as H.
  cbv zeta in H.
  destruct (Pipeline.compute_trust_score _ _ _ _ _ _ _ _ _ _ _ _ _) as [[c1 r1] first].
  destruct (Pipeline.compute_trust_score _ _ _ _ _ _ _ _ _ _ _ _ _) as [[c2 r2] second].
  destruct H as [_ ->]. eexists. split; [reflexivity | ].
  split; reflexivity.
Defined.

(** X20.  The [finally] clause deletes the lock whether or not this call
    holds it.  For a target without a cached score, with the cache enabled
    and the server answering, no lock is left for the target when
    [compute_trust_score] returns: also when [acquire_lock] was refused
    because another request holds the lock, that request's lock is gone
    afterwards. *)
Theorem computing_call_leaves_no_lock
    (sha256_hex : string -> string)
    (TTL_REGISTERED TTL_UNREGISTERED TTL_FAILED TTL_PREVIEW : Z)
    (c : ScoreCache) (r : Redis) (tm : Pipeline.Times) (target : string)
    (force_refresh is_preview : bool)
    (body : Res Pipeline.Scored) (fallback : gmap string json) :
  _enabled c = true -> reachable r = true ->
  scores r !! Cache._normalize_key sha256_hex target = None ->
  let '(c1, r1, _) :=
    Pipeline.compute_trust_score sha256_hex TTL_REGISTERED TTL_UNREGISTERED TTL_FAILED
      TTL_PREVIEW c r tm target force_refresh is_preview body fallback in
  locks r1 !! Cache._normalize_key sha256_hex target = None /\
  forall now, snd (Cache.acquire_lock sha256_hex c1 r1 now target) = true.
Proof.
  intros He Hr Hs.
  destruct (compute_trust_score_computes sha256_hex TTL_REGISTERED TTL_UNREGISTERED
              TTL_FAILED TTL_PREVIEW c r tm target force_refresh is_preview body
              fallback He Hr Hs) as (r2 & Hr2 & _ & _ & ->).
  assert (forall (r3 : Redis) (ret : Res (gmap string json)),
            reachable r3 = true ->
            let '(c1, r1, _) :=
              let '(c4, r4) := Cache.release_lock sha256_hex CacheRuns.connected r3 target in
              (c4, r4, ret) in
            locks r1 !! Cache._normalize_key sha256_hex target = None /\
            forall now, snd (Cache.acquire_lock sha256_hex c1 r1 now target) = true)
    as Hrel.
  { intros r3 ret Hr3.
    rewrite (CacheRuns.release_lock_answer sha256_hex CacheRuns.connected r3 target eq_refl Hr3).
    split; [apply lookup_delete_eq | ].
    intros now.
    rewrite (CacheRuns.acquire_lock_answer sha256_hex CacheRuns.connected
               (with_locks r3 (delete (Cache._normalize_key sha256_hex target) (locks r3)))
               now target eq_refl Hr3).
    cbn [locks with_locks]. rewrite lookup_delete_eq. reflexivity. }
  destruct body as [sc | e].
  - destruct (set_up sha256_hex TTL_REGISTERED TTL_UNREGISTERED TTL_FAILED TTL_PREVIEW
                CacheRuns.connected r2 (Pipeline.t_store tm) target
                (Pipeline.sc_result sc) (Pipeline.sc_is_registered sc) is_preview false
                eq_refl Hr2) as (r3 & data & ok & -> & Hr3 & _).
    apply Hrel, Hr3.
  - cbv zeta.
    destruct (set_up sha256_hex TTL_REGISTERED TTL_UNREGISTERED TTL_FAILED TTL_PREVIEW
                CacheRuns.connected r2 (Pipeline.t_store tm) target
                (<["_pipeline" := JObj [("source", JStr "fallback"); ("error", JStr e)]]>
                   fallback)
                false false true eq_refl Hr2) as (r3 & data & ok & -> & Hr3 & _).
    apply Hrel, Hr3.
Qed.

(** Redis while another request, which took the lock at second 0, is
    still computing the score of the target. *)
Definition locked_redis : Redis :=
  {| reachable := true; scores := ∅; metas := ∅;
     locks := {[ Cache._normalize_key CacheSpec.hex_stub "example.com" := 30%Q ]} |}.

Lemma computing_call_leaves_no_lock_witness :
  snd (Cache.acquire_lock CacheSpec.hex_stub CacheRuns.connected locked_redis 1
         "example.com") = false /\
  let '(c1, r1, _) :=
    Pipeline.compute_trust_score CacheSpec.hex_stub 3600 21600 300 86400
      CacheRuns.connected locked_redis
      {| Pipeline.t_check := 1; Pipeline.t_recheck := 5 # 2; Pipeline.t_store := 3;
         Pipeline.ms_hit := 1; Pipeline.ms_computed := 2000 |}
      "example.com" false false (Ok sample_scored) PipelineSpec.sample_fallback in
  locks r1 !! Cache._normalize_key CacheSpec.hex_stub "example.com" = None.
Proof.
  split; [vm_compute; reflexivity | ].
  pose proof (computing_call_leaves_no_lock CacheSpec.hex_stub 3600 21600 300 86400
                CacheRuns.connected locked_redis
                {| Pipeline.t_check := 1; Pipeline.t_recheck := 5 # 2;
                   Pipeline.t_store := 3; Pipeline.ms_hit := 1;
                   Pipeline.ms_computed := 2000 |}
                "example.com" false false (Ok sample_scored) PipelineSpec.sample_fallback
                eq_refl eq_refl eq_refl) as H.
  destruct (Pipeline.compute_trust_score _ _ _ _ _ _ _ _ _ _ _ _ _) as [[c1 r1] ret].
  exact (proj1 H).
Defined.

(** X21.  [force_refresh] is not honoured while another request holds the
    lock: if the lock of the target is taken and a live score is cached
    when the call looks again after its wait, [compute_trust_score] called
    with [force_refresh = True] returns that cached score, marked
    [cache_after_lock_wait], computes nothing, and leaves the lock where it
    is. *)
Theorem force_refresh_yields_to_a_held_lock
    (sha256_hex : string -> string)
    (TTL_REGISTERED TTL_UNREGISTERED TTL_FAILED TTL_PREVIEW : Z)
    (c : ScoreCache) (r : Redis) (tm : Pipeline.Times) (target : string)
    (is_preview : bool) (body : Res Pipeline.Scored) (fallback : gmap string json)
    (lock_expires expires mexpires : Q) (data fields : gmap string json) (hits : Z) :
  _enabled c = true -> reachable r = true ->
  locks r !! Cache._normalize_key sha256_hex target = Some lock_expires ->
  (Pipeline.t_check tm < lock_expires)%Q ->
  scores r !! Cache._normalize_key sha256_hex target = Some (data, expires) ->
  (Pipeline.t_recheck tm < expires)%Q ->
  metas r !! Cache._normalize_key sha256_hex target = Some (fields, Some mexpires) ->
  (Pipeline.t_recheck tm < mexpires)%Q ->
  fields !! "hits" = Some (JInt hits) ->
  let '(c1, r1, ret) :=
    Pipeline.compute_trust_score sha256_hex TTL_REGISTERED TTL_UNREGISTERED TTL_FAILED
      TTL_PREVIEW c r tm target true is_preview body fallback in
  ret = Ok (<["_pipeline" := JObj [("source", JStr "cache_after_lock_wait")]]>
              (<["_cache" := JStr "hit"]> data)) /\
  scores r1 = scores r /\ locks r1 = locks r.
Proof.
  intros He Hr Hl Hlt Hs Hslt Hm Hmlt Hh.
  unfold Pipeline.compute_trust_score. cbn [negb].
  rewrite (CacheRuns.acquire_lock_answer sha256_hex c r (Pipeline.t_check tm) target
             He Hr).
  rewrite Hl, (proj2 (BreakerSpec.Qlt_bool_iff _ _) Hlt). cbn [negb].
  rewrite (CacheRuns.get_hit sha256_hex CacheRuns.connected r (Pipeline.t_recheck tm)
             target data fields expires mexpires hits eq_refl eq_refl Hr Hs Hslt Hm
             Hmlt Hh).
  repeat split.
Qed.


(** Redis while another request holds the lock of the target and a score
    cached at second 0 is still live. *)
Definition busy_redis : Redis :=
  {| reachable := true;
     scores := {[ Cache._normalize_key CacheSpec.hex_stub "example.com"
                  := (CacheSpec.sample_result, 3600%Q) ]};
     metas := {[ Cache._normalize_key CacheSpec.hex_stub "example.com"
                 := ({[ "hits" := JInt 0 ]}, Some 7200%Q) ]};
     locks := {[ Cache._normalize_key CacheSpec.hex_stub "example.com" := 130%Q ]} |}.

Definition refresh_times : Pipeline.Times :=
  {| Pipeline.t_check := 101; Pipeline.t_recheck := 205 # 2; Pipeline.t_store := 103;
     Pipeline.ms_hit := 1; Pipeline.ms_computed := 2000 |}.

Lemma force_refresh_yields_to_a_held_lock_witness :
  let '(c1, r1, ret) :=
    Pipeline.compute_trust_score CacheSpec.hex_stub 3600 21600 300 86400
      CacheRuns.connected busy_redis refresh_times "example.com" true false
      (Ok sample_scored) PipelineSpec.sample_fallback in
  ret = Ok (<["_pipeline" := JObj [("source", JStr "cache_after_lock_wait")]]>
              (<["_cache" := JStr "hit"]> CacheSpec.sample_result)).
Proof.
  pose proof (force_refresh_yields_to_a_held_lock CacheSpec.hex_stub 3600 21600 300 86400
                CacheRuns.connected busy_redis refresh_times "example.com" false
                (Ok sample_scored) PipelineSpec.sample_fallback
                130 3600 7200 CacheSpec.sample_result {[ "hits" := JInt 0 ]} 0
                eq_refl eq_refl ltac:(vm_compute; reflexivity) eq_refl
                ltac:(vm_compute; reflexivity) eq_refl
                ltac:(vm_compute; reflexivity) eq_refl
                ltac:(vm_compute; reflexivity)) as H.
  destruct (Pipeline.compute_trust_score _ _ _ _ _ _ _ _ _ _ _ _ _) as [[c1 r1] ret].
  exact (proj1 H).
Defined.

(** X22.  [score_entity] caches what it computes, always in the
    unregistered tier.  For a target without a cached score whose
    observation succeeds, the response is returned with [_cached_at] and
    [_ttl = TTL_UNREGISTERED]; a second call made before that time-to-live
    is over, without [force_refresh], returns the same dictionary with
    [_cache = "hit"] and [_source = "cache"], without looking at the new
    observation. *)
Theorem score_entity_second_call_is_served_from_cache
    (sha256_hex : string -> string)
    (TTL_REGISTERED TTL_UNREGISTERED TTL_FAILED TTL_PREVIEW : Z)
    (c : ScoreCache) (r : Redis) (tm tm' : Pipeline.Times) (target : string)
    (force_refresh : bool) (signals_ : Engine.RawSignals)
    (observed' : Res Engine.RawSignals) :
  _enabled c = true -> reachable r = true ->
  scores r !! Cache._normalize_key sha256_hex target = None ->
  0 < TTL_UNREGISTERED ->
  (Pipeline.t_check tm' < Pipeline.t_store tm + inject_Z TTL_UNREGISTERED)%Q ->
  let '(c1, r1, first) :=
    PipelineV3.score_entity sha256_hex TTL_REGISTERED TTL_UNREGISTERED TTL_FAILED
      TTL_PREVIEW c r tm target force_refresh (Ok signals_) in
  let '(c2, r2, second) :=
    PipelineV3.score_entity sha256_hex TTL_REGISTERED TTL_UNREGISTERED TTL_FAILED
      TTL_PREVIEW c1 r1 tm' target false observed' in
  exists response,
    first = Ok response /\
    response !! "_ttl" = Some (JInt TTL_UNREGISTERED) /\
    response !! "_cached_at" = Some (JFloat (Pipeline.t_store tm)) /\
    response !! "_source" = Some (JStr "computed") /\
    response !! "score"
    = Some (JInt (Engine.res_score (Engine.compute_score signals_))) /\
    second = Ok (<["_source" := JStr "cache"]> (<["_cache" := JStr "hit"]> response)).
Proof.
  intros He Hr Hs Httl Hlive.
  destruct (score_entity_computes sha256_hex TTL_REGISTERED TTL_UNREGISTERED
              TTL_FAILED TTL_PREVIEW c r tm target force_refresh (Ok signals_)
              He Hr Hs) as (r2 & Hr2 & _ & _ & ->).
  cbv zeta.
  match goal with
  | |- context [Cache.set _ _ _ _ _ _ _ _ _ ?resp false false false] =>
      destruct (set_stores_up sha256_hex TTL_REGISTERED TTL_UNREGISTERED TTL_FAILED
                  TTL_PREVIEW CacheRuns.connected r2 (Pipeline.t_store tm) target
                  resp false false false eq_refl Hr2 Httl)
        as (r3 & -> & Hr3 & _ & Hs3 & fields & Hm3 & Hh3)
  end.
  rewrite (CacheRuns.release_lock_answer sha256_hex CacheRuns.connected r3 target
             eq_refl Hr3).
  unfold PipelineV3.score_entity at 1. cbn [negb].
  rewrite (CacheRuns.get_hit sha256_hex CacheRuns.connected
             (with_locks r3 (delete (Cache._normalize_key sha256_hex target) (locks r3)))
             (Pipeline.t_check tm') target _ fields _ _ 0 eq_refl eq_refl Hr3 Hs3 Hlive
             Hm3 (CacheSpec.meta_outlives _ _ _ Hlive) Hh3).
  eexists. split; [reflexivity | ].
  cbn [Cache.choose_ttl].
  split; [apply lookup_insert_eq | ].
  split; [rewrite lookup_insert_ne by discriminate; apply lookup_insert_eq | ].
  split; [ | split; [ | reflexivity]].
  - rewrite !lookup_insert_ne by discriminate. apply lookup_insert_eq.
  - rewrite !lookup_insert_ne by discriminate. reflexivity.
Qed.

Lemma score_entity_second_call_is_served_from_cache_witness :
  let '(c1, r1, first) :=
    PipelineV3.score_entity CacheSpec.hex_stub 3600 21600 300 86400
      ScoreCache_init CacheSpec.empty_redis PipelineSpec.sample_times "example-safe.com"
      false (Ok Examples.example_safe) in
  let '(c2, r2, second) :=
    PipelineV3.score_entity CacheSpec.hex_stub 3600 21600 300 86400
      c1 r1 later_times "example-safe.com" false (Raise "observe_entity failed") in
  exists response,
    first = Ok response /\
    second = Ok (<["_source" := JStr "cache"]> (<["_cache" := JStr "hit"]> response)).
Proof.
  pose proof (score_entity_second_call_is_served_from_cache CacheSpec.hex_stub
                3600 21600 300 86400 ScoreCache_init CacheSpec.empty_redis
                PipelineSpec.sample_times later_times "example-safe.com" false
                Examples.example_safe (Raise "observe_entity failed")
                eq_refl eq_refl eq_refl eq_refl eq_refl) as H.
  destruct (PipelineV3.score_entity _ _ _ _ _ _ _ _ _ _ _) as [[c1 r1] first].
  destruct (PipelineV3.score_entity _ _ _ _ _ _ _ _ _ _ _) as [[c2 r2] second].
  destruct H as (response & Hf & _ & _ & _ & _ & Hsnd).
  exists response. split; [exact Hf | exact Hsnd].
Defined.

End PipelineRuns.

(* ===================================================================== *)
(** * The chain store over whole runs: lists, heads, history              *)
(* ===================================================================== *)

Module ChainRuns.
Import TrustChain.
Local Open Scope list_scope.






Section Proofs.

Variable digest : HashedContent -> string.
Variable compute_delta : gmap string json -> gmap string json -> gmap string json.
Variable env_node_id : string.

Local Abbreviation create_block :=
  (TrustChain.create_block digest compute_delta env_node_id).
Local Abbreviation run_creates :=
  (TrustChain.run_creates digest compute_delta env_node_id).











End Proofs.

Ltac lrange_cases :=
  unfold lrange; rewrite ?Z.gtb_ltb, ?Z.geb_leb;
  repeat match goal with
         | |- context [?a <? ?b] => destruct (Z.ltb_spec a b)
         | |- context [?a <=? ?b] => destruct (Z.leb_spec a b)
         end;
  cbn [orb]; change (Z.to_nat 0) with 0%nat; rewrite ?drop_0.









End ChainRuns.

(* ===================================================================== *)
(** * What [verify_chain] does and does not check                         *)
(* ===================================================================== *)

Module VerifyScope.
Import TrustChain.
Local Open Scope list_scope.

(** The newest [k] hashes are taken off the Redis list of an entity;
    nothing else changes. *)
Definition forget_newest (k : nat) (e : string) (st : Store) : Store :=
  {| heads := heads st; latest := latest st; blocks := blocks st;
     block_lists := alter (drop k) e (block_lists st);
     entities := entities st |}.

Section Proofs.

Variable digest : HashedContent -> string.
Variable compute_delta : gmap string json -> gmap string json -> gmap string json.
Variable env_node_id : string.

Local Abbreviation compute_hash := (TrustChain.compute_hash digest).
Local Abbreviation __post_init__ := (TrustChain.__post_init__ digest env_node_id).
Local Abbreviation verify_loop := (TrustChain.verify_loop digest env_node_id).
Local Abbreviation verify_chain := (TrustChain.verify_chain digest env_node_id).
Local Abbreviation run_creates :=
  (TrustChain.run_creates digest compute_delta env_node_id).
Local Abbreviation sealed := (ChainSpec.sealed digest).

(** The two tests of the loop body on the block at position [i]. *)
Definition hash_ok (clock : nat -> Clock) (i : nat) (b : Block) : Prop :=
  compute_hash (__post_init__ (clock i) b) = block_hash b.

Definition link_ok (prev : option Block) (b : Block) : Prop :=
  forall p, prev = Some p -> block_hash p = prev_hash b.

Lemma verify_loop_clean (clock : nat -> Clock) (prev : option Block) (i : nat)
    (l : list Block) :
  verify_loop clock prev i l = [] <->
  (forall j b, l !! j = Some b -> hash_ok clock (i + j) b) /\
  (forall b, head l = Some b -> link_ok prev b) /\
  (forall j p b, l !! j = Some p -> l !! S j = Some b -> block_hash p = prev_hash b).
Proof.
  revert prev i. induction l as [| x l IH]; intros prev i.
  - cbn. split; [ | reflexivity]. intros _.
    split; [intros j b H; discriminate H | ].
    split; [intros b H; discriminate H | intros j p b H; discriminate H].
  - cbn [TrustChain.verify_loop]. cbv zeta.
    rewrite !app_nil, IH. unfold hash_ok, link_ok. split.
    + intros (Hh & Hl & Hhash & Hlink & Hrest).
      split; [ | split].
      * intros [| j] b Hb; cbn in Hb.
        -- injection Hb as <-. rewrite Nat.add_0_r.
           destruct (String.eqb_spec (compute_hash (__post_init__ (clock i) x))
                       (block_hash x)); [assumption | discriminate Hh].
        -- replace (i + S j)%nat with (S i + j)%nat by lia. apply Hhash, Hb.
      * intros b Hb p Hp. cbn in Hb. injection Hb as <-. subst prev.
        destruct (String.eqb_spec (block_hash p) (prev_hash x));
          [assumption | discriminate Hl].
      * intros [| j] p b Hp Hb; cbn in Hp, Hb.
        -- injection Hp as <-. apply (Hlink b); [ | reflexivity].
           destruct l; [discriminate Hb | exact Hb].
        -- apply (Hrest j p b Hp Hb).
    + intros (Hhash & Hlink & Hrest).
      split; [ | split; [ | split; [ | split]]].
      * specialize (Hhash 0%nat x eq_refl). rewrite Nat.add_0_r in Hhash.
        rewrite Hhash, String.eqb_refl. reflexivity.
      * destruct prev as [p | ]; [ | reflexivity].
        rewrite (Hlink x eq_refl p eq_refl), String.eqb_refl. reflexivity.
      * intros j b Hb. replace (S i + j)%nat with (i + S j)%nat by lia.
        apply (Hhash (S j) b Hb).
      * intros b Hb p [= <-]. apply (Hrest 0%nat x b eq_refl).
        destruct l; [discriminate Hb | exact Hb].
      * intros j p b Hp Hb. apply (Hrest (S j) p b Hp Hb).
Qed.


(** [verify_chain] on a store whose list for [e] names, newest first, a
    linked run [seg] of sealed blocks that are all stored. *)
Lemma segment_verifies (clock : nat -> Clock) (st : Store) (e : string) (limit : Z)
    (seg : list Block) :
  default [] (block_lists st !! e) = block_hash <$> seg ->
  (forall b, b ∈ seg ->
     exists b', blocks st !! block_hash b = Some b' /\ ChainSpec.same b b') ->
  ChainSpec.dchain seg -> Forall sealed seg ->
  breaks_of (verify_chain clock st e limit) = [] /\
  verified_of (verify_chain clock st e limit) = true.
Proof.
  intros Hlist Hstored Hd Hs.
  unfold TrustChain.verify_chain, get_entity_history. rewrite Hlist.
  destruct (ChainSpec.lrange_0_take (block_hash <$> seg) (limit - 1)) as [k ->].
  rewrite <- fmap_take.
  set (win := take k seg).
  assert (forall b, b ∈ win -> b ∈ seg) as Hsub
    by (intros b Hb; apply (subseteq_take k), Hb).
  pose proof (ChainSpec.history_of_stored st win (fun b Hb => Hstored b (Hsub b Hb)))
    as Hh.
  assert (ChainSpec.dchain win) as Hdw by apply ChainSpec.dchain_take, Hd.
  assert (Forall sealed win) as Hsw.
  { apply Forall_forall. intros b Hb.
    exact (proj1 (Forall_forall _ _) Hs b (Hsub b Hb)). }
  set (hist := omap (fun h => blocks st !! h) (block_hash <$> win)) in *.
  assert (ChainSpec.dchain hist) as Hd' by exact (ChainSpec.dchain_same _ _ Hh Hdw).
  assert (Forall sealed hist) as Hs'.
  { clear -Hh Hsw. induction Hh as [| x x' l l' Hx Hl IH]; [constructor | ].
    constructor; [exact (ChainSpec.sealed_same digest _ _ Hx (Forall_inv Hsw)) | ].
    apply IH, (Forall_inv_tail Hsw). }
  destruct hist as [| x hist']; [split; reflexivity | ].
  cbv zeta.
  rewrite (ChainSpec.sort_by_index_dchain _ Hd'),
    (ChainSpec.verify_loop_dchain digest env_node_id clock _ 0 Hd' Hs').
  split; reflexivity.
Qed.

Lemma dchain_drop (n : nat) (l : list Block) :
  ChainSpec.dchain l -> ChainSpec.dchain (drop n l).
Proof.
  revert l. induction n as [| n IH]; intros l Hd; [rewrite drop_0; exact Hd | ].
  destruct l as [| x l]; [constructor | ].
  cbn. apply IH. exact (ChainSpec.dchain_tail _ _ Hd).
Qed.

End Proofs.

(** X26.  [verify_chain] reports a chain as verified exactly when every
    block it read passes the hash test and every two neighbours among
    them, in index order, are linked; it compares nothing else.  This holds
    for every store, whatever was written into it. *)
Theorem verified_means_hashes_and_links
    (digest : HashedContent -> string) (env_node_id : string)
    (clock : nat -> Clock) (st : Store) (e : string) (limit : Z) :
  let read := sort_by_index (get_entity_history st e limit) in
  verified_of (verify_chain digest env_node_id clock st e limit) = true <->
  (forall i b, read !! i = Some b ->
     compute_hash digest (__post_init__ digest env_node_id (clock i) b) = block_hash b) /\
  (forall i p b, read !! i = Some p -> read !! S i = Some b ->
     prev_hash b = block_hash p).
Proof.
  intros read. unfold verify_chain.
  destruct (get_entity_history st e limit) as [| x l] eqn:Eh.
  - cbn. split; [ | reflexivity]. intros _.
    split; [intros i b H; discriminate H | intros i p b H; discriminate H].
  - cbv zeta. cbn [verified_of]. fold read.
    rewrite bool_decide_eq_true, length_zero_iff_nil.
    rewrite (verify_loop_clean digest env_node_id clock None 0 read).
    unfold hash_ok, link_ok. split.
    + intros (Hh & _ & Hl). split; [exact Hh | ].
      intros i p b Hp Hb. symmetry. exact (Hl i p b Hp Hb).
    + intros (Hh & Hl). split; [exact Hh | split].
      * intros b _ p Hp. discriminate Hp.
      * intros i p b Hp Hb. symmetry. exact (Hl i p b Hp Hb).
Qed.

(** X27.  [verify_chain] does not detect a rollback.  After any run from
    an empty store, when the newest [k] hashes are taken off the Redis list
    of an entity, [verify_chain] still reports the chain as verified with
    no break, for every [k] and every [limit]: it checks the blocks it
    finds against each other, never against the chain head or for a
    missing newest block. *)
Theorem rollback_is_not_detected
    (digest : HashedContent -> string)
    (compute_delta : gmap string json -> gmap string json -> gmap string json)
    (env_node_id : string)
    (digest_not_genesis : forall c, digest c <> GENESIS_HASH)
    (digest_inj : forall c c', digest c = digest c' -> c = c')
    (ops : list CreateOp) (clock : nat -> Clock) (k : nat) (e : string) (limit : Z) :
  ChainSpec.clocks_set ops ->
  let st := fst (run_creates digest compute_delta env_node_id empty_store ops) in
  breaks_of (verify_chain digest env_node_id clock (forget_newest k e st) e limit) = [] /\
  verified_of (verify_chain digest env_node_id clock (forget_newest k e st) e limit)
  = true /\
  heads (forget_newest k e st) = heads st.
Proof.
  intros Hclk st.
  pose proof (ChainSpec.fresh_store_run digest compute_delta env_node_id
                digest_not_genesis digest_inj ops empty_store []
                (ChainSpec.fresh_store_empty digest) Hclk) as Hf.
  rewrite app_nil_r in Hf. fold st in Hf.
  set (rlog := reverse (snd (run_creates digest compute_delta env_node_id empty_store ops)))
    in *.
  destruct Hf as [Hlist Hstored Hsealed Hdchain Hhead].
  set (seg := drop k (take 1000 (chain_of e rlog))).
  assert (forall b, b ∈ seg -> b ∈ rlog) as Hsub.
  { intros b Hb. apply (subseteq_drop k), (subseteq_take 1000) in Hb.
    unfold chain_of in Hb. apply list_elem_of_filter in Hb. apply Hb. }
  destruct (segment_verifies digest env_node_id clock (forget_newest k e st) e limit seg)
    as [Hb Hv].
  - cbn [block_lists forget_newest]. rewrite lookup_alter_eq.
    specialize (Hlist e). unfold seg. rewrite fmap_drop, fmap_take, <- Hlist.
    destruct (block_lists st !! e); [reflexivity | ]. cbn. rewrite drop_nil. reflexivity.
  - intros b Hb. exact (Hstored b (Hsub b Hb)).
  - apply dchain_drop, ChainSpec.dchain_take, Hdchain.
  - apply Forall_forall. intros b Hb. apply Hsealed, Hsub, Hb.
  - split; [exact Hb | split; [exact Hv | reflexivity]].
Qed.

Lemma rollback_is_not_detected_witness :
  ChainSpec.clocks_set [ChainExamples.op_dns; ChainExamples.op_whois] /\
  default [] (block_lists (forget_newest 1 "example.com" ChainExamples.store_two)
              !! "example.com")
  = [block_hash ChainExamples.block_dns] /\
  verified_of (verify_chain ModelDigest.model_digest ChainExamples.node
                 ChainExamples.verify_clock
                 (forget_newest 1 "example.com" ChainExamples.store_two)
                 "example.com" 100) = true.
Proof.
  assert (ChainSpec.clocks_set [ChainExamples.op_dns; ChainExamples.op_whois]) as H
    by (repeat constructor).
  split; [exact H | split].
  - destruct (ChainSpec.second_create ModelDigest.model_digest ChainExamples.delta_unused
                ChainExamples.node ModelDigest.model_digest_not_genesis
                ModelDigest.model_digest_inj ChainExamples.op_dns ChainExamples.op_whois
                eq_refl H) as [(b1 & Hl & _) _].
    cbn [block_lists forget_newest]. rewrite lookup_alter_eq.
    change (default [] (block_lists ChainExamples.store_two !! "example.com")
            = [block_hash b1; block_hash ChainExamples.block_dns]) in Hl.
    destruct (block_lists ChainExamples.store_two !! "example.com") as [l | ];
      cbn in Hl |- *; [rewrite Hl; reflexivity | discriminate Hl].
  - exact (proj1 (proj2 (rollback_is_not_detected ModelDigest.model_digest
                           ChainExamples.delta_unused ChainExamples.node
                           ModelDigest.model_digest_not_genesis
                           ModelDigest.model_digest_inj
                           [ChainExamples.op_dns; ChainExamples.op_whois]
                           ChainExamples.verify_clock 1 "example.com" 100 H))).
Defined.

End VerifyScope.

(* ===================================================================== *)
(** * app/chain/trustchain.py: [compute_delta]                            *)
(* ===================================================================== *)

Module Delta.
Local Open Scope list_scope.

(** The number a [bool], [int] or [float] compares as. *)
Definition numeric (v : json) : option Q :=
  match v with
  | JBool b => Some (inject_Z (Z.b2z b))
  | JInt n => Some (inject_Z n)
  | JFloat q => Some q
  | _ => None
  end.

(** Python's [a == b] on JSON-native values: numbers compare by value
    across [bool], [int] and [float]; strings, lists and dictionaries
    compare with their own kind only.  The members of a dictionary are kept
    in sorted key order, so two dictionaries are equal when their members
    agree one by one. *)
Fixpoint py_eq (a b : json) : bool :=
  match a, b with
  | JNull, JNull => true
  | JStr s, JStr t => String.eqb s t
  | JList l, JList l' =>
      (fix all2 (l l' : list json) : bool :=
         match l, l' with
         | [], [] => true
         | x :: l, y :: l' => py_eq x y && all2 l l'
         | _, _ => false
         end) l l'
  | JObj m, JObj m' =>
      (fix all2 (m m' : list (string * json)) : bool :=
         match m, m' with
         | [], [] => true
         | (k, x) :: m, (k', y) :: m' => String.eqb k k' && py_eq x y && all2 m m'
         | _, _ => false
         end) m m'
  | _, _ =>
      match numeric a, numeric b with
      | Some x, Some y => Qeq_bool x y
      | _, _ => false
      end
  end.

(** Python truthiness. *)
Definition py_truthy (v : json) : bool :=
  match v with
  | JNull => false
  | JBool b => b
  | JInt n => negb (n =? 0)
  | JFloat q => negb (Qeq_bool q 0)
  | JStr s => str_truthy s
  | JList l => match l with [] => false | _ => true end
  | JObj m => match m with [] => false | _ => true end
  end.

(** [isinstance(v, int)], which holds for a [bool] too, and the integer. *)
Definition is_int (v : json) : bool :=
  match v with
  | JBool _ | JInt _ => true
  | _ => false
  end.

Definition int_of (v : json) : Z :=
  match v with
  | JBool b => Z.b2z b
  | JInt n => n
  | _ => 0
  end.

(** [str(v)] for a [bool] or an [int], as an f-string prints it. *)
Definition py_str (v : json) : string :=
  match v with
  | JBool true => "True"
  | JBool false => "False"
  | JInt n => pretty n
  | _ => ""
  end.

(** [v > 0]; comparing a string, a list, a dictionary or [None] with an
    [int] raises [TypeError]. *)
Definition gt_zero (v : json) : Res bool :=
  match v with
  | JBool b => Ok b
  | JInt n => Ok (0 <? n)
  | JFloat q => Ok (Qlt_bool 0 q)
  | JStr _ => Raise "'>' not supported between instances of 'str' and 'int'"
  | JList _ => Raise "'>' not supported between instances of 'list' and 'int'"
  | JObj _ => Raise "'>' not supported between instances of 'dict' and 'int'"
  | JNull => Raise "'>' not supported between instances of 'NoneType' and 'int'"
  end.

(** [v is True] and [v is False]. *)
Definition is_True (v : json) : bool :=
  match v with
  | JBool true => true
  | _ => false
  end.

Definition is_False (v : json) : bool :=
  match v with
  | JBool false => true
  | _ => false
  end.

(** [delta[key]]: the dictionary with [was] and [now], and with [severity]
    and [alert] when a change is flagged. *)
Definition plain (old_val new_val : json) : json :=
  JObj [("now", new_val); ("was", old_val)].

Definition flagged (old_val new_val : json) (severity alert : string) : json :=
  JObj [("alert", JStr alert); ("now", new_val); ("severity", JStr severity);
        ("was", old_val)].

Definition critical_keys : list string := ["dns_has_spf"; "dns_has_dmarc"; "ssl_valid"].

(** The body of the loop for one key: [None] when the values are equal. *)
Definition delta_entry (key : string) (old_val new_val : json) : Res (option json) :=
  if py_eq old_val new_val then Ok None
  else if bool_decide (key ∈ critical_keys) && is_True old_val && is_False new_val
  then Ok (Some (flagged old_val new_val "critical" (key ++ " was present, now missing")))
  else if String.eqb key "vt_malicious_count" && is_int new_val && is_int old_val
  then
    if int_of old_val <? int_of new_val
    then Ok (Some (flagged old_val new_val "high"
                     ("VirusTotal flags increased from " ++ py_str old_val
                      ++ " to " ++ py_str new_val)))
    else Ok (Some (plain old_val new_val))
  else if String.eqb key "tranco_rank"
  then
    if py_truthy old_val
    then
      match gt_zero old_val with
      | Raise e => Raise e
      | Ok positive =>
          if positive && (negb (py_truthy new_val) || py_eq new_val (JInt 0))
          then Ok (Some (flagged old_val new_val "warning" "Dropped out of Tranco Top 1M"))
          else Ok (Some (plain old_val new_val))
      end
    else Ok (Some (plain old_val new_val))
  else Ok (Some (plain old_val new_val)).

(** [d.get(key)]: the value, or [None]. *)
Definition dict_get (d : gmap string json) (key : string) : json :=
  default JNull (d !! key).

(** What the loop does for every key of [all_keys]. *)
Definition outcomes (old_signals new_signals : gmap string json)
    : gmap string (Res (option json)) :=
  map_imap (fun key _ =>
              Some (delta_entry key (dict_get old_signals key) (dict_get new_signals key)))
           (old_signals ∪ new_signals).

Definition raised {X : Type} (r : Res X) : option string :=
  match r with
  | Raise e => Some e
  | Ok _ => None
  end.

Definition entry_of (r : Res (option json)) : option json :=
  match r with
  | Ok o => o
  | Raise _ => None
  end.

(** [compute_delta]: the loop over the keys of both dictionaries; an
    exception raised for one key ends the call. *)
Definition compute_delta (old_signals new_signals : gmap string json)
    : Res (gmap string json) :=
  let results := outcomes old_signals new_signals in
  match omap (fun kr => raised (snd kr)) (map_to_list results) with
  | e :: _ => Raise e
  | [] => Ok (omap entry_of results)
  end.

(** ** Properties *)

Lemma Qeq_bool_refl (q : Q) : Qeq_bool q q = true.
Proof. apply Qeq_bool_iff. reflexivity. Qed.

Lemma py_eq_refl (v : json) : py_eq v v = true.
Proof.
  induction v as [| b | n | q | s | l IH | ms IH] using ModelDigest.json_ind; cbn.
  - reflexivity.
  - apply Qeq_bool_refl.
  - apply Qeq_bool_refl.
  - apply Qeq_bool_refl.
  - apply String.eqb_refl.
  - induction IH as [| x l Hx Hl IHl]; [reflexivity | ].
    rewrite Hx. exact IHl.
  - induction IH as [| [k x] ms Hx Hms IHms]; [reflexivity | ].
    cbn in Hx. rewrite String.eqb_refl, Hx. exact IHms.
Qed.

Lemma outcomes_lookup (old_signals new_signals : gmap string json) (key : string) :
  outcomes old_signals new_signals !! key
  = match (old_signals ∪ new_signals) !! key with
    | Some _ =>
        Some (delta_entry key (dict_get old_signals key) (dict_get new_signals key))
    | None => None
    end.
Proof.
  unfold outcomes. rewrite map_lookup_imap.
  destruct ((old_signals ∪ new_signals) !! key); reflexivity.
Qed.

Lemma outside_both (old_signals new_signals : gmap string json) (key : string) :
  (old_signals ∪ new_signals) !! key = None ->
  dict_get old_signals key = JNull /\ dict_get new_signals key = JNull.
Proof.
  intros H. apply lookup_union_None in H as [H1 H2].
  unfold dict_get. rewrite H1, H2. split; reflexivity.
Qed.

(** Only the [tranco_rank] branch can raise: on a changed value that is a
    non-empty string, list or dictionary. *)
Definition not_a_rank (v : json) : bool :=
  match v with
  | JStr s => str_truthy s
  | JList (_ :: _) => true
  | JObj (_ :: _) => true
  | _ => false
  end.

Lemma delta_entry_raises (key : string) (old_val new_val : json) :
  (exists e, delta_entry key old_val new_val = Raise e) <->
  key = "tranco_rank" /\ py_eq old_val new_val = false /\ not_a_rank old_val = true.
Proof.
  unfold delta_entry. split.
  - intros [e H].
    destruct (py_eq old_val new_val); [discriminate H | ].
    destruct (bool_decide (key ∈ critical_keys) && is_True old_val && is_False new_val) eqn:Ec;
      [discriminate H | ].
    destruct (String.eqb key "vt_malicious_count" && is_int new_val && is_int old_val);
      [destruct (_ <? _); discriminate H | ].
    destruct (String.eqb_spec key "tranco_rank") as [-> | _]; [ | discriminate H].
    split; [reflexivity | split; [reflexivity | ]].
    destruct old_val as [| b | n | q | s | l | ms]; cbn in H |- *;
      repeat match type of H with
             | (if ?c then _ else _) = _ => destruct c
             end; try discriminate H; try reflexivity.
  - intros (-> & Hne & Hr). rewrite Hne.
    change (bool_decide ("tranco_rank" ∈ critical_keys)) with false.
    cbn [andb String.eqb Ascii.eqb Bool.eqb].
    destruct old_val as [| b | n | q | s | l | ms]; try discriminate Hr; cbn in Hr |- *.
    + rewrite Hr. eexists. reflexivity.
    + destruct l; [discriminate Hr | eexists; reflexivity].
    + destruct ms; [discriminate Hr | eexists; reflexivity].
Qed.

Lemma omap_nil {X Y : Type} (f : X -> option Y) (l : list X) :
  omap f l = [] <-> forall x, x ∈ l -> f x = None.
Proof.
  induction l as [| x l IH]; cbn.
  - split; [intros _ y Hy; inversion Hy | reflexivity].
  - destruct (f x) eqn:E.
    + split; [discriminate | ]. intros H. specialize (H x ltac:(left)). congruence.
    + rewrite IH. split.
      * intros H y Hy. apply elem_of_cons in Hy as [-> | Hy]; [exact E | apply H, Hy].
      * intros H y Hy. apply H. right. exact Hy.
Qed.

(** [compute_delta] returns a dictionary exactly when no key raises. *)
Lemma compute_delta_returns (old_signals new_signals : gmap string json) :
  (forall key r, outcomes old_signals new_signals !! key = Some r -> raised r = None) ->
  compute_delta old_signals new_signals
  = Ok (omap entry_of (outcomes old_signals new_signals)).
Proof.
  intros H. unfold compute_delta. cbv zeta.
  destruct (omap _ (map_to_list _)) as [| e l] eqn:E; [reflexivity | ].
  exfalso.
  assert (e ∈ omap (fun kr : string * Res (option json) => raised (snd kr))
                (map_to_list (outcomes old_signals new_signals))) as Hin
    by (rewrite E; left).
  apply list_elem_of_omap in Hin as ([k r] & Hkr & Hr).
  apply elem_of_map_to_list in Hkr. cbn in Hr.
  rewrite (H k r Hkr) in Hr. discriminate Hr.
Qed.

Lemma compute_delta_raises (old_signals new_signals : gmap string json) (key e : string) :
  outcomes old_signals new_signals !! key = Some (Raise e) ->
  exists e', compute_delta old_signals new_signals = Raise e'.
Proof.
  intros H. unfold compute_delta. cbv zeta.
  destruct (omap _ (map_to_list _)) as [| e' l] eqn:E; [ | eexists; reflexivity].
  exfalso.
  pose proof (proj1 (omap_nil _ _) E (key, Raise e)
                ltac:(apply elem_of_map_to_list; exact H)) as Hn.
  discriminate Hn.
Qed.

Lemma compute_delta_inv (old_signals new_signals d : gmap string json) :
  compute_delta old_signals new_signals = Ok d ->
  d = omap entry_of (outcomes old_signals new_signals) /\
  forall key r, outcomes old_signals new_signals !! key = Some r -> raised r = None.
Proof.
  intros H.
  assert (forall key r, outcomes old_signals new_signals !! key = Some r -> raised r = None)
    as Hn.
  { intros key r Hr. destruct r as [o | e]; [reflexivity | ].
    destruct (compute_delta_raises _ _ _ _ Hr) as [e' He']. congruence. }
  split; [ | exact Hn].
  rewrite (compute_delta_returns _ _ Hn) in H. congruence.
Qed.

(** The entry of a key in a returned delta. *)
Lemma delta_lookup (old_signals new_signals d : gmap string json) (key : string) :
  compute_delta old_signals new_signals = Ok d ->
  delta_entry key (dict_get old_signals key) (dict_get new_signals key) = Ok (d !! key).
Proof.
  intros H. apply compute_delta_inv in H as [-> Hn].
  rewrite lookup_omap, outcomes_lookup.
  destruct ((old_signals ∪ new_signals) !! key) eqn:E.
  - cbn. specialize (Hn key _ ltac:(rewrite outcomes_lookup, E; reflexivity)).
    destruct (delta_entry _ _ _); [reflexivity | discriminate Hn].
  - destruct (outside_both _ _ _ E) as [-> ->]. reflexivity.
Qed.

(** When [compute_delta] raises, when it returns, and what it returns for
    an observation compared with itself. *)
Lemma compute_delta_outcome (old_signals new_signals : gmap string json) :
  ((exists e, compute_delta old_signals new_signals = Raise e) <->
   not_a_rank (dict_get old_signals "tranco_rank") = true /\
   py_eq (dict_get old_signals "tranco_rank") (dict_get new_signals "tranco_rank") = false) /\
  ((exists d, compute_delta old_signals new_signals = Ok d) <->
   not_a_rank (dict_get old_signals "tranco_rank") = false \/
   py_eq (dict_get old_signals "tranco_rank") (dict_get new_signals "tranco_rank") = true) /\
  compute_delta old_signals old_signals = Ok ∅.
Proof.
  assert ((exists e, compute_delta old_signals new_signals = Raise e) <->
          not_a_rank (dict_get old_signals "tranco_rank") = true /\
          py_eq (dict_get old_signals "tranco_rank") (dict_get new_signals "tranco_rank") = false)
    as Hraise.
  { split.
    - intros [e He]. unfold compute_delta in He. cbv zeta in He.
      destruct (omap _ (map_to_list _)) as [| e' l] eqn:E; [discriminate He | ].
      assert (e' ∈ omap (fun kr : string * Res (option json) => raised (snd kr))
                     (map_to_list (outcomes old_signals new_signals))) as Hin
        by (rewrite E; left).
      apply list_elem_of_omap in Hin as ([k r] & Hkr & Hr).
      apply elem_of_map_to_list in Hkr. cbn in Hr.
      destruct r as [o | e'']; [discriminate Hr | ].
      rewrite outcomes_lookup in Hkr.
      destruct ((old_signals ∪ new_signals) !! k); [ | discriminate Hkr].
      injection Hkr as Hkr.
      destruct (proj1 (delta_entry_raises _ _ _) (ex_intro _ _ Hkr)) as (-> & H1 & H2).
      split; assumption.
    - intros [Hbad Hne].
      destruct (proj2 (delta_entry_raises "tranco_rank" _ _)
                  (conj eq_refl (conj Hne Hbad))) as [e He].
      apply (compute_delta_raises _ _ "tranco_rank" e).
      rewrite outcomes_lookup.
      destruct ((old_signals ∪ new_signals) !! "tranco_rank") eqn:Eu;
        [rewrite He; reflexivity | ].
      destruct (outside_both _ _ _ Eu) as [Ho _]. rewrite Ho in Hbad. discriminate Hbad. }
  split; [exact Hraise | split].
  - split.
    + intros [d Hd].
      destruct (not_a_rank (dict_get old_signals "tranco_rank")) eqn:Eb; [ | left; reflexivity].
      destruct (py_eq (dict_get old_signals "tranco_rank") (dict_get new_signals "tranco_rank"))
        eqn:Ee; [right; reflexivity | ].
      destruct (proj2 Hraise (conj eq_refl eq_refl)) as [e He]. congruence.
    + intros Hok.
      destruct (compute_delta old_signals new_signals) as [d | e] eqn:E;
        [eexists; reflexivity | ].
      destruct (proj1 Hraise (ex_intro _ e eq_refl)) as [H1 H2].
      destruct Hok; congruence.
  - rewrite compute_delta_returns.
    + f_equal. apply map_eq. intros k.
      rewrite lookup_omap, outcomes_lookup, lookup_empty.
      destruct ((old_signals ∪ old_signals) !! k); [ | reflexivity].
      cbn. unfold delta_entry. rewrite py_eq_refl. reflexivity.
    + intros k r Hr. rewrite outcomes_lookup in Hr.
      destruct ((old_signals ∪ old_signals) !! k); [ | discriminate Hr].
      injection Hr as <-. unfold delta_entry. rewrite py_eq_refl. reflexivity.
Qed.

(** [entry[name]] of an entry of the delta. *)
Definition member (name : string) (entry : json) : option json :=
  match entry with
  | JObj ms => snd <$> List.find (fun kv => String.eqb (fst kv) name) ms
  | _ => None
  end.

(** The severity a delta reports for a key, if any. *)
Definition severity_at (d : gmap string json) (key : string) : option json :=
  d !! key ≫= member "severity".

(** X28.  The delta lists exactly the keys whose value changed.  When
    [compute_delta] returns, a key of either dictionary is in the delta if
    and only if its old and new values, [None] standing for a missing key,
    are unequal in Python's sense, and its entry then records them under
    [was] and [now]; in particular the delta of an observation against
    itself is empty. *)
Theorem delta_lists_the_changed_keys
    (old_signals new_signals d : gmap string json) :
  compute_delta old_signals new_signals = Ok d ->
  forall key,
    (d !! key = None <-> py_eq (dict_get old_signals key) (dict_get new_signals key) = true) /\
    (forall entry, d !! key = Some entry ->
       member "was" entry = Some (dict_get old_signals key) /\
       member "now" entry = Some (dict_get new_signals key)).
Proof.
  intros H key. pose proof (delta_lookup _ _ _ key H) as Hk.
  unfold delta_entry in Hk.
  destruct (py_eq (dict_get old_signals key) (dict_get new_signals key)) eqn:Eeq.
  - injection Hk as Hk. rewrite <- Hk. split; [split; reflexivity | ].
    intros entry He. discriminate He.
  - split.
    + split; [ | discriminate]. intros Hnone. rewrite Hnone in Hk.
      repeat match type of Hk with
             | (if ?c then _ else _) = _ => destruct c
             | match ?x with Ok _ => _ | Raise _ => _ end = _ => destruct x
             end; discriminate Hk.
    + intros entry He. rewrite He in Hk.
      repeat match type of Hk with
             | (if ?c then _ else _) = _ => destruct c
             | match ?x with Ok _ => _ | Raise _ => _ end = _ => destruct x
             end; try discriminate Hk; injection Hk as <-; split; reflexivity.
Qed.

Definition dns_before : gmap string json :=
  {[ "dns_has_spf" := JBool true; "dns_has_mx" := JBool true ]}.
Definition dns_after : gmap string json :=
  {[ "dns_has_spf" := JBool false; "dns_has_mx" := JBool true ]}.

Lemma delta_lists_the_changed_keys_witness :
  exists d,
    compute_delta dns_before dns_after = Ok d /\
    d !! "dns_has_mx" = None /\ d !! "dns_has_spf" <> None.
Proof.
  destruct (proj2 (proj1 (proj2 (compute_delta_outcome dns_before dns_after)))
              (or_introl eq_refl)) as [d E].
  exists d. split; [exact E | ].
  split.
  - apply (delta_lists_the_changed_keys dns_before dns_after d E "dns_has_mx").
    reflexivity.
  - intros Hn.
    apply (delta_lists_the_changed_keys dns_before dns_after d E "dns_has_spf") in Hn.
    vm_compute in Hn. discriminate Hn.
Defined.


Lemma py_eq_ints (a b : json) :
  is_int a = true -> is_int b = true -> py_eq a b = (int_of a =? int_of b).
Proof.
  intros Ha Hb.
  destruct a as [| x | n | | | | ]; try discriminate Ha;
    destruct b as [| y | m | | | | ]; try discriminate Hb; cbn;
    unfold Qeq_bool; cbn; rewrite !Z.mul_1_r; reflexivity.
Qed.

Lemma py_eq_numeric (a b : json) (x : Q) :
  numeric a = Some x ->
  py_eq a b = match numeric b with
              | Some y => Qeq_bool x y
              | None => false
              end.
Proof.
  intros Ha.
  destruct a as [| ? | ? | ? | | | ]; try discriminate Ha; injection Ha as <-;
    destruct b; reflexivity.
Qed.

Lemma positive_is_numeric (v : json) :
  gt_zero v = Ok true -> exists x, numeric v = Some x /\ (0 < x)%Q.
Proof.
  destruct v as [| b | n | q | | | ]; try discriminate; cbn; intros [= H].
  - subst b. exists 1%Q. split; reflexivity.
  - apply Z.ltb_lt in H. exists (inject_Z n). split; [reflexivity | ].
    change (inject_Z 0 < inject_Z n)%Q. rewrite <- Zlt_Qlt. exact H.
  - exists q. split; [reflexivity | apply BreakerSpec.Qlt_bool_iff, H].
Qed.

Lemma false_is_zero (v : json) :
  py_truthy v = false ->
  numeric v = None \/ exists y, numeric v = Some y /\ (y == 0)%Q.
Proof.
  destruct v as [| b | n | q | | | ]; cbn; intros H; try (left; reflexivity); right.
  - subst b. exists 0%Q. split; reflexivity.
  - apply negb_false_iff, Z.eqb_eq in H. subst n. exists 0%Q. split; reflexivity.
  - apply negb_false_iff, Qeq_bool_iff in H. exists q. split; [reflexivity | exact H].
Qed.

Lemma positive_differs_from_false (a b : json) :
  gt_zero a = Ok true -> py_truthy b = false -> py_eq a b = false.
Proof.
  intros Ha Hb. destruct (positive_is_numeric a Ha) as (x & Hx & Hpos).
  rewrite (py_eq_numeric a b x Hx).
  destruct (false_is_zero b Hb) as [-> | (y & -> & Hy)]; [reflexivity | ].
  apply not_true_is_false. intros Heq. apply Qeq_bool_iff in Heq.
  rewrite Heq, Hy in Hpos. exact (Qlt_irrefl _ Hpos).
Qed.

Lemma positive_is_true (v : json) : gt_zero v = Ok true -> py_truthy v = true.
Proof.
  destruct v as [| b | n | q | | | ]; try discriminate; cbn; intros [= H].
  - exact H.
  - apply Z.ltb_lt in H. apply negb_true_iff, Z.eqb_neq. lia.
  - apply negb_true_iff, not_true_is_false. intros Hq.
    apply Qeq_bool_iff in Hq. apply BreakerSpec.Qlt_bool_iff in H.
    rewrite Hq in H. exact (Qlt_irrefl _ H).
Qed.

Ltac split_entry H :=
  repeat match type of H with
         | (if ?c then _ else _) = _ => let E := fresh "E" in destruct c eqn:E
         | match ?x with Ok _ => _ | Raise _ => _ end = _ =>
             let E := fresh "E" in destruct x eqn:E
         end.

(** X29.  What the delta flags.  When [compute_delta] returns, an entry
    is marked critical exactly for [dns_has_spf], [dns_has_dmarc] or
    [ssl_valid] going from [True] to [False]; high exactly for
    [vt_malicious_count] growing from one integer to a larger one; and
    warning exactly for [tranco_rank] going from a positive number to zero,
    [None] or another false value.  One of the three records turning from
    [True] to missing, [None], is not flagged. *)
Theorem delta_flags (old_signals new_signals d : gmap string json) :
  compute_delta old_signals new_signals = Ok d ->
  forall key,
    let old_val := dict_get old_signals key in
    let new_val := dict_get new_signals key in
    (severity_at d key = Some (JStr "critical") <->
     key ∈ critical_keys /\ old_val = JBool true /\ new_val = JBool false) /\
    (severity_at d key = Some (JStr "high") <->
     key = "vt_malicious_count" /\ is_int old_val = true /\ is_int new_val = true /\
     int_of old_val < int_of new_val) /\
    (severity_at d key = Some (JStr "warning") <->
     key = "tranco_rank" /\ gt_zero old_val = Ok true /\ py_truthy new_val = false) /\
    (key ∈ critical_keys -> old_val = JBool true -> new_val = JNull ->
     severity_at d key = None).
Proof.
  intros H key old_val new_val.
  pose proof (delta_lookup _ _ _ key H) as Hk.
  fold old_val new_val in Hk. unfold severity_at.
  split; [ | split; [ | split]].
  - split.
    + intros Hs. unfold delta_entry in Hk. split_entry Hk; try discriminate Hk;
        injection Hk as Hk; rewrite <- Hk in Hs; try discriminate Hs.
      apply andb_prop in E0 as [E0 E2]. apply andb_prop in E0 as [E0 E1].
      apply bool_decide_eq_true in E0.
      destruct old_val as [| [|] | | | | | ]; try discriminate E1.
      destruct new_val as [| [|] | | | | | ]; try discriminate E2.
      repeat split. exact E0.
    + intros (Hin & Ho & Hn). rewrite Ho, Hn in Hk. unfold delta_entry in Hk.
      rewrite (bool_decide_eq_true_2 _ Hin) in Hk. cbn in Hk.
      injection Hk as <-. reflexivity.
  - split.
    + intros Hs. unfold delta_entry in Hk. split_entry Hk; try discriminate Hk;
        injection Hk as Hk; rewrite <- Hk in Hs; try discriminate Hs.
      apply andb_prop in E1 as [E1 E4]. apply andb_prop in E1 as [E1 E3].
      apply String.eqb_eq in E1. apply Z.ltb_lt in E2.
      repeat split; assumption.
    + intros (-> & Ho & Hn & Hlt). unfold delta_entry in Hk.
      rewrite (py_eq_ints _ _ Ho Hn), Ho, Hn in Hk.
      destruct (Z.eqb_spec (int_of old_val) (int_of new_val)) as [Heq | _]; [lia | ].
      change (bool_decide ("vt_malicious_count" ∈ critical_keys)) with false in Hk.
      cbn [andb] in Hk. rewrite String.eqb_refl in Hk. cbn [andb] in Hk.
      rewrite (proj2 (Z.ltb_lt _ _) Hlt) in Hk. injection Hk as <-. reflexivity.
  - split.
    + intros Hs. unfold delta_entry in Hk. split_entry Hk; try discriminate Hk;
        injection Hk as Hk; rewrite <- Hk in Hs; try discriminate Hs.
      apply String.eqb_eq in E2. apply andb_prop in E5 as [-> E6].
      split; [exact E2 | split; [reflexivity | ]].
      apply orb_prop in E6 as [E6 | E6]; [apply negb_true_iff, E6 | ].
      destruct new_val as [| [|] | n | q | | | ]; cbn in E6 |- *; try discriminate E6;
        try reflexivity.
      * unfold Qeq_bool in E6. cbn in E6. apply Z.eqb_eq in E6.
        apply negb_false_iff, Z.eqb_eq. lia.
      * apply negb_false_iff. exact E6.
    + intros (-> & Hpos & Hfalse). unfold delta_entry in Hk.
      pose proof (positive_is_true _ Hpos) as Ht.
      pose proof (positive_differs_from_false _ _ Hpos Hfalse) as Hne.
      rewrite Hne, Ht, Hpos, Hfalse in Hk.
      change (bool_decide ("tranco_rank" ∈ critical_keys)) with false in Hk.
      cbn in Hk. injection Hk as <-. reflexivity.
  - intros Hin Ho Hn. rewrite Ho, Hn in Hk. unfold delta_entry in Hk. cbn in Hk.
    rewrite !andb_false_r in Hk. cbn in Hk.
    unfold critical_keys in Hin.
    repeat (apply elem_of_cons in Hin as [-> | Hin];
            [cbn in Hk; injection Hk as <-; reflexivity | ]).
    inversion Hin.
Qed.

Lemma delta_flags_witness :
  exists d,
    compute_delta dns_before dns_after = Ok d /\
    severity_at d "dns_has_spf" = Some (JStr "critical").
Proof.
  destruct (proj2 (proj1 (proj2 (compute_delta_outcome dns_before dns_after)))
              (or_introl eq_refl)) as [d Hd].
  exists d. split; [exact Hd | ].
  apply (delta_flags dns_before dns_after d Hd "dns_has_spf").
  split; [ | split; reflexivity].
  apply elem_of_cons. left. reflexivity.
Defined.

(** X30.  [compute_delta] raises in one situation only: the old payload
    holds a non-empty string, list or dictionary under [tranco_rank] and
    the new value differs from it; then the comparison [old_val > 0] raises
    [TypeError] and no delta is returned.  In every other case a delta is
    returned, and for an observation compared with itself it is empty. *)
Theorem delta_raises_only_on_a_bad_rank (old_signals new_signals : gmap string json) :
  ((exists e, compute_delta old_signals new_signals = Raise e) <->
   not_a_rank (dict_get old_signals "tranco_rank") = true /\
   py_eq (dict_get old_signals "tranco_rank") (dict_get new_signals "tranco_rank") = false) /\
  ((exists d, compute_delta old_signals new_signals = Ok d) <->
   not_a_rank (dict_get old_signals "tranco_rank") = false \/
   py_eq (dict_get old_signals "tranco_rank") (dict_get new_signals "tranco_rank") = true) /\
  compute_delta old_signals old_signals = Ok ∅.
Proof. exact (compute_delta_outcome old_signals new_signals). Qed.

End Delta.
